(** * Hytale server installer: a shallow embedding of
      [hytale-server-installer.cjs] and the properties of its steps.

    The installer is a Node.js script.  Its functions are embedded as
    computations in a small monad that threads the observable state of the
    process (files, console, the calls made to the operating system) and has
    the four ways a JavaScript computation can end: a value, an exception, a
    call of [process.exit], or a promise that never settles.  What Node.js and
    the operating system decide (the clock, [JSON.parse], [path.join], what a
    child process does, what the network answers) is a field of the record
    [Host]; every theorem holds for every host. *)

From Stdlib Require Import PrimFloat Ascii String ZArith Lia.
From stdpp Require Import gmap strings list pretty sorting.

Set Warnings "-register-all,-clear-no-such-hyp".

(** Appending to a string literal computes. *)
#[local] Arguments String.append !s1 s2 : simpl nomatch.

Local Open Scope string_scope.
Local Open Scope Z_scope.

(** ** JavaScript strings

    A JavaScript string is the sequence of its code units.  [string] holds
    the code units below 256; an [ascii] is one code unit. *)

Module JS.

(** The double quote, line feed and the other characters written by code. *)
Definition dquote : ascii := "034"%char.
Definition dq : string := String dquote EmptyString.
Definition LF : string := String "010"%char EmptyString.

(** [!s] for a string: the empty string is falsy. *)
Definition is_empty (s : string) : bool :=
  match s with EmptyString => true | String _ _ => false end.

(** [s.split(" ")]: the pieces between single spaces; the empty string gives
    one empty piece, two adjacent spaces give an empty piece between them. *)
Fixpoint split_space (s : string) : list string :=
  match s with
  | EmptyString => [EmptyString]
  | String c rest =>
      if Ascii.eqb c " "%char then EmptyString :: split_space rest
      else match split_space rest with
           | [] => [String c EmptyString]
           | piece :: pieces => String c piece :: pieces
           end
  end.

(** [pieces.join(" ")]. *)
Fixpoint join_space (pieces : list string) : string :=
  match pieces with
  | [] => EmptyString
  | [piece] => piece
  | piece :: rest => piece +:+ " " +:+ join_space rest
  end.

Fixpoint has_space (s : string) : bool :=
  match s with
  | EmptyString => false
  | String c rest => Ascii.eqb c " "%char || has_space rest
  end.

(** [s.endsWith(suffix)]. *)
Fixpoint endsWith (s suffix : string) : bool :=
  String.eqb s suffix ||
  match s with
  | EmptyString => false
  | String _ rest => endsWith rest suffix
  end.

(** White space as [\s] and [trim] read it, among the code units below 256:
    TAB, LF, VT, FF, CR, space and the no-break space. *)
Definition is_space (c : ascii) : bool :=
  let n := nat_of_ascii c in
  ((9 <=? n)%nat && (n <=? 13)%nat) || (n =? 32)%nat || (n =? 160)%nat.

(** [\d]: the ten ASCII digits. *)
Definition is_digit (c : ascii) : bool :=
  let n := nat_of_ascii c in (48 <=? n)%nat && (n <=? 57)%nat.

Fixpoint trimStart (s : string) : string :=
  match s with
  | EmptyString => EmptyString
  | String c rest => if is_space c then trimStart rest else s
  end.

Fixpoint all_space (s : string) : bool :=
  match s with
  | EmptyString => true
  | String c rest => is_space c && all_space rest
  end.

Fixpoint trimEnd (s : string) : string :=
  match s with
  | EmptyString => EmptyString
  | String c rest => if all_space s then EmptyString else String c (trimEnd rest)
  end.

(** [s.trim()]. *)
Definition trim (s : string) : string := trimEnd (trimStart s).

(** The value of a run of digits, most significant first, continuing [acc]. *)
Fixpoint digits_value (acc : N) (s : string) : N :=
  match s with
  | EmptyString => acc
  | String c rest =>
      digits_value (10 * acc + (N_of_ascii c - 48))%N rest
  end.

(** [Number(s)] for a non-empty run of ASCII digits.  JavaScript rounds the
    value to a double; rounding is monotone and leaves the integers below
    2^53 alone, so every comparison with 25 is that of the exact value. *)
Definition Number (s : string) : N := digits_value 0%N s.

(** [`${n}`] for such a number (decimal; exact below 2^53). *)
Definition show_N (n : N) : string := pretty n.

(** [`${n}`] for an integer. *)
Definition show_Z (n : Z) : string := pretty n.

End JS.

(** ** JavaScript values, objects and exceptions *)

(** The values [JSON.parse] produces, and [undefined] for a missing
    property.  The bindings of an object are kept in insertion order. *)
Inductive JSValue : Type :=
  | JUndefined
  | JNull
  | JBool (b : bool)
  | JNum (x : float)
  | JStr (s : string)
  | JArr (items : list JSValue)
  | JObj (props : list (string * JSValue)).

(** An object whose properties are read by name. *)
Abbreviation JSObject := (gmap string JSValue).

(** [!v] is [negb (truthy v)]. *)
Definition truthy (v : JSValue) : bool :=
  match v with
  | JUndefined | JNull => false
  | JBool b => b
  | JNum x => negb (PrimFloat.eqb x 0%float || negb (PrimFloat.eqb x x))
  | JStr s => negb (JS.is_empty s)
  | JArr _ | JObj _ => true
  end.

(** The keys "0", "1", ... of the elements of an array or of a string. *)
Fixpoint indexed {A : Type} (i : nat) (items : list A) : list (string * A) :=
  match items with
  | [] => []
  | x :: rest => (pretty i, x) :: indexed (S i) rest
  end.

Fixpoint chars (s : string) : list JSValue :=
  match s with
  | EmptyString => []
  | String c rest => JStr (String c EmptyString) :: chars rest
  end.

(** The own enumerable properties that [...v] copies: those of an object,
    the elements of an array, the characters of a string, and none for
    [null], a boolean or a number. *)
Definition own_props (v : JSValue) : list (string * JSValue) :=
  match v with
  | JObj props => props
  | JArr items => indexed 0 items
  | JStr s => indexed 0 (chars s)
  | JUndefined | JNull | JBool _ | JNum _ => []
  end.

(** [{ ...o, ...v }]: the properties of [v] are defined on a copy of [o]
    one after the other, a later one replacing an earlier one. *)
Definition spread (o : JSObject) (v : JSValue) : JSObject :=
  fold_left (fun acc kv => <[kv.1 := kv.2]> acc) (own_props v) o.

(** [o.k]. *)
Definition get (o : JSObject) (k : string) : JSValue :=
  default JUndefined (o !! k).

(** An exception: an [Error] object with its name and message. *)
Record Exn : Type := mkExn { exn_name : string; message : string }.

Definition Error (msg : string) : Exn := mkExn "Error" msg.
Definition TypeError (msg : string) : Exn := mkExn "TypeError" msg.

(** ** The state of the process and its host *)

Inductive Stream : Type := Stdout | Stderr.

(** One call of [console.log] or [console.error]: the text, and the error
    object printed after it when there is one. *)
Record ConsoleLine : Type :=
  mkLine { stream : Stream; text : string; detail : option Exn }.

(** The calls that reach the operating system or the network. *)
Inductive Call : Type :=
  | CallRm (dir : string)
  | CallSpawn (exe : string) (args : list string) (cwd : string)
  | CallHttpsGet (url : string)
  | CallExec (cmd : string).

(** The observable state: the regular files by path, the paths on which
    reading and writing fail, the console, the number of times the clock
    was read and the calls made so far. *)
Record World : Type := mkWorld {
  files : gmap string string;
  denied : gset string;
  console : list ConsoleLine;
  clock_reads : nat;
  calls : list Call
}.

(** What [exec] hands to its callback. *)
Record ExecResult : Type :=
  mkExec { exec_err : option Exn; stdout : string; stderr : string }.

(** What a spawned child emits. *)
Inductive ChildEvent : Type :=
  | ChildError (e : Exn)
  | ChildExit (code : option Z) (signal : option string).

(** The events of an HTTPS request that [downloadFile] listens to: an error
    of the request, the response with its status code and its body as far
    as it arrives, and the [finish] of the destination stream the body is
    piped to.  What the function does not listen to, as the end of a
    connection that is lost without an error of the request, is no event. *)
Inductive HttpsEvent : Type :=
  | RequestError (e : Exn)
  | Response (statusCode : Z) (body : string)
  | Finish.

(** Node.js and the machine the script runs on. *)
Record Host : Type := mkHost {
  process_pkg : bool;
  process_execPath : string;
  process_cwd : string;
  os_platform : string;
  path_dirname : string -> string;
  path_join : string -> string -> string;
  path_resolve : string -> string -> string;
  (** the [n]-th value of [new Date().toISOString()] *)
  Date_toISOString : nat -> string;
  (** [JSON.stringify(o, null, 2)] *)
  JSON_stringify : JSObject -> string;
  JSON_parse : string -> Exn + JSValue;
  (** [exec(cmd, callback)] *)
  child_process_exec : string -> ExecResult;
  (** the events of the child started by [spawn(exe, args, {cwd})] *)
  child_process_spawn : string -> list string -> string -> list ChildEvent;
  (** the events of [https.get(url)] *)
  https_get : string -> list HttpsEvent;
  fs_readdirSync : string -> gmap string string -> Exn + list string;
  (** [fs.statSync(p).mtimeMs].  The script only takes the sign of a
      difference of two of them, which for doubles is the sign of the exact
      difference: an integer number of time units models it. *)
  fs_statSync_mtimeMs : string -> gmap string string -> Exn + Z;
  (** [fs.promises.rm(dir, { recursive, force, maxRetries, retryDelay })]:
      the files left, and the error when it rejects *)
  fs_rm : string -> gmap string string -> option Exn * gmap string string;
  (** what [err.stack] holds after its first line, [name: message]: the
      frames of the stack, each on a line of its own, or nothing *)
  stack_frames : Exn -> string
}.

(** ** Computations *)

Inductive Outcome (A : Type) : Type :=
  | Ret (a : A)
  | Throw (e : Exn)
  | Exit (code : Z)
  | Hang.
Arguments Ret {A} a.
Arguments Throw {A} e.
Arguments Exit {A} code.
Arguments Hang {A}.

Definition M (A : Type) : Type := World -> Outcome A * World.

Definition ret {A : Type} (a : A) : M A := fun w => (Ret a, w).
Definition throw {A : Type} (e : Exn) : M A := fun w => (Throw e, w).
(** [process.exit(code)] *)
Definition exit {A : Type} (code : Z) : M A := fun w => (Exit code, w).
(** awaiting a promise that never settles *)
Definition hang {A : Type} : M A := fun w => (Hang, w).

Definition bind {A B : Type} (m : M A) (k : A -> M B) : M B :=
  fun w =>
    match m w with
    | (Ret a, w') => k a w'
    | (Throw e, w') => (Throw e, w')
    | (Exit code, w') => (Exit code, w')
    | (Hang, w') => (Hang, w')
    end.

(** [try { m } catch (err) { handler err }] *)
Definition try_catch {A : Type} (m : M A) (handler : Exn -> M A) : M A :=
  fun w =>
    match m w with
    | (Throw e, w') => handler e w'
    | r => r
    end.

Notation "x <- m ;; k" := (bind m (fun x => k))
  (at level 100, m at next level, right associativity).
Notation "m ;; k" := (bind m (fun _ => k))
  (at level 100, right associativity).

(** ** The file system and the console *)

Definition fs_error (code syscall path : string) : Exn :=
  Error (code +:+ ", " +:+ syscall +:+ " '" +:+ path +:+ "'").

Definition set_files (fs : gmap string string) (w : World) : World :=
  mkWorld fs (denied w) (console w) (clock_reads w) (calls w).

Definition existsSync (p : string) : M bool :=
  fun w => (Ret (bool_decide (is_Some (files w !! p))), w).

Definition writeFileSync (p data : string) : M unit :=
  fun w =>
    if bool_decide (p ∈ denied w)
    then (Throw (fs_error "EACCES: permission denied" "open" p), w)
    else (Ret tt, set_files (<[p := data]> (files w)) w).

Definition appendFileSync (p data : string) : M unit :=
  fun w =>
    if bool_decide (p ∈ denied w)
    then (Throw (fs_error "EACCES: permission denied" "open" p), w)
    else (Ret tt, set_files (<[p := default "" (files w !! p) +:+ data]> (files w)) w).

Definition readFileSync (p : string) : M string :=
  fun w =>
    if bool_decide (p ∈ denied w)
    then (Throw (fs_error "EACCES: permission denied" "open" p), w)
    else match files w !! p with
         | Some data => (Ret data, w)
         | None => (Throw (fs_error "ENOENT: no such file or directory" "open" p), w)
         end.

Definition with_line (l : ConsoleLine) (w : World) : World :=
  mkWorld (files w) (denied w) (console w ++ [l]) (clock_reads w) (calls w).

Definition console_write (l : ConsoleLine) : M unit :=
  fun w => (Ret tt, with_line l w).

Definition console_log (msg : string) : M unit :=
  console_write (mkLine Stdout msg None).
Definition console_error (msg : string) (err : option Exn) : M unit :=
  console_write (mkLine Stderr msg err).

Definition with_call (c : Call) (w : World) : World :=
  mkWorld (files w) (denied w) (console w) (clock_reads w) (calls w ++ [c]).

Definition record_call (c : Call) : M unit :=
  fun w => (Ret tt, with_call c w).

(** ** Library functions the script calls *)

(** The pattern of [checkJava], [/version\s+Q(\d+)/i] with a double quote
    for Q: the word [version] in any case, one or more
    white-space characters, a double quote and one or more digits, which are
    captured.  Without the [u] flag the letters of the pattern match only
    their two ASCII forms. *)
Definition lower (c : ascii) : ascii :=
  let n := nat_of_ascii c in
  if (65 <=? n)%nat && (n <=? 90)%nat then ascii_of_nat (n + 32) else c.

(** The rest of [s] after the letters of [word], compared without case. *)
Fixpoint after_word (word s : string) : option string :=
  match word, s with
  | EmptyString, _ => Some s
  | String p word', String c s' =>
      if Ascii.eqb (lower c) p then after_word word' s' else None
  | String _ _, EmptyString => None
  end.

(** The rest of [s] after [\s+]: the whole run of white space, since the
    quote that must follow is not white space. *)
Definition after_spaces (s : string) : option string :=
  match s with
  | String c rest => if JS.is_space c then Some (JS.trimStart rest) else None
  | EmptyString => None
  end.

(** The longest run of digits [s] starts with. *)
Fixpoint leading_digits (s : string) : string :=
  match s with
  | String c rest =>
      if JS.is_digit c then String c (leading_digits rest) else EmptyString
  | EmptyString => EmptyString
  end.

(** The capture of the pattern matched at the start of [s]. *)
Definition version_at (s : string) : option string :=
  match after_word "version" s with
  | Some s1 =>
      match after_spaces s1 with
      | Some (String q s2) =>
          if Ascii.eqb q JS.dquote then
            let ds := leading_digits s2 in
            if JS.is_empty ds then None else Some ds
          else None
      | _ => None
      end
  | None => None
  end.

(** [out.match(pattern)]: the capture of the leftmost match,
    [None] for [null]. *)
Fixpoint version_match (out : string) : option string :=
  match version_at out with
  | Some ds => Some ds
  | None =>
      match out with
      | EmptyString => None
      | String _ rest => version_match rest
      end
  end.

(** [v.split(" ")] where [v] was read from the property [name]: a method of
    strings only (the messages are V8's). *)
Definition split_of (name : string) (v : JSValue) : Exn + list string :=
  match v with
  | JStr s => inr (JS.split_space s)
  | JUndefined =>
      inl (TypeError "Cannot read properties of undefined (reading 'split')")
  | JNull =>
      inl (TypeError "Cannot read properties of null (reading 'split')")
  | JBool _ | JNum _ | JArr _ | JObj _ =>
      inl (TypeError (name +:+ ".split is not a function"))
  end.

(** [items.sort(compare)]: the sort is stable, and for a comparator that
    orders its arguments consistently every stable sort gives the same
    array; here by insertion, an item going before the first one it does
    not compare greater than. *)
Fixpoint sort_insert {A : Type} (compare : A -> A -> Z) (x : A) (sorted : list A)
  : list A :=
  match sorted with
  | [] => [x]
  | y :: rest =>
      if compare x y <=? 0 then x :: y :: rest
      else y :: sort_insert compare x rest
  end.

Definition sort {A : Type} (compare : A -> A -> Z) (items : list A) : list A :=
  fold_right (sort_insert compare) [] items.

(** ** The script *)

Section Installer.

Context (host : Host).

(** *** Runtime paths *)

Definition RUNTIME_DIR : string :=
  if process_pkg host
  then path_dirname host (process_execPath host)
  else process_cwd host.

Definition LOG_FILE : string := path_join host RUNTIME_DIR "installer.log".
Definition CONFIG_FILE : string :=
  path_join host RUNTIME_DIR "installer-config.json".

Definition DOWNLOAD_URL : string :=
  "https://downloader.hytale.com/hytale-downloader.zip".
Definition DOWNLOADER_ZIP : string :=
  path_join host RUNTIME_DIR "hytale-downloader.zip".
Definition EXTRACT_DIR : string :=
  path_join host RUNTIME_DIR "hytale-downloader".

(** *** Logging system *)

Definition now : M string :=
  fun w => (Ret (Date_toISOString host (clock_reads w)),
            mkWorld (files w) (denied w) (console w)
                    (S (clock_reads w)) (calls w)).

Definition writeLog (level msg : string) : M unit :=
  stamp <- now ;;
  let line := "[" +:+ stamp +:+ "] [" +:+ level +:+ "] " +:+ msg +:+ JS.LF in
  try_catch (appendFileSync LOG_FILE line)
            (fun err => console_error "Failed to write log:" (Some err)) ;;
  if String.eqb level "ERROR" then console_error msg None else console_log msg.

Definition log (msg : string) : M unit := writeLog "INFO" msg.
Definition warn (msg : string) : M unit := writeLog "WARN" msg.
Definition error (msg : string) : M unit := writeLog "ERROR" msg.

(** *** Cleanup *)

(** The guard of [deleteDirs]: [!dir || dir === "/" || dir === process.cwd()].
    A path is a string, or [None] for [null] and [undefined]. *)
Definition skipped (dir : option string) : bool :=
  match dir with
  | None => true
  | Some d =>
      JS.is_empty d || String.eqb d "/" || String.eqb d (process_cwd host)
  end.

(** [await fs.promises.rm(dir, { recursive: true, force: true,
    maxRetries: 5, retryDelay: 200 })] *)
Definition rm (dir : string) : M unit :=
  record_call (CallRm dir) ;;
  fun w =>
    match fs_rm host dir (files w) with
    | (None, fs) => (Ret tt, set_files fs w)
    | (Some err, fs) => (Throw err, set_files fs w)
    end.

(** The body of the loop of [deleteDirs]: [continue] under the guard, and
    otherwise the removal, with a warning when it fails. *)
Definition deleteDir (dir : option string) : M unit :=
  if skipped dir then ret tt
  else
    let d := default "" dir in
    try_catch (rm d)
      (fun err => warn ("Failed to delete " +:+ d +:+ ": " +:+ message err)).

Fixpoint deleteDirs (dirs : list (option string)) : M unit :=
  match dirs with
  | [] => ret tt
  | dir :: rest => deleteDir dir ;; deleteDirs rest
  end.

(** *** Platform *)

(** The downloader of the platform, [None] for [null]. *)
Definition DOWNLOADER_EXE_for (platform : string) : option string :=
  if String.eqb platform "win32" then Some "hytale-downloader-windows-amd64.exe"
  else if String.eqb platform "linux" then Some "hytale-downloader-linux-amd64"
  else None.

Definition platform : string := os_platform host.

(** [let DOWNLOADER_EXE = ...; if (!DOWNLOADER_EXE) throw new Error(...)]:
    the two names are not empty, so only [null] is falsy. *)
Definition DOWNLOADER_EXE : M string :=
  match DOWNLOADER_EXE_for platform with
  | Some exe => ret exe
  | None => throw (Error ("Unsupported OS: " +:+ platform))
  end.

(** The reset of the log file, the first statement that acts. *)
Definition reset_log : M unit :=
  try_catch (writeFileSync LOG_FILE "")
            (fun err => console_error "Failed to reset log file:" (Some err)).

(** *** Config system *)

Definition DEFAULT_CONFIG : JSObject :=
  <["startServer" := JBool true]>
  (<["cleanUp" := JBool true]>
  (<["downloaderArgs" := JStr ""]>
  (<["javaArgs" := JStr "-Xms2G -Xmx4G -XX:AOTCache=HytaleServer.aot"]>
  (<["hytaleArgs" := JStr "--assets Assets.zip --bind 5520"]> ∅)))).

Definition JSON_parse_M (raw : string) : M JSValue :=
  match JSON_parse host raw with
  | inl err => throw err
  | inr v => ret v
  end.

Definition loadConfig : M JSObject :=
  try_catch
    (present <- existsSync CONFIG_FILE ;;
     if negb present then
       writeFileSync CONFIG_FILE (JSON_stringify host DEFAULT_CONFIG) ;;
       log "Created default installer-config.json" ;;
       ret DEFAULT_CONFIG
     else
       raw <- readFileSync CONFIG_FILE ;;
       parsed <- JSON_parse_M raw ;;
       ret (spread DEFAULT_CONFIG parsed))
    (fun err =>
       error ("Failed to load config.json: " +:+ message err) ;;
       ret DEFAULT_CONFIG).

(** The statements of the module down to [const config = loadConfig()], in
    their order: the log file is reset, the platform is resolved, the
    configuration is loaded. *)
Definition startup : M (string * JSObject) :=
  reset_log ;;
  exe <- DOWNLOADER_EXE ;;
  config <- loadConfig ;;
  ret (exe, config).

(** *** Helpers *)

Definition execAsync (cmd : string) : M string :=
  record_call (CallExec cmd) ;;
  let r := child_process_exec host cmd in
  match exec_err r with
  | Some err =>
      if JS.is_empty (stderr r) then throw err
      else ret (JS.trim (stdout r +:+ stderr r))
  | None => ret (JS.trim (stdout r +:+ stderr r))
  end.

Definition checkJava : M unit :=
  out <- try_catch (execAsync "java -version")
           (fun _ => throw (Error "Java not installed or not accessible")) ;;
  match version_match out with
  | None => throw (Error "Cannot parse Java version")
  | Some digits =>
      let version := JS.Number digits in
      if (version <? 25)%N
      then throw (Error ("Java " +:+ JS.show_N version +:+
                         " was detected but 25+ is required"))
      else log ("Java " +:+ JS.show_N version +:+ " - OK")
  end.

(** [err.stack]: the name and the message of the error, then the frames. *)
Definition stack (err : Exn) : string :=
  exn_name err +:+ ": " +:+ message err +:+ stack_frames host err.

(** [fs.createWriteStream(dest)] opens the file once the current turn is
    over, so after [https.get] was called and before any of its events.
    Opening empties the file; when it cannot be opened the stream emits an
    error nobody listens to, and the handler of uncaught exceptions logs its
    stack and leaves with status 1. *)
Definition open_write_stream (dest : string) : M unit :=
  try_catch (writeFileSync dest "")
    (fun err =>
       error ("UNCAUGHT EXCEPTION: " +:+ stack err) ;;
       exit 1).

(** [res.pipe(file)]: what arrives of the body is written to the file. *)
Definition pipe (dest body : string) : M unit :=
  fun w => (Ret tt, set_files (<[dest := body]> (files w)) w).

(** The handlers of [downloadFile] run over the events in their order, until
    one settles the promise; [piped] is the body piped to the file once a
    response with status 200 came, as far as it arrived.  The stream
    finishes when the body was written to its end. *)
Fixpoint download_events (dest : string) (piped : option string)
    (events : list HttpsEvent) : M unit :=
  match events with
  | [] => hang
  | RequestError err :: _ => throw err
  | Response statusCode body :: rest =>
      if negb (statusCode =? 200)
      then throw (Error ("Download failed: " +:+ JS.show_Z statusCode))
      else pipe dest body ;; download_events dest (Some body) rest
  | Finish :: rest =>
      match piped with
      | Some _ => ret tt
      | None => download_events dest piped rest
      end
  end.

Definition downloadFile (url dest : string) : M unit :=
  record_call (CallHttpsGet url) ;;
  open_write_stream dest ;;
  download_events dest None (https_get host url).

(** [`${code}`] for an exit code, which is [null] after a signal. *)
Definition show_code (code : option Z) : string :=
  match code with Some c => JS.show_Z c | None => "null" end.

(** The listeners of [runDownloader] on the first event of the child. *)
Definition downloader_settles (events : list ChildEvent) : M unit :=
  match events with
  | [] => hang
  | ChildError err :: _ => throw err
  | ChildExit code signal :: _ =>
      if negb (JS.is_empty (default "" signal))
      then throw (Error ("Downloader terminated by signal " +:+ default "" signal))
      else if negb (bool_decide (code = Some 0))
      then throw (Error ("Downloader exited with code " +:+ show_code code))
      else ret tt
  end.

Definition runDownloader (config : JSObject) (exe : string) : M unit :=
  let exePath := path_resolve host EXTRACT_DIR exe in
  match split_of "config.downloaderArgs" (get config "downloaderArgs") with
  | inl err => throw err
  | inr args =>
      let downloaderArgs := args in
      record_call (CallSpawn exePath downloaderArgs RUNTIME_DIR) ;;
      downloader_settles
        (child_process_spawn host exePath downloaderArgs RUNTIME_DIR)
  end.

(** The name and modification time of an archive. *)
Record Zip : Type := mkZip { name : string; time : Z }.

Definition readdirSync (dir : string) : M (list string) :=
  fun w =>
    match fs_readdirSync host dir (files w) with
    | inl err => (Throw err, w)
    | inr names => (Ret names, w)
    end.

Definition statSync_mtimeMs (p : string) : M Z :=
  fun w =>
    match fs_statSync_mtimeMs host p (files w) with
    | inl err => (Throw err, w)
    | inr t => (Ret t, w)
    end.

(** [names.map(f => ({ name: f, time: fs.statSync(...).mtimeMs }))] *)
Fixpoint stat_all (dir : string) (names : list string) : M (list Zip) :=
  match names with
  | [] => ret []
  | f :: rest =>
      t <- statSync_mtimeMs (path_join host dir f) ;;
      zips <- stat_all dir rest ;;
      ret (mkZip f t :: zips)
  end.

Definition is_zip (f : string) : bool := JS.endsWith f ".zip".

(** The comparator of the sort, [(a, b) => b.time - a.time]. *)
Definition newest_first (a b : Zip) : Z := time b - time a.

Definition findNewestZip (dir : string) : M string :=
  log "Searching for newest ZIP..." ;;
  names <- readdirSync dir ;;
  stats <- stat_all dir (filter (fun f => is_zip f = true) names) ;;
  let zips := sort newest_first stats in
  match zips with
  | [] => throw (Error "No downloaded ZIP found")
  | first :: _ =>
      let newest := path_join host dir (name first) in
      log ("Newest ZIP: " +:+ newest) ;;
      ret newest
  end.

(** *** Final server start *)

Definition startServer (config : JSObject) : M unit :=
  (if negb (truthy (get config "startServer"))
   then log "Server start skipped. Exiting..." ;; exit 0
   else ret tt) ;;
  match split_of "config.javaArgs" (get config "javaArgs") with
  | inl err => throw err
  | inr args =>
      match split_of "config.hytaleArgs" (get config "hytaleArgs") with
      | inl err => throw err
      | inr hytaleArgs =>
          let finalArgs := (args ++ ["-jar"; "HytaleServer.jar"] ++ hytaleArgs)%list in
          log "Starting server with:" ;;
          log ("java " +:+ JS.join_space finalArgs) ;;
          record_call (CallSpawn "java" finalArgs RUNTIME_DIR)
      end
  end.

(** The listeners [startServer] leaves on the server process. *)
Definition server_event (ev : ChildEvent) : M unit :=
  match ev with
  | ChildExit code _ => log ("Server exited with code " +:+ show_code code)
  | ChildError err => error ("Failed to start server: " +:+ message err)
  end.

End Installer.

(** ** A host to run the script on

    A Linux machine with POSIX paths, files that carry no modification time
    of their own (they are listed in a table), and a parser for the JSON the
    configuration file is written in: one flat object of strings, booleans
    and [null], without escapes. *)

Module Demo.

Definition join (dir f : string) : string :=
  if JS.endsWith dir "/" then dir +:+ f else dir +:+ "/" +:+ f.

(** The position after which the last component of a path starts. *)
Fixpoint last_slash (s : string) (i : nat) (found : option nat) : option nat :=
  match s with
  | EmptyString => found
  | String c rest =>
      last_slash rest (S i) (if Ascii.eqb c "/"%char then Some i else found)
  end.

Definition dirname (p : string) : string :=
  match last_slash p 0 None with
  | None => "."
  | Some O => "/"
  | Some n => String.substring 0 n p
  end.

(** [p] is [dir] or lies below it. *)
Definition under (dir p : string) : bool :=
  String.eqb p dir || String.prefix (dir +:+ "/") p.

Definition rm_rf (dir : string) (fs : gmap string string)
  : option Exn * gmap string string :=
  (None, filter (fun kv => under dir kv.1 = false) fs).

(** The name of [p] in [dir] when [p] is an entry of [dir]. *)
Definition entry_of (dir p : string) : option string :=
  let d := dir +:+ "/" in
  if String.prefix d p then
    let f := String.substring (String.length d) (String.length p) p in
    if String.eqb (dirname p) dir then Some f else None
  else None.

Definition readdir (dir : string) (fs : gmap string string) : Exn + list string :=
  inr (omap (fun kv => entry_of dir kv.1) (map_to_list fs)).

Fixpoint assoc {A : Type} (k : string) (table : list (string * A)) : option A :=
  match table with
  | [] => None
  | (k', v) :: rest => if String.eqb k k' then Some v else assoc k rest
  end.

Definition mtime (table : list (string * Z)) (p : string) (fs : gmap string string)
  : Exn + Z :=
  match assoc p table with
  | Some t => inr t
  | None => inl (fs_error "ENOENT: no such file or directory" "stat" p)
  end.

(** *** JSON *)

Definition syntax_error : Exn := mkExn "SyntaxError" "Unexpected token in JSON".

(** The characters up to the closing quote, and what follows it. *)
Fixpoint string_body (s : string) : option (string * string) :=
  match s with
  | EmptyString => None
  | String c rest =>
      if Ascii.eqb c JS.dquote then Some (EmptyString, rest)
      else if Ascii.eqb c "\"%char then None
      else match string_body rest with
           | Some (body, rest') => Some (String c body, rest')
           | None => None
           end
  end.

Definition literal (word : string) (v : JSValue) (s : string)
  : option (JSValue * string) :=
  if String.prefix word s
  then Some (v, String.substring (String.length word) (String.length s) s)
  else None.

Definition scalar (s : string) : option (JSValue * string) :=
  match s with
  | String c rest =>
      if Ascii.eqb c JS.dquote then
        match string_body rest with
        | Some (body, rest') => Some (JStr body, rest')
        | None => None
        end
      else if Ascii.eqb c "t"%char then literal "true" (JBool true) s
      else if Ascii.eqb c "f"%char then literal "false" (JBool false) s
      else if Ascii.eqb c "n"%char then literal "null" JNull s
      else None
  | EmptyString => None
  end.

(** The members of an object after its brace or after a comma. *)
Fixpoint members (fuel : nat) (s : string) : option (list (string * JSValue)) :=
  match fuel with
  | O => None
  | S fuel' =>
      match JS.trimStart s with
      | String q s1 =>
          if Ascii.eqb q JS.dquote then
            match string_body s1 with
            | Some (key, s2) =>
                match JS.trimStart s2 with
                | String colon s3 =>
                    if Ascii.eqb colon ":"%char then
                      match scalar (JS.trimStart s3) with
                      | Some (v, s4) =>
                          match JS.trimStart s4 with
                          | String sep s5 =>
                              if Ascii.eqb sep ","%char then
                                match members fuel' s5 with
                                | Some more => Some ((key, v) :: more)
                                | None => None
                                end
                              else if Ascii.eqb sep "}"%char then
                                if JS.all_space s5 then Some [(key, v)] else None
                              else None
                          | EmptyString => None
                          end
                      | None => None
                      end
                    else None
                | EmptyString => None
                end
            | None => None
            end
          else None
      | EmptyString => None
      end
  end.

Definition parse (raw : string) : Exn + JSValue :=
  match JS.trimStart raw with
  | String c rest =>
      if Ascii.eqb c "{"%char then
        match JS.trimStart rest with
        | String c' rest' =>
            if Ascii.eqb c' "}"%char && JS.all_space rest' then inr (JObj [])
            else match members (String.length raw) rest with
                 | Some props => inr (JObj props)
                 | None => inl syntax_error
                 end
        | EmptyString => inl syntax_error
        end
      else match scalar (String c rest) with
           | Some (v, rest') =>
               if JS.all_space rest' then inr v else inl syntax_error
           | None => inl syntax_error
           end
  | EmptyString => inl syntax_error
  end.

Definition quoted (s : string) : string := JS.dq +:+ s +:+ JS.dq.

Definition show_value (v : JSValue) : string :=
  match v with
  | JBool true => "true"
  | JBool false => "false"
  | JStr s => quoted s
  | _ => "null"
  end.

Definition member (o : JSObject) (k : string) : string :=
  "  " +:+ quoted k +:+ ": " +:+ show_value (get o k).

(** The text of an object with the five keys of the configuration. *)
Definition stringify (o : JSObject) : string :=
  "{" +:+ JS.LF +:+
  member o "startServer" +:+ "," +:+ JS.LF +:+
  member o "cleanUp" +:+ "," +:+ JS.LF +:+
  member o "downloaderArgs" +:+ "," +:+ JS.LF +:+
  member o "javaArgs" +:+ "," +:+ JS.LF +:+
  member o "hytaleArgs" +:+ JS.LF +:+ "}".

(** The host: its platform, what [java -version] answers, the table of
    modification times, and the events of the request and of the child. *)
Definition host (os : string) (java : ExecResult) (mtimes : list (string * Z))
    (request : list HttpsEvent) (child : list ChildEvent) : Host :=
  {| process_pkg := false;
     process_execPath := "/usr/bin/node";
     process_cwd := "/srv/hytale";
     os_platform := os;
     path_dirname := dirname;
     path_join := join;
     path_resolve := join;
     Date_toISOString := fun _ => "2026-01-13T09:00:00.000Z";
     JSON_stringify := stringify;
     JSON_parse := parse;
     child_process_exec := fun _ => java;
     child_process_spawn := fun _ _ _ => child;
     https_get := fun _ => request;
     fs_readdirSync := readdir;
     fs_statSync_mtimeMs := mtime mtimes;
     fs_rm := rm_rf;
     stack_frames := fun _ => JS.LF +:+ "    at /snapshot/hytale-server-installer.cjs" |}.

(** [java -version] of a current OpenJDK: the banner goes to the standard
    error stream. *)
Definition openjdk (version : string) : ExecResult :=
  mkExec None ""
    ("openjdk version " +:+ quoted version +:+ " 2025-09-16" +:+ JS.LF +:+
     "OpenJDK Runtime Environment (build " +:+ version +:+ "+36)" +:+ JS.LF).

(** The shell that does not find [java]. *)
Definition no_java : ExecResult :=
  mkExec (Some (Error "Command failed: java -version")) ""
         ("/bin/sh: 1: java: not found" +:+ JS.LF).

Definition linux : Host :=
  host "linux" (openjdk "25.0.1") []
       [Response 200 "PK"; Finish] [ChildExit (Some 0) None].

Definition world (fs : gmap string string) : World := mkWorld fs ∅ [] 0 [].

End Demo.

(** ** What a log entry leaves behind *)

(** The line [writeLog] appends. *)
Definition log_line (host : Host) (level msg : string) (w : World) : string :=
  "[" +:+ Date_toISOString host (clock_reads w) +:+ "] [" +:+ level +:+ "] "
      +:+ msg +:+ JS.LF.

(** The console after [writeLog]: the message, on the error stream for the
    level ERROR, after the complaint about the log file when it could not
    be appended to. *)
Definition logged_console (host : Host) (level msg : string) (w : World)
  : list ConsoleLine :=
  (console w ++
   (if bool_decide (LOG_FILE host ∈ denied w)
    then [mkLine Stderr "Failed to write log:"
            (Some (fs_error "EACCES: permission denied" "open" (LOG_FILE host)))]
    else []) ++
   [mkLine (if String.eqb level "ERROR" then Stderr else Stdout) msg None])%list.

(** The world after [writeLog level msg]. *)
Definition logged (host : Host) (level msg : string) (w : World) : World :=
  mkWorld
    (if bool_decide (LOG_FILE host ∈ denied w) then files w
     else <[LOG_FILE host :=
              default "" (files w !! LOG_FILE host) +:+ log_line host level msg w]>
            (files w))
    (denied w)
    (logged_console host level msg w)
    (S (clock_reads w))
    (calls w).

(** The paths [deleteDirs] goes on to remove. *)
Definition removable (host : Host) (dirs : list (option string))
  : list (option string) :=
  filter (fun dir => skipped host dir = false) dirs.

(** ** What the pattern of [checkJava] matches *)

Fixpoint lowercase (s : string) : string :=
  match s with
  | EmptyString => EmptyString
  | String c rest => String (lower c) (lowercase rest)
  end.

Fixpoint all_digits (s : string) : bool :=
  match s with
  | EmptyString => true
  | String c rest => JS.is_digit c && all_digits rest
  end.

Definition starts_with_digit (s : string) : bool :=
  match s with
  | String c _ => JS.is_digit c
  | EmptyString => false
  end.

(** [s] starts with a version banner whose major version is [digits]: the
    word [version] in any case, white space, a double quote, and [digits],
    all the digits there are. *)
Definition banner (s digits : string) : Prop :=
  exists word spaces rest,
    s = word +:+ spaces +:+ JS.dq +:+ digits +:+ rest /\
    lowercase word = "version" /\
    spaces <> "" /\ JS.all_space spaces = true /\
    digits <> "" /\ all_digits digits = true /\
    starts_with_digit rest = false.

(** The first banner in [out] has the major version [digits]. *)
Definition first_banner (out digits : string) : Prop :=
  exists before s,
    out = before +:+ s /\ banner s digits /\
    forall b1 b2, before = b1 +:+ b2 -> b2 <> "" ->
                  forall ds, ~ banner (b2 +:+ s) ds.

(** [exec] failed and wrote nothing to the standard error stream: the one
    case in which [execAsync] rejects. *)
Definition exec_rejected (r : ExecResult) : Prop :=
  is_Some (exec_err r) /\ stderr r = "".


(** ** What a configuration file says about a key *)

(** The value the properties [props] give to [k]: that of the last
    binding of [k]. *)
Fixpoint binding (k : string) (props : list (string * JSValue)) : option JSValue :=
  match props with
  | [] => None
  | (k', v) :: rest =>
      match binding k rest with
      | Some v' => Some v'
      | None => if String.eqb k k' then Some v else None
      end
  end.

(** The fields of the configuration. *)
Definition config_keys : list string :=
  ["startServer"; "cleanUp"; "downloaderArgs"; "javaArgs"; "hytaleArgs"].

(** The configuration file holds [raw] and can be read. *)
Definition config_file_holds (host : Host) (w : World) (raw : string) : Prop :=
  files w !! CONFIG_FILE host = Some raw /\ CONFIG_FILE host ∉ denied w.


(** ** What the child of [runDownloader] did *)

(** [signal] is no signal: [null], or a string that is falsy. *)
Definition no_signal (signal : option string) : Prop :=
  signal = None \/ signal = Some "".

(** The first event of the child is its exit with status 0 and no signal. *)
Definition exited_cleanly (events : list ChildEvent) : Prop :=
  exists signal rest, events = ChildExit (Some 0) signal :: rest /\ no_signal signal.


(** ** What the start of the script leaves behind *)

(** The platform check raised with the world as it found it: nothing was
    written, printed or called before it. *)
Definition raises_untouched (host : Host) (w : World) : Prop :=
  exists err, startup host w = (Throw err, w).

(** The world after the reset of the log file: the file is empty, or, when
    it cannot be written, the console says so. *)
Definition log_reset (host : Host) (w : World) : World :=
  if bool_decide (LOG_FILE host ∈ denied w)
  then with_line
         (mkLine Stderr "Failed to reset log file:"
            (Some (fs_error "EACCES: permission denied" "open" (LOG_FILE host)))) w
  else set_files (<[LOG_FILE host := ""]> (files w)) w.

(** A Mac with a log file from an earlier run. *)
Definition mac : Host := Demo.host "darwin" Demo.no_java [] [] [].
Definition after_a_run : World :=
  Demo.world {[ "/srv/hytale/installer.log" := "[2026-01-12T08:00:00.000Z] [INFO] Done." ]}.


(** ** The order the archives are sorted in *)

(** [a] is at least as new as [b]. *)
Definition not_older (a b : Zip) : Prop := time b <= time a.


(** ** What a download leaves behind *)

(** The world in which the events of the request arrive: the request was
    made and the destination was opened, which emptied it. *)
Definition requested (url dest : string) (w : World) : World :=
  set_files (<[dest := ""]> (files w)) (with_call (CallHttpsGet url) w).

Definition is_request (url : string) (c : Call) : bool :=
  match c with
  | CallHttpsGet u => String.eqb u url
  | _ => false
  end.

(** The number of requests for [url] among the calls. *)
Definition requests (url : string) (cs : list Call) : nat :=
  length (filter (fun c => is_request url c = true) cs).


(** ** Worlds to run the script in *)

(** A configuration file that only switches the start of the server off. *)
Definition start_off_json : string :=
  "{" +:+ Demo.quoted "startServer" +:+ ": false}".
Definition start_off : JSValue := JObj [("startServer", JBool false)].
Definition configured : World :=
  Demo.world {[ "/srv/hytale/installer-config.json" := start_off_json ]}.

(** A configuration file cut short. *)
Definition broken : World :=
  Demo.world {[ "/srv/hytale/installer-config.json" := "{" +:+ Demo.quoted "startServer" ]}.

(** Three archives and other files in the installation directory, and when
    each was modified. *)
Definition downloads : World :=
  Demo.world {[ "/srv/hytale/2026.01.10-a.zip" := "PK";
                "/srv/hytale/2026.01.13-c.zip" := "PK";
                "/srv/hytale/2026.01.12-b.zip" := "PK";
                "/srv/hytale/installer.log" := "";
                "/srv/hytale/notes.zip.txt" := "";
                "/srv/hytale/hytale-downloader/old.zip" := "PK" ]}.

Definition modified : list (string * Z) :=
  [("/srv/hytale/2026.01.10-a.zip", 1768003200000);
   ("/srv/hytale/2026.01.13-c.zip", 1768262400000);
   ("/srv/hytale/2026.01.12-b.zip", 1768176000000)].

Definition with_downloads : Host :=
  Demo.host "linux" (Demo.openjdk "25.0.1") modified [] [ChildExit (Some 0) None].

Definition modified_at (f : string) : Z :=
  default 0 (Demo.assoc (Demo.join "/srv/hytale" f) modified).

(** The listing of the installation directory once the search is logged. *)
Definition listing : list string :=
  Eval vm_compute in
    match Demo.readdir "/srv/hytale"
            (files (logged with_downloads "INFO" "Searching for newest ZIP..." downloads))
    with
    | inr names => names
    | inl _ => []
    end.

(** Hosts whose Java is too old, whose server answers 404, and whose
    downloader is killed. *)
Definition java17 : Host :=
  Demo.host "linux" (Demo.openjdk "17.0.2") [] [] [].
Definition java30 : Host :=
  Demo.host "linux" (Demo.openjdk "30.0.1") [] [] [].
Definition without_java : Host :=
  Demo.host "linux" Demo.no_java [] [] [].
Definition not_found : Host :=
  Demo.host "linux" (Demo.openjdk "25.0.1") [] [Response 404 "Not Found"; Finish] [].
Definition killed : Host :=
  Demo.host "linux" (Demo.openjdk "25.0.1") [] [] [ChildExit None (Some "SIGKILL")].

(** The installation directory with the downloader unpacked in it. *)
Definition installed : World :=
  Demo.world {[ "/srv/hytale/HytaleServer.jar" := "PK";
                "/srv/hytale/hytale-downloader/hytale-downloader-linux-amd64" := "ELF";
                "/srv/hytale/Server/readme.txt" := "" ]}.


(** ** JSON values that are no object *)

(** [null], a boolean, a number, a string or an array. *)
Definition not_an_object (v : JSValue) : Prop :=
  match v with
  | JObj _ => False
  | _ => True
  end.

(** A value with no property of its own to copy. *)
Definition primitive (v : JSValue) : Prop :=
  match v with
  | JUndefined | JNull | JBool _ | JNum _ => True
  | _ => False
  end.


(** ** Strings among the values *)

(** [v] is a string. *)
Definition is_string (v : JSValue) : Prop := exists s, v = JStr s.

(** The number of spaces in a string. *)
Fixpoint spaces (s : string) : nat :=
  match s with
  | EmptyString => O
  | String c rest => if Ascii.eqb c " "%char then S (spaces rest) else spaces rest
  end.


(** ** White space at the ends of a string *)

Definition starts_with_space (s : string) : bool :=
  match s with
  | String c _ => JS.is_space c
  | EmptyString => false
  end.

Fixpoint ends_with_space (s : string) : bool :=
  match s with
  | EmptyString => false
  | String c EmptyString => JS.is_space c
  | String _ rest => ends_with_space rest
  end.


(** ** Events that settle nothing *)

(** A [finish] with nothing piped. *)
Definition is_finish (ev : HttpsEvent) : Prop := ev = Finish.

(** A response with status 200. *)
Definition is_ok_response (ev : HttpsEvent) : Prop :=
  exists body, ev = Response 200 body.

(** ** Deleting files *)

(** [await fs.promises.unlink(p)]: the file is removed; it is an error when
    there is none or when it cannot be removed. *)
Definition unlink (p : string) : M unit :=
  fun w =>
    if bool_decide (p ∈ denied w)
    then (Throw (fs_error "EACCES: permission denied" "unlink" p), w)
    else match files w !! p with
         | Some _ => (Ret tt, set_files (delete p (files w)) w)
         | None => (Throw (fs_error "ENOENT: no such file or directory" "unlink" p), w)
         end.

(** [deleteFiles]: each file is unlinked, and a failure is passed over. *)
Fixpoint deleteFiles (paths : list string) : M unit :=
  match paths with
  | [] => ret tt
  | file :: rest => try_catch (unlink file) (fun _ => ret tt) ;; deleteFiles rest
  end.


(** ** Archives, directories and the main sequence

    The files by path do not tell which directories exist or what an
    archive holds: whether a directory can be made, what a directory lists
    and how the bytes of an archive read as entries is for the record [Disk]
    to say, as the rest of the machine is for [Host]. *)

(** An entry of [directory.files]: its path in the archive, its type, and
    what its stream yields: the contents, or an error and what had been
    written by then. *)
Record Entry : Type := mkEntry {
  entry_path : string;
  entry_type : string;
  entry_stream : (Exn * string) + string
}.

Record Disk : Type := mkDisk {
  (** [fs.promises.mkdir(p, { recursive: true })]: the error when it rejects *)
  fs_mkdir : string -> gmap string string -> option Exn;
  (** the central directory [unzipper.Open.file] reads from the bytes of an
      archive *)
  unzipper_directory : string -> Exn + list Entry;
  (** [fs.promises.readdir(dir, { withFileTypes: true })]: the names, each
      with its [isDirectory()] *)
  fs_readdir_withFileTypes : string -> gmap string string -> Exn + list (string * bool)
}.

Section Orchestration.

Context (host : Host) (disk : Disk).

Definition mkdir (p : string) : M unit :=
  fun w =>
    match fs_mkdir disk p (files w) with
    | Some err => (Throw err, w)
    | None => (Ret tt, w)
    end.

(** [await unzipper.Open.file(zipPath)] *)
Definition Open_file (zipPath : string) : M (list Entry) :=
  bytes <- readFileSync zipPath ;;
  match unzipper_directory disk bytes with
  | inl err => throw err
  | inr entries => ret entries
  end.

(** [await pipelineAsync(file.stream(), fs.createWriteStream(fullPath))]:
    the file holds what the stream yielded; an error of either stream
    rejects. *)
Definition pipeline_to_file (stream : (Exn * string) + string) (fullPath : string)
  : M unit :=
  fun w =>
    if bool_decide (fullPath ∈ denied w)
    then (Throw (fs_error "EACCES: permission denied" "open" fullPath), w)
    else match stream with
         | inr data => (Ret tt, set_files (<[fullPath := data]> (files w)) w)
         | inl (err, written) =>
             (Throw err, set_files (<[fullPath := written]> (files w)) w)
         end.

(** The body of the loop of [unzipAll]. *)
Definition unzipEntry (targetDir : string) (file : Entry) : M unit :=
  let fullPath := path_join host targetDir (entry_path file) in
  if String.eqb (entry_type file) "Directory"
  then mkdir fullPath
  else mkdir (path_dirname host fullPath) ;;
       pipeline_to_file (entry_stream file) fullPath.

Fixpoint unzipEntries (targetDir : string) (entries : list Entry) : M unit :=
  match entries with
  | [] => ret tt
  | file :: rest => unzipEntry targetDir file ;; unzipEntries targetDir rest
  end.

Definition unzipAll (zipPath targetDir : string) : M unit :=
  mkdir targetDir ;;
  directory <- Open_file zipPath ;;
  unzipEntries targetDir directory.

(** [await fs.promises.copyFile(src, dest)]: the destination holds what
    the source holds; it is an error when the source cannot be read or is
    not there, or when the destination cannot be written. *)
Definition copyfile_error (code src dest : string) : Exn :=
  Error (code +:+ ", copyfile '" +:+ src +:+ "' -> '" +:+ dest +:+ "'").

Definition copyFile (src dest : string) : M unit :=
  fun w =>
    if bool_decide (src ∈ denied w)
    then (Throw (copyfile_error "EACCES: permission denied" src dest), w)
    else match files w !! src with
         | None =>
             (Throw (copyfile_error "ENOENT: no such file or directory" src dest), w)
         | Some data =>
             if bool_decide (dest ∈ denied w)
             then (Throw (copyfile_error "EACCES: permission denied" src dest), w)
             else (Ret tt, set_files (<[dest := data]> (files w)) w)
         end.

Definition readdir_withFileTypes (dir : string) : M (list (string * bool)) :=
  fun w =>
    match fs_readdir_withFileTypes disk dir (files w) with
    | inl err => (Throw err, w)
    | inr items => (Ret items, w)
    end.

(** [moveAll].  [depth] bounds how deep the directories nest: the function
    recurses into a directory with one less, and never returns when it runs
    out.  [rmdir] removes an empty directory, so no regular file, and its
    failure is passed over. *)
Fixpoint moveAll (depth : nat) (srcDir destDir : string) : M unit :=
  match depth with
  | O => hang
  | S depth' =>
      items <- readdir_withFileTypes srcDir ;;
      (fix each (items : list (string * bool)) : M unit :=
         match items with
         | [] => ret tt
         | item :: rest =>
             let srcPath := path_join host srcDir item.1 in
             let destPath := path_join host destDir item.1 in
             (if item.2 then
                mkdir destPath ;;
                moveAll depth' srcPath destPath
              else
                copyFile srcPath destPath ;;
                try_catch (unlink srcPath) (fun _ => ret tt)) ;;
             each rest
         end) items
  end.

(** [await fs.promises.chmod(p, 0o755)]: the mode is not part of the world;
    the file has to be there. *)
Definition chmod (p : string) : M unit :=
  fun w =>
    if bool_decide (p ∈ denied w)
    then (Throw (fs_error "EPERM: operation not permitted" "chmod" p), w)
    else match files w !! p with
         | Some _ => (Ret tt, w)
         | None => (Throw (fs_error "ENOENT: no such file or directory" "chmod" p), w)
         end.

(** The steps of the main function inside its [try].  The relative path
    [QUICKSTART.md] names the file in the working directory.  The listener
    the function registers at its end for the exit of the process does
    nothing before that. *)
Definition steps (depth : nat) (config : JSObject) (exe : string) : M unit :=
  log host "=== HYTALE SERVER INSTALLER | by SkyKing_PX | Version 1.0.0 ===" ;;
  checkJava host ;;
  log host "Downloading Hytale downloader..." ;;
  downloadFile host DOWNLOAD_URL (DOWNLOADER_ZIP host) ;;
  log host "Extracting Hytale downloader..." ;;
  unzipAll (DOWNLOADER_ZIP host) (EXTRACT_DIR host) ;;
  (if String.eqb (platform host) "linux" then
     chmod (path_join host (EXTRACT_DIR host) exe) ;;
     log host "Set Linux executable permissions"
   else ret tt) ;;
  log host "Running Hytale downloader..." ;;
  runDownloader host config exe ;;
  log host "Detecting downloaded version..." ;;
  downloadedZip <- findNewestZip host (RUNTIME_DIR host) ;;
  log host "Extracting Hytale server assets..." ;;
  unzipAll downloadedZip (RUNTIME_DIR host) ;;
  log host "Preparing assets..." ;;
  moveAll depth (path_join host (RUNTIME_DIR host) "Server") (RUNTIME_DIR host) ;;
  (if truthy (get config "cleanUp") then
     log host "Cleaning up..." ;;
     deleteFiles [DOWNLOADER_ZIP host; downloadedZip;
                  path_resolve host (process_cwd host) "QUICKSTART.md"] ;;
     deleteDirs host [Some (EXTRACT_DIR host);
                      Some (path_join host (RUNTIME_DIR host) "Server")]
   else log host "Cleanup skipped") ;;
  log host "Done." ;;
  startServer host config.


(** The main function: a step that throws is fatal, logged with its stack,
    and ends the process with status 1. *)
Definition main (depth : nat) (config : JSObject) (exe : string) : M unit :=
  try_catch (steps depth config exe)
    (fun err =>
       error host ("FATAL ERROR: " +:+ stack host err) ;;
       exit 1).

End Orchestration.

(** ** The calls of a run *)

(** Whatever the world and however it ends, [m] adds the calls [plan] to
    those made so far. *)
Definition always_calls {A : Type} (plan : list Call) (m : M A) : Prop :=
  forall w, calls (snd (m w)) = (calls w ++ plan)%list.

(** [m] adds calls of [plan] in their order and no other: the first few of
    them however it ends, and all of them when it returns. *)
Definition follows_plan {A : Type} (plan : list Call) (m : M A) : Prop :=
  forall w, exists added,
    calls (snd (m w)) = (calls w ++ added)%list /\
    added `prefix_of` plan /\
    (forall x, fst (m w) = Ret x -> added = plan).

(** The removals of the paths [deleteDirs] does not skip. *)
Definition removals (host : Host) (dirs : list (option string)) : list Call :=
  map (fun dir => CallRm (default "" dir)) (removable host dirs).

(** The server, when it is to be started and its arguments can be split. *)
Definition server_calls (host : Host) (config : JSObject) : list Call :=
  if negb (truthy (get config "startServer")) then []
  else
    match split_of "config.javaArgs" (get config "javaArgs"),
          split_of "config.hytaleArgs" (get config "hytaleArgs") with
    | inr args, inr hytaleArgs =>
        [CallSpawn "java" (args ++ ["-jar"; "HytaleServer.jar"] ++ hytaleArgs)%list
           (RUNTIME_DIR host)]
    | _, _ => []
    end.

(** What a run of the installer calls, in this order: the Java check, the
    request for the downloader, and, when the arguments of the downloader
    can be split, the downloader, the removals of the clean up and the
    server. *)
Definition call_plan (host : Host) (config : JSObject) (exe : string) : list Call :=
  CallExec "java -version" ::
  CallHttpsGet DOWNLOAD_URL ::
  match split_of "config.downloaderArgs" (get config "downloaderArgs") with
  | inl _ => []
  | inr args =>
      (CallSpawn (path_resolve host (EXTRACT_DIR host) exe) args (RUNTIME_DIR host) ::
       (if truthy (get config "cleanUp")
        then removals host [Some (EXTRACT_DIR host);
                            Some (path_join host (RUNTIME_DIR host) "Server")]
        else []) ++
       server_calls host config)%list
  end.


(** ** What an archive puts at a path *)

(** The contents the entries give to the path [q] under [targetDir]: those
    of the last entry that is no directory, whose stream ends well and whose
    place is [q]. *)
Fixpoint extracted (host : Host) (targetDir : string) (entries : list Entry)
    (q : string) : option string :=
  match entries with
  | [] => None
  | file :: rest =>
      match extracted host targetDir rest q with
      | Some data => Some data
      | None =>
          if String.eqb (entry_type file) "Directory" then None
          else if String.eqb (path_join host targetDir (entry_path file)) q
          then match entry_stream file with
               | inr data => Some data
               | inl _ => None
               end
          else None
      end
  end.

(** An entry that can be extracted in [w]: a directory, or a file whose
    stream ends well and whose place can be written. *)
Definition extractable (host : Host) (targetDir : string) (w : World) (file : Entry)
  : Prop :=
  entry_type file = "Directory" \/
  ((exists data, entry_stream file = inr data) /\
   path_join host targetDir (entry_path file) ∉ denied w).


(** ** More machines and worlds to run the script on *)

(** A configuration file that holds [null]. *)
Definition nulled : World :=
  Demo.world {[ "/srv/hytale/installer-config.json" := "null" ]}.

(** The archive of the downloader left by an earlier run. *)
Definition stale : World :=
  Demo.world {[ "/srv/hytale/hytale-downloader.zip" := "PK-old" ]}.

(** A server that answers and never ends its answer, a machine without a
    shell, and one on which no directory can be removed. *)
Definition stalled : Host :=
  Demo.host "linux" (Demo.openjdk "25.0.1") [] [Finish; Response 200 "PK"] [].
Definition no_shell : Host :=
  Demo.host "linux" (mkExec (Some (Error "spawn /bin/sh ENOENT")) "" "") [] [] [].

Definition rm_busy (dir : string) (fs : gmap string string)
  : option Exn * gmap string string :=
  (Some (fs_error "EBUSY: resource busy or locked" "rm" dir), fs).

Definition busy : Host :=
  {| process_pkg := false;
     process_execPath := "/usr/bin/node";
     process_cwd := "/srv/hytale";
     os_platform := "linux";
     path_dirname := Demo.dirname;
     path_join := Demo.join;
     path_resolve := Demo.join;
     Date_toISOString := fun _ => "2026-01-13T09:00:00.000Z";
     JSON_stringify := Demo.stringify;
     JSON_parse := Demo.parse;
     child_process_exec := fun _ => Demo.openjdk "25.0.1";
     child_process_spawn := fun _ _ _ => [];
     https_get := fun _ => [];
     fs_readdirSync := Demo.readdir;
     fs_statSync_mtimeMs := Demo.mtime [];
     fs_rm := rm_busy;
     stack_frames := fun _ => "" |}.

(** Two of the three archives modified at the same time, after the third. *)
Definition tied : list (string * Z) :=
  [("/srv/hytale/2026.01.10-a.zip", 1768176000000);
   ("/srv/hytale/2026.01.13-c.zip", 1768003200000);
   ("/srv/hytale/2026.01.12-b.zip", 1768176000000)].

Definition with_ties : Host :=
  Demo.host "linux" (Demo.openjdk "25.0.1") tied [] [ChildExit (Some 0) None].

Definition tied_at (f : string) : Z :=
  default 0 (Demo.assoc (Demo.join "/srv/hytale" f) tied).

(** A disk on which every directory can be made, every archive holds
    [entries], and a directory lists the regular files in it. *)
Definition flat (entries : list Entry) : Disk :=
  {| fs_mkdir := fun _ _ => None;
     unzipper_directory := fun _ => inr entries;
     fs_readdir_withFileTypes := fun dir fs =>
       match Demo.readdir dir fs with
       | inl err => inl err
       | inr names => inr (map (fun n => (n, false)) names)
       end |}.

(** The archive of the downloader, and one with an entry that cannot be
    inflated. *)
Definition downloader_entries : list Entry :=
  [mkEntry "hytale-downloader-linux-amd64" "File" (inr "ELF");
   mkEntry "docs/" "Directory" (inr "");
   mkEntry "QUICKSTART.md" "File" (inr "# Quick start");
   mkEntry "hytale-downloader-windows-amd64.exe" "File" (inr "MZ")].

Definition damaged_entries : list Entry :=
  [mkEntry "hytale-downloader-linux-amd64" "File" (inr "ELF");
   mkEntry "QUICKSTART.md" "File" (inl (Error "invalid stored block lengths", "# Qu"));
   mkEntry "hytale-downloader-windows-amd64.exe" "File" (inr "MZ")].

Definition downloaded : World :=
  Demo.world {[ "/srv/hytale/hytale-downloader.zip" := "PK" ]}.






(** A server that answers and whose connection is lost while the body
    arrives, with no error of the request; and an installation directory
    in which the archive of the downloader cannot be written. *)
Definition cut_off : Host :=
  Demo.host "linux" (Demo.openjdk "25.0.1") [] [Response 200 "PK"] [].
Definition read_only : World :=
  mkWorld ∅ {[ "/srv/hytale/hytale-downloader.zip" ]} [] 0 [].


(** * Properties *)

Section Computations.

Context {A B : Type}.

Lemma bind_ret (m : M A) (k : A -> M B) (w w' : World) (a : A) :
  m w = (Ret a, w') -> bind m k w = k a w'.
Proof. intros H. unfold bind. by rewrite H. Qed.

Lemma bind_throw (m : M A) (k : A -> M B) (w w' : World) (e : Exn) :
  m w = (Throw e, w') -> bind m k w = (Throw e, w').
Proof. intros H. unfold bind. by rewrite H. Qed.

Lemma bind_exit (m : M A) (k : A -> M B) (w w' : World) (code : Z) :
  m w = (Exit code, w') -> bind m k w = (Exit code, w').
Proof. intros H. unfold bind. by rewrite H. Qed.

Lemma try_catch_ret (m : M A) (handler : Exn -> M A) (w w' : World) (a : A) :
  m w = (Ret a, w') -> try_catch m handler w = (Ret a, w').
Proof. intros H. unfold try_catch. by rewrite H. Qed.

Lemma try_catch_throw (m : M A) (handler : Exn -> M A) (w w' : World) (e : Exn) :
  m w = (Throw e, w') -> try_catch m handler w = handler e w'.
Proof. intros H. unfold try_catch. by rewrite H. Qed.

End Computations.

Section Files.

Lemma existsSync_present (p data : string) (w : World) :
  files w !! p = Some data -> existsSync p w = (Ret true, w).
Proof. intros H. unfold existsSync. by rewrite bool_decide_eq_true_2 by eauto. Qed.

Lemma existsSync_absent (p : string) (w : World) :
  files w !! p = None -> existsSync p w = (Ret false, w).
Proof.
  intros H. unfold existsSync. rewrite bool_decide_eq_false_2; [done|].
  rewrite H. by intros [? [=]].
Qed.

Lemma readFileSync_data (p data : string) (w : World) :
  files w !! p = Some data -> p ∉ denied w -> readFileSync p w = (Ret data, w).
Proof.
  intros H Hd. unfold readFileSync. rewrite bool_decide_eq_false_2 by done.
  by rewrite H.
Qed.

Lemma readFileSync_denied (p : string) (w : World) :
  p ∈ denied w ->
  readFileSync p w = (Throw (fs_error "EACCES: permission denied" "open" p), w).
Proof. intros Hd. unfold readFileSync. by rewrite bool_decide_eq_true_2. Qed.

Lemma writeFileSync_written (p data : string) (w : World) :
  p ∉ denied w ->
  writeFileSync p data w = (Ret tt, set_files (<[p := data]> (files w)) w).
Proof. intros Hd. unfold writeFileSync. by rewrite bool_decide_eq_false_2. Qed.

Lemma writeFileSync_denied (p data : string) (w : World) :
  p ∈ denied w ->
  writeFileSync p data w =
  (Throw (fs_error "EACCES: permission denied" "open" p), w).
Proof. intros Hd. unfold writeFileSync. by rewrite bool_decide_eq_true_2. Qed.

End Files.

Section Logging.

Context (host : Host).

Lemma writeLog_logged (level msg : string) (w : World) :
  writeLog host level msg w = (Ret tt, logged host level msg w).
Proof.
  unfold writeLog, logged, logged_console, log_line, bind, try_catch, now,
    appendFileSync, console_error, console_log, console_write, with_line,
    set_files.
  cbn [files denied console clock_reads calls].
  destruct (bool_decide (LOG_FILE host ∈ denied w));
    destruct (String.eqb level "ERROR"); cbn;
    rewrite <- ?app_assoc; reflexivity.
Qed.

Lemma logged_calls (level msg : string) (w : World) :
  calls (logged host level msg w) = calls w.
Proof. reflexivity. Qed.

Lemma logged_denied (level msg : string) (w : World) :
  denied (logged host level msg w) = denied w.
Proof. reflexivity. Qed.

(** A log entry touches no file but the log file. *)
Lemma logged_files_other (level msg p : string) (w : World) :
  p ≠ LOG_FILE host -> files (logged host level msg w) !! p = files w !! p.
Proof.
  intros Hp. unfold logged. cbn [files].
  case_bool_decide; [reflexivity|].
  by rewrite lookup_insert_ne.
Qed.

(** The message is the last line on the console. *)
Lemma logged_console_last (level msg : string) (w : World) :
  last (console (logged host level msg w)) =
  Some (mkLine (if String.eqb level "ERROR" then Stderr else Stdout) msg None).
Proof.
  unfold logged, logged_console. cbn [console].
  rewrite app_assoc. apply last_snoc.
Qed.

End Logging.

Section Cleanup.

Context (host : Host).

(** Under the guard the body of the loop returns at once, in the world it
    was entered in. *)
Lemma deleteDir_skipped (dir : option string) (w : World) :
  skipped host dir = true -> deleteDir host dir w = (Ret tt, w).
Proof. intros Hs. unfold deleteDir. by rewrite Hs. Qed.

(** Past the guard there is one removal, of the path itself; it ends
    normally also when the removal failed. *)
Lemma deleteDir_removes (dir : option string) (w : World) :
  skipped host dir = false ->
  exists w', deleteDir host dir w = (Ret tt, w') /\
             calls w' = (calls w ++ [CallRm (default "" dir)])%list.
Proof.
  intros Hs. unfold deleteDir. rewrite Hs.
  unfold try_catch, rm, bind, record_call, with_call, warn. cbn [files].
  destruct (fs_rm host (default "" dir) (files w)) as [[err|] fs].
  - rewrite writeLog_logged. eexists; split; [reflexivity|].
    by rewrite logged_calls.
  - eexists; split; reflexivity.
Qed.

Lemma deleteDirs_cons_skipped (dir : option string) (rest : list (option string))
    (w : World) :
  skipped host dir = true ->
  deleteDirs host (dir :: rest) w = deleteDirs host rest w.
Proof.
  intros Hs. cbn [deleteDirs]. unfold bind.
  by rewrite (deleteDir_skipped _ _ Hs).
Qed.

Lemma deleteDirs_removable (dirs : list (option string)) (w : World) :
  deleteDirs host dirs w = deleteDirs host (removable host dirs) w.
Proof.
  revert w. induction dirs as [|dir rest IH]; intros w; [reflexivity|].
  unfold removable. destruct (skipped host dir) eqn:Hs.
  - rewrite filter_cons_False by (rewrite Hs; discriminate).
    rewrite (deleteDirs_cons_skipped _ _ _ Hs). apply IH.
  - rewrite filter_cons_True by exact Hs.
    cbn [deleteDirs]. unfold bind.
    destruct (deleteDir_removes dir w Hs) as (w' & -> & _). apply IH.
Qed.

Lemma deleteDirs_calls (dirs : list (option string)) (w : World) :
  exists w', deleteDirs host dirs w = (Ret tt, w') /\
    calls w' =
    (calls w ++ map (fun dir => CallRm (default "" dir)) (removable host dirs))%list.
Proof.
  revert w. induction dirs as [|dir rest IH]; intros w.
  - exists w. split; [reflexivity|]. cbn. by rewrite app_nil_r.
  - unfold removable. destruct (skipped host dir) eqn:Hs.
    + rewrite filter_cons_False by (rewrite Hs; discriminate).
      rewrite (deleteDirs_cons_skipped _ _ _ Hs). apply IH.
    + rewrite filter_cons_True by exact Hs.
      cbn [deleteDirs]. unfold bind.
      destruct (deleteDir_removes dir w Hs) as (w1 & -> & Hc1).
      destruct (IH w1) as (w' & -> & Hc). exists w'. split; [reflexivity|].
      rewrite Hc, Hc1. cbn [map]. by rewrite <- app_assoc.
Qed.

(** C1.  [deleteDirs] skips every path that is empty or null, the root [/]
    or the current working directory.  For such a path the body of the loop
    is a no-op that leaves the whole world, so the directory and what is in
    it, as it was; the call with the path equals the call without it; the
    removals attempted are those of the other paths, in their order, so none
    is attempted for a skipped path; and a list of skipped paths only
    changes nothing at all. *)
Theorem deleteDirs_guard (dirs : list (option string)) (w : World) :
  (forall dir, skipped host dir = true -> deleteDir host dir w = (Ret tt, w)) /\
  deleteDirs host dirs w = deleteDirs host (removable host dirs) w /\
  (exists w', deleteDirs host dirs w = (Ret tt, w') /\
     exists attempted,
       calls w' = (calls w ++ map CallRm attempted)%list /\
       forall d, d ∈ attempted ->
         d ≠ "" /\ d ≠ "/" /\ d ≠ process_cwd host /\ Some d ∈ dirs) /\
  ((forall dir, dir ∈ dirs -> skipped host dir = true) ->
   deleteDirs host dirs w = (Ret tt, w)).
Proof.
  split; [intros dir; apply deleteDir_skipped|].
  split; [apply deleteDirs_removable|].
  split.
  - destruct (deleteDirs_calls dirs w) as (w' & Hrun & Hc).
    exists w'. split; [exact Hrun|].
    exists (map (default "") (removable host dirs)). split.
    + by rewrite Hc, map_map.
    + intros d Hd. apply list_elem_of_fmap in Hd as (dir & -> & Hin).
      apply list_elem_of_filter in Hin as [Hs Hin].
      destruct dir as [p|]; [|discriminate]. cbn in *.
      apply orb_false_elim in Hs as [Hs Hcwd].
      apply orb_false_elim in Hs as [Hempty Hroot].
      apply String.eqb_neq in Hcwd, Hroot.
      repeat split; try done. by destruct p.
  - intros Hall. rewrite deleteDirs_removable.
    replace (removable host dirs) with (@nil (option string)); [reflexivity|].
    symmetry. unfold removable. induction dirs as [|dir rest IH]; [reflexivity|].
    rewrite filter_cons_False.
    + apply IH. intros d Hd. apply Hall. by right.
    + rewrite (Hall dir) by left. discriminate.
Qed.

End Cleanup.

(** ** The Java check *)

Section Strings.

Lemma app_assoc_s (a b c : string) : (a +:+ b) +:+ c = a +:+ b +:+ c.
Proof. induction a as [|x a IH]; cbn; [reflexivity|]. by rewrite IH. Qed.

Lemma app_nil_r_s (a : string) : a +:+ "" = a.
Proof. induction a as [|x a IH]; cbn; [reflexivity|]. by rewrite IH. Qed.

Lemma after_word_split (word s r : string) :
  after_word word s = Some r <-> exists w, s = w +:+ r /\ lowercase w = word.
Proof.
  split.
  - revert s. induction word as [|p word IH]; intros s H.
    + cbn in H. destruct s; injection H as <-; by exists "".
    + destruct s as [|c s]; [discriminate|]. cbn in H.
      destruct (Ascii.eqb_spec (lower c) p) as [<-|]; [|discriminate].
      destruct (IH _ H) as (w & -> & <-). by exists (String c w).
  - intros (w & -> & <-). induction w as [|c w IH]; cbn.
    + by destruct r.
    + by rewrite Ascii.eqb_refl.
Qed.

Lemma trimStart_split (s : string) :
  exists spaces, s = spaces +:+ JS.trimStart s /\ JS.all_space spaces = true.
Proof.
  induction s as [|c s (sp & IH & Hsp)]; [by exists ""|]. cbn.
  destruct (JS.is_space c) eqn:Hc.
  - exists (String c sp). cbn. rewrite Hc, Hsp. split; [|reflexivity].
    by rewrite <- IH.
  - by exists "".
Qed.

Lemma trimStart_spaces (spaces : string) (c : ascii) (rest : string) :
  JS.all_space spaces = true -> JS.is_space c = false ->
  JS.trimStart (spaces +:+ String c rest) = String c rest.
Proof.
  intros Hsp Hc. induction spaces as [|x sp IH]; cbn.
  - by rewrite Hc.
  - cbn in Hsp. apply andb_prop in Hsp as [-> Hsp]. by apply IH.
Qed.

Lemma leading_digits_split (s : string) :
  exists rest, s = leading_digits s +:+ rest /\
               all_digits (leading_digits s) = true /\
               starts_with_digit rest = false.
Proof.
  induction s as [|c s (rest & IH & Hd & Hr)]; [by exists ""|]. cbn.
  destruct (JS.is_digit c) eqn:Hc.
  - exists rest. cbn. rewrite Hc, Hd. by rewrite <- IH.
  - exists (String c s). cbn. by rewrite Hc.
Qed.

Lemma leading_digits_all (digits rest : string) :
  all_digits digits = true -> starts_with_digit rest = false ->
  leading_digits (digits +:+ rest) = digits.
Proof.
  intros Hd Hr. induction digits as [|c ds IH]; cbn [String.append leading_digits].
  - destruct rest as [|c r]; [reflexivity|].
    cbn [starts_with_digit] in Hr. cbn [leading_digits]. by rewrite Hr.
  - cbn [all_digits] in Hd. apply andb_prop in Hd as [-> Hd]. by rewrite IH.
Qed.

(** The matcher at one place is the banner there. *)
Lemma version_at_banner (s digits : string) :
  version_at s = Some digits <-> banner s digits.
Proof.
  unfold version_at, banner. split.
  - destruct (after_word "version" s) as [s1|] eqn:Hw; [|discriminate].
    apply after_word_split in Hw as (word & -> & Hword).
    destruct s1 as [|c s1]; [discriminate|]. cbn [after_spaces].
    destruct (JS.is_space c) eqn:Hc; [|discriminate].
    destruct (trimStart_split s1) as (sp & Hs1 & Hsp).
    destruct (JS.trimStart s1) as [|q s2]; [discriminate|].
    destruct (Ascii.eqb_spec q JS.dquote) as [->|]; [|discriminate].
    destruct (leading_digits_split s2) as (rest & Hs2 & Hd & Hr).
    destruct (leading_digits s2) as [|d ds] eqn:Hds; [discriminate|].
    cbn [JS.is_empty]. intros [= <-].
    exists word, (String c sp), rest. repeat split; try done.
    + by rewrite Hs1, Hs2.
    + cbn [JS.all_space]. by rewrite Hc, Hsp.
  - intros (word & spaces & rest & -> & Hword & Hne & Hsp & Hdne & Hd & Hr).
    rewrite (proj2 (after_word_split _ _ _)) by eauto.
    destruct spaces as [|c sp]; [done|]. cbn in Hsp.
    apply andb_prop in Hsp as [Hc Hsp]. cbn [String.append after_spaces].
    rewrite Hc. cbn [JS.dq String.append].
    rewrite trimStart_spaces by done. rewrite Ascii.eqb_refl.
    rewrite leading_digits_all by done. by destruct digits.
Qed.

(** [match] returns the capture of the leftmost place the pattern matches. *)
Lemma version_match_first (out digits : string) :
  version_match out = Some digits <-> first_banner out digits.
Proof.
  unfold first_banner. split.
  - induction out as [|c out IH]; cbn [version_match].
    + destruct (version_at "") eqn:Hat; [|discriminate]. intros [= ->].
      exists "", "". apply version_at_banner in Hat. repeat split; try done.
      intros [|] [|]; done.
    + destruct (version_at (String c out)) eqn:Hat.
      * intros [= ->]. exists "", (String c out).
        apply version_at_banner in Hat. repeat split; try done.
        intros [|] [|]; done.
      * intros H. destruct (IH H) as (before & s & -> & Hb & Hfirst).
        exists (String c before), s. repeat split; try done.
        intros [|x b1] b2 Heq Hne ds Hbanner.
        -- cbn in Heq. subst b2. apply version_at_banner in Hbanner.
           cbn in Hbanner. congruence.
        -- cbn in Heq. injection Heq as -> ->. by eapply Hfirst.
  - intros (before & s & -> & Hb & Hfirst).
    apply version_at_banner in Hb.
    induction before as [|c before IH].
    + cbn. destruct s; cbn [version_match]; by rewrite Hb.
    + cbn [String.append version_match].
      destruct (version_at (String c (before +:+ s))) as [ds|] eqn:Hat.
      * apply version_at_banner in Hat.
        by destruct (Hfirst "" (String c before) eq_refl ltac:(done) ds).
      * apply IH. intros b1 b2 -> Hne ds.
        by apply (Hfirst (String c b1) b2).
Qed.

End Strings.

Section JavaCheck.

Context (host : Host).

(** The outcome of [checkJava], read off the result of [exec]. *)
Lemma checkJava_cases (w : World) :
  let r := child_process_exec host "java -version" in
  fst (checkJava host w) =
  match exec_err r, JS.is_empty (stderr r) with
  | Some _, true => Throw (Error "Java not installed or not accessible")
  | _, _ =>
      match version_match (JS.trim (stdout r +:+ stderr r)) with
      | None => Throw (Error "Cannot parse Java version")
      | Some digits =>
          if (JS.Number digits <? 25)%N
          then Throw (Error ("Java " +:+ JS.show_N (JS.Number digits) +:+
                             " was detected but 25+ is required"))
          else Ret tt
      end
  end.
Proof.
  intros r. unfold checkJava, bind, try_catch, execAsync, record_call, throw, ret.
  fold r.
  assert (Hresolved : forall w',
    fst (match version_match (JS.trim (stdout r +:+ stderr r)) with
         | Some digits =>
             if (JS.Number digits <? 25)%N
             then fun w0 => (Throw (Error ("Java " +:+ JS.show_N (JS.Number digits) +:+
                                           " was detected but 25+ is required")), w0)
             else log host ("Java " +:+ JS.show_N (JS.Number digits) +:+ " - OK")
         | None => fun w0 => (Throw (Error "Cannot parse Java version"), w0)
         end w') =
    match version_match (JS.trim (stdout r +:+ stderr r)) with
    | None => Throw (Error "Cannot parse Java version")
    | Some digits =>
        if (JS.Number digits <? 25)%N
        then Throw (Error ("Java " +:+ JS.show_N (JS.Number digits) +:+
                           " was detected but 25+ is required"))
        else Ret tt
    end).
  { intros w'. destruct (version_match _) as [digits|]; [|reflexivity].
    destruct (JS.Number digits <? 25)%N; [reflexivity|].
    unfold log. by rewrite writeLog_logged. }
  destruct (exec_err r) as [err|]; [destruct (JS.is_empty (stderr r))|];
    [reflexivity| |]; apply Hresolved.
Qed.

Lemma exec_rejected_cases (r : ExecResult) :
  exec_rejected r <->
  match exec_err r, JS.is_empty (stderr r) with
  | Some _, true => True
  | _, _ => False
  end.
Proof.
  unfold exec_rejected.
  destruct (exec_err r) as [err|], (stderr r) as [|c s]; cbn; split;
    try done; try (by intros [[? ?] ?]); try (by intros [_ ?]).
Qed.

(** C2.  The Java check on the output of the version query.  The major
    version is the run of digits after the first place where the word
    [version], white space and a double quote stand.  The check fails with
    the not-installed error when [exec] rejects, fails whenever [exec]
    reports an error and its output has no such place, fails with the
    cannot-parse error when the output has none, fails with an error naming
    the version when that is below 25, and succeeds exactly when a version
    of at least 25 was found; an output whose first banner reads
    [version] and 30.0.1 in quotes is accepted. *)
Theorem checkJava_version (w : World) :
  let r := child_process_exec host "java -version" in
  let out := JS.trim (stdout r +:+ stderr r) in
  let result := fst (checkJava host w) in
  (forall s digits, version_match s = Some digits <-> first_banner s digits) /\
  (exec_rejected r ->
   result = Throw (Error "Java not installed or not accessible")) /\
  (is_Some (exec_err r) -> version_match out = None ->
   exists err, result = Throw err) /\
  (~ exec_rejected r -> version_match out = None ->
   result = Throw (Error "Cannot parse Java version")) /\
  Error "Cannot parse Java version" <> Error "Java not installed or not accessible" /\
  (~ exec_rejected r -> forall digits,
     version_match out = Some digits -> (JS.Number digits < 25)%N ->
     result = Throw (Error ("Java " +:+ JS.show_N (JS.Number digits) +:+
                            " was detected but 25+ is required"))) /\
  (result = Ret tt <->
   ~ exec_rejected r /\
   exists digits, version_match out = Some digits /\ (25 <= JS.Number digits)%N) /\
  (forall before rest,
     ~ exec_rejected r ->
     out = before +:+ "version " +:+ JS.dq +:+ "30.0.1" +:+ JS.dq +:+ rest ->
     (forall b1 b2, before = b1 +:+ b2 -> b2 <> "" -> forall ds,
        ~ banner (b2 +:+ "version " +:+ JS.dq +:+ "30.0.1" +:+ JS.dq +:+ rest) ds) ->
     JS.Number "30" = 30%N /\ result = Ret tt).
Proof.
  intros r out result.
  assert (Hcases := checkJava_cases w). cbn zeta in Hcases.
  fold r out result in Hcases.
  assert (Hrej := exec_rejected_cases r).
  assert (Haccept : ~ exec_rejected r -> forall digits,
            version_match out = Some digits -> (25 <= JS.Number digits)%N ->
            result = Ret tt).
  { intros Hn digits Hm Hge. rewrite Hcases, Hm.
    destruct (N.ltb_spec (JS.Number digits) 25); [lia|].
    destruct (exec_err r), (JS.is_empty (stderr r)); try reflexivity.
    by destruct Hn; apply Hrej. }
  split; [apply version_match_first|].
  split.
  { intros H. apply Hrej in H. rewrite Hcases.
    by destruct (exec_err r), (JS.is_empty (stderr r)). }
  split.
  { intros _ Hm. rewrite Hcases, Hm.
    destruct (exec_err r), (JS.is_empty (stderr r)); eauto. }
  split.
  { intros Hn Hm. rewrite Hcases, Hm.
    destruct (exec_err r), (JS.is_empty (stderr r)); try reflexivity.
    by destruct Hn; apply Hrej. }
  split; [discriminate|].
  split.
  { intros Hn digits Hm Hlt. rewrite Hcases, Hm.
    destruct (N.ltb_spec (JS.Number digits) 25); [|lia].
    destruct (exec_err r), (JS.is_empty (stderr r)); try reflexivity.
    by destruct Hn; apply Hrej. }
  split.
  { split.
    - rewrite Hcases. intros H.
      assert (Hn : ~ exec_rejected r).
      { intros Hr. apply Hrej in Hr.
        by destruct (exec_err r), (JS.is_empty (stderr r)). }
      split; [exact Hn|].
      assert (Hv : match version_match out with
                   | Some digits =>
                       if (JS.Number digits <? 25)%N
                       then Throw (Error ("Java " +:+ JS.show_N (JS.Number digits) +:+
                                          " was detected but 25+ is required"))
                       else Ret tt
                   | None => Throw (Error "Cannot parse Java version")
                   end = Ret tt).
      { destruct (exec_err r), (JS.is_empty (stderr r)); try exact H.
        by destruct Hn; apply Hrej. }
      destruct (version_match out) as [digits|]; [|discriminate].
      exists digits. split; [reflexivity|].
      destruct (N.ltb_spec (JS.Number digits) 25); [discriminate|lia].
    - intros (Hn & digits & Hm & Hge). by eapply Haccept. }
  intros before rest Hn Hout Hfirst. split; [reflexivity|].
  apply (Haccept Hn "30"); [|by vm_compute].
  apply version_match_first. exists before, ("version " +:+ JS.dq +:+ "30.0.1" +:+ JS.dq +:+ rest).
  split; [exact Hout|]. split; [|exact Hfirst].
  exists "version", " ", (".0.1" +:+ JS.dq +:+ rest). repeat split; done.
Qed.

End JavaCheck.

(** ** The configuration *)

Section Config.

Context (host : Host).

Lemma fold_insert_lookup (props : list (string * JSValue)) (o : JSObject) (k : string) :
  fold_left (fun acc kv => <[kv.1 := kv.2]> acc) props o !! k =
  match binding k props with
  | Some v => Some v
  | None => o !! k
  end.
Proof.
  revert o. induction props as [|[k' v] rest IH]; intros o; [reflexivity|].
  cbn [fold_left binding fst snd]. rewrite IH.
  destruct (binding k rest); [reflexivity|].
  destruct (String.eqb_spec k k') as [->|Hne].
  - apply lookup_insert_eq.
  - by rewrite lookup_insert_ne.
Qed.

(** A property of the merged object is the file's when the file binds the
    key, and the default's otherwise. *)
Lemma spread_lookup (o : JSObject) (v : JSValue) (k : string) :
  spread o v !! k =
  match binding k (own_props v) with
  | Some x => Some x
  | None => o !! k
  end.
Proof. apply fold_insert_lookup. Qed.

Lemma spread_get (o : JSObject) (v : JSValue) (k : string) :
  get (spread o v) k = default (get o k) (binding k (own_props v)).
Proof. unfold get. rewrite spread_lookup. by destruct (binding _ _). Qed.

(** The downloader and the launcher read the configuration through these
    fields only. *)
Lemma runDownloader_reads (config config' : JSObject) (exe : string) (w : World) :
  get config "downloaderArgs" = get config' "downloaderArgs" ->
  runDownloader host config exe w = runDownloader host config' exe w.
Proof. intros H. unfold runDownloader. by rewrite H. Qed.

Lemma startServer_reads (config config' : JSObject) (w : World) :
  get config "startServer" = get config' "startServer" ->
  get config "javaArgs" = get config' "javaArgs" ->
  get config "hytaleArgs" = get config' "hytaleArgs" ->
  startServer host config w = startServer host config' w.
Proof. intros H1 H2 H3. unfold startServer. by rewrite H1, H2, H3. Qed.

(** A file that is there, can be read and parses is merged over the
    defaults, and nothing is written or logged. *)
Lemma loadConfig_parsed (w : World) (raw : string) (parsed : JSValue) :
  config_file_holds host w raw ->
  JSON_parse host raw = inr parsed ->
  loadConfig host w = (Ret (spread DEFAULT_CONFIG parsed), w).
Proof.
  intros [Hfile Hread] Hparse. unfold loadConfig.
  apply try_catch_ret.
  erewrite bind_ret by (by eapply existsSync_present). cbn [negb].
  erewrite bind_ret by (by eapply readFileSync_data).
  unfold JSON_parse_M. by rewrite Hparse.
Qed.

(** C3.  A configuration file that exists, is read and parses gives the
    defaults with the keys of the file laid over them one by one: every
    property of the result is the file's value when the file has the key
    and the default otherwise, so each of the five fields the script reads
    is overridden exactly when the file names it and keeps its default when
    it does not, whatever else the file holds, and the downloader and the
    launcher run alike on two files that agree on the five fields; and a
    file that holds only
    [startServer] set to [false] gives the defaults with that one field
    changed. *)
Theorem loadConfig_merge (w : World) (raw : string) (parsed : JSValue) :
  config_file_holds host w raw ->
  JSON_parse host raw = inr parsed ->
  exists config,
    loadConfig host w = (Ret config, w) /\
    (forall k, config !! k =
               match binding k (own_props parsed) with
               | Some v => Some v
               | None => DEFAULT_CONFIG !! k
               end) /\
    (forall k, k ∈ config_keys ->
       get config k =
       default (get DEFAULT_CONFIG k) (binding k (own_props parsed))) /\
    (forall other,
       (forall k, k ∈ config_keys ->
          binding k (own_props other) = binding k (own_props parsed)) ->
       (forall k, k ∈ config_keys ->
          get (spread DEFAULT_CONFIG other) k = get config k) /\
       (forall exe w',
          runDownloader host (spread DEFAULT_CONFIG other) exe w' =
          runDownloader host config exe w') /\
       (forall w',
          startServer host (spread DEFAULT_CONFIG other) w' =
          startServer host config w')) /\
    (parsed = JObj [("startServer", JBool false)] ->
     config = <["startServer" := JBool false]> DEFAULT_CONFIG /\
     get config "startServer" = JBool false /\
     forall k, k ≠ "startServer" -> config !! k = DEFAULT_CONFIG !! k).
Proof.
  intros Hfile Hparse. exists (spread DEFAULT_CONFIG parsed).
  split; [by apply (loadConfig_parsed w raw)|].
  split; [intros k; apply spread_lookup|].
  split; [intros k _; apply spread_get|].
  split.
  - intros other Hsame.
    assert (Hget : forall k, k ∈ config_keys ->
              get (spread DEFAULT_CONFIG other) k = get (spread DEFAULT_CONFIG parsed) k).
    { intros k Hk. rewrite !spread_get. by rewrite Hsame. }
    split; [exact Hget|]. split.
    + intros exe w'. apply runDownloader_reads. apply Hget. set_solver.
    + intros w'. apply startServer_reads; apply Hget; set_solver.
  - intros ->. split; [reflexivity|]. split; [reflexivity|].
    intros k Hk. rewrite spread_lookup. cbn.
    destruct (String.eqb_spec k "startServer"); done.
Qed.

(** Whatever the state of the file, [loadConfig] returns a configuration. *)
Lemma loadConfig_returns (w : World) :
  exists config w', loadConfig host w = (Ret config, w') /\
    (config = DEFAULT_CONFIG \/
     exists raw parsed, config_file_holds host w raw /\
       JSON_parse host raw = inr parsed /\
       config = spread DEFAULT_CONFIG parsed /\ w' = w).
Proof.
  unfold loadConfig, config_file_holds.
  destruct (files w !! CONFIG_FILE host) as [raw|] eqn:Hfile.
  - destruct (decide (CONFIG_FILE host ∈ denied w)) as [Hd|Hd].
    + erewrite try_catch_throw; cycle 1.
      { erewrite bind_ret by (by eapply existsSync_present). cbn [negb].
        by erewrite bind_throw by (by eapply readFileSync_denied). }
      unfold error. erewrite bind_ret by apply writeLog_logged. eauto.
    + destruct (JSON_parse host raw) as [err|parsed] eqn:Hparse.
      * erewrite try_catch_throw; cycle 1.
        { erewrite bind_ret by (by eapply existsSync_present). cbn [negb].
          erewrite bind_ret by (by eapply readFileSync_data).
          unfold JSON_parse_M. by rewrite Hparse. }
        unfold error. erewrite bind_ret by apply writeLog_logged. eauto.
      * erewrite try_catch_ret; cycle 1.
        { erewrite bind_ret by (by eapply existsSync_present). cbn [negb].
          erewrite bind_ret by (by eapply readFileSync_data).
          unfold JSON_parse_M. by rewrite Hparse. }
        do 2 eexists. split; [reflexivity|]. right. eauto 10.
  - destruct (decide (CONFIG_FILE host ∈ denied w)) as [Hd|Hd].
    + erewrite try_catch_throw; cycle 1.
      { erewrite bind_ret by (by eapply existsSync_absent). cbn [negb].
        by erewrite bind_throw by (by eapply writeFileSync_denied). }
      unfold error. erewrite bind_ret by apply writeLog_logged. eauto.
    + erewrite try_catch_ret; cycle 1.
      { erewrite bind_ret by (by eapply existsSync_absent). cbn [negb].
        erewrite bind_ret by (by eapply writeFileSync_written).
        unfold log. by erewrite bind_ret by apply writeLog_logged. }
      eauto.
Qed.

(** A file that is read and does not parse: an error is logged and the
    defaults are returned. *)
Lemma loadConfig_unparsable (w : World) (raw : string) (err : Exn) :
  config_file_holds host w raw ->
  JSON_parse host raw = inl err ->
  loadConfig host w =
  (Ret DEFAULT_CONFIG,
   logged host "ERROR" ("Failed to load config.json: " +:+ message err) w).
Proof.
  intros [Hfile Hread] Hparse. unfold loadConfig.
  erewrite try_catch_throw; cycle 1.
  { erewrite bind_ret by (by eapply existsSync_present). cbn [negb].
    erewrite bind_ret by (by eapply readFileSync_data).
    unfold JSON_parse_M. by rewrite Hparse. }
  unfold error. by erewrite bind_ret by apply writeLog_logged.
Qed.

(** C8.  [loadConfig] always returns, and what it returns is the defaults
    unless the file was read and parsed; when the file is read and does not
    parse it returns the defaults, the error is the last line on the
    console, on the error stream, the only file touched is the log file,
    and the configuration file keeps its contents. *)
Theorem loadConfig_degrades (w : World) :
  (exists config w', loadConfig host w = (Ret config, w') /\
     (config = DEFAULT_CONFIG \/
      exists raw parsed, config_file_holds host w raw /\
        JSON_parse host raw = inr parsed /\
        config = spread DEFAULT_CONFIG parsed)) /\
  (forall raw err,
     config_file_holds host w raw ->
     JSON_parse host raw = inl err ->
     exists w',
       loadConfig host w = (Ret DEFAULT_CONFIG, w') /\
       last (console w') =
         Some (mkLine Stderr ("Failed to load config.json: " +:+ message err) None) /\
       (forall p, p ≠ LOG_FILE host -> files w' !! p = files w !! p) /\
       (CONFIG_FILE host ≠ LOG_FILE host -> files w' !! CONFIG_FILE host = Some raw)).
Proof.
  split.
  - destruct (loadConfig_returns w) as (config & w' & Hrun & Hc).
    exists config, w'. split; [exact Hrun|].
    destruct Hc as [->|(raw & parsed & ? & ? & ? & _)]; eauto 10.
  - intros raw err Hfile Hparse. eexists. split.
    + by apply (loadConfig_unparsable w raw).
    + split; [apply logged_console_last|].
      split; [intros p Hp; by apply logged_files_other|].
      intros Hne. rewrite logged_files_other by done. apply Hfile.
Qed.

End Config.

(** ** Argument strings *)

Section Split.

Lemma split_space_nonempty (s : string) : JS.split_space s <> [].
Proof.
  destruct s as [|c s]; cbn; [done|].
  destruct (Ascii.eqb c " "); [done|]. by destruct (JS.split_space s).
Qed.

(** A string without a space is one piece. *)
Lemma split_space_word (s : string) :
  JS.has_space s = false -> JS.split_space s = [s].
Proof.
  induction s as [|c s IH]; cbn; [done|].
  destruct (Ascii.eqb c " "); [done|]. cbn. intros H. by rewrite IH.
Qed.

(** Every space separates, whatever stands around it. *)
Lemma split_space_app (a b : string) :
  JS.split_space (a +:+ " " +:+ b) = (JS.split_space a ++ JS.split_space b)%list.
Proof.
  induction a as [|c a IH]; [reflexivity|].
  cbn in IH |- *. rewrite IH.
  destruct (Ascii.eqb c " "); [reflexivity|].
  pose proof (split_space_nonempty a). by destruct (JS.split_space a).
Qed.

Lemma join_space_cons (c : ascii) (piece : string) (pieces : list string) :
  JS.join_space (String c piece :: pieces) =
  String c (JS.join_space (piece :: pieces)).
Proof. by destruct pieces. Qed.

(** Joining the pieces with single spaces gives the string back. *)
Lemma join_split_space (s : string) : JS.join_space (JS.split_space s) = s.
Proof.
  induction s as [|c s IH]; cbn [JS.split_space]; [reflexivity|].
  pose proof (split_space_nonempty s).
  destruct (Ascii.eqb_spec c " ") as [->|_];
    destruct (JS.split_space s) as [|piece pieces]; try done.
  - change (JS.join_space ("" :: piece :: pieces))
      with ("" +:+ " " +:+ JS.join_space (piece :: pieces)).
    by rewrite IH.
  - by rewrite join_space_cons, IH.
Qed.

Lemma split_space_pieces (s : string) :
  Forall (fun piece => JS.has_space piece = false) (JS.split_space s).
Proof.
  induction s as [|c s IH]; cbn [JS.split_space]; [by repeat constructor|].
  destruct (Ascii.eqb c " ") eqn:Hc; [by constructor|].
  destruct (JS.split_space s) as [|piece pieces].
  - constructor; [|constructor]. cbn. by rewrite Hc.
  - inversion IH; subst. constructor; [|done]. cbn. by rewrite Hc.
Qed.

End Split.

(** ** The downloader *)

Section Downloader.

Context (host : Host).

(** With a string for its arguments [runDownloader] spawns the downloader
    once and settles on the first event of the child. *)
Lemma runDownloader_spawns (config : JSObject) (exe s : string) (w : World) :
  get config "downloaderArgs" = JStr s ->
  let exePath := path_resolve host (EXTRACT_DIR host) exe in
  let args := JS.split_space s in
  let w' := with_call (CallSpawn exePath args (RUNTIME_DIR host)) w in
  runDownloader host config exe w =
  downloader_settles (child_process_spawn host exePath args (RUNTIME_DIR host)) w'.
Proof. intros Hs. unfold runDownloader. rewrite Hs. reflexivity. Qed.

Lemma downloader_settles_world (events : list ChildEvent) (w : World) :
  snd (downloader_settles events w) = w.
Proof.
  destruct events as [|[err|code signal] rest]; try reflexivity. cbn.
  destruct (negb _); [reflexivity|]. by destruct (negb _).
Qed.

Lemma downloader_settles_ret (events : list ChildEvent) (w : World) :
  fst (downloader_settles events w) = Ret tt <-> exited_cleanly events.
Proof.
  unfold exited_cleanly, no_signal.
  destruct events as [|[err|code signal] rest]; cbn.
  - split; [done|]. by intros (? & ? & ? & _).
  - split; [done|]. by intros (? & ? & ? & _).
  - destruct signal as [[|c sig]|]; cbn.
    + case_bool_decide as Hc; cbn.
      * subst code. split; [|done]. intros _. exists (Some ""), rest. eauto.
      * split; [done|]. intros (? & ? & [= -> -> ->] & _). done.
    + split; [done|]. by intros (? & ? & [= _ <- _] & [|]).
    + case_bool_decide as Hc; cbn.
      * subst code. split; [|done]. intros _. exists None, rest. eauto.
      * split; [done|]. intros (? & ? & [= -> -> ->] & _). done.
Qed.

(** C4.  [runDownloader] splits the argument string on single spaces:
    joining the pieces with spaces gives the string back, no piece holds a
    space, a string without a space is one piece and every space separates
    whatever stands around it, so quotes and backslashes are characters
    like any other.  The downloader is spawned with these arguments, and the
    promise resolves if and only if the first event of the child is its exit
    with status 0 and no signal; after a signal it rejects with an error
    naming the signal, after another status with an error naming the
    status. *)
Theorem runDownloader_split_and_exit (config : JSObject) (exe s : string) (w : World) :
  get config "downloaderArgs" = JStr s ->
  let exePath := path_resolve host (EXTRACT_DIR host) exe in
  let args := JS.split_space s in
  let events := child_process_spawn host exePath args (RUNTIME_DIR host) in
  let run := runDownloader host config exe w in
  (JS.join_space args = s /\
   Forall (fun piece => JS.has_space piece = false) args /\
   (JS.has_space s = false -> args = [s]) /\
   (forall a b, JS.split_space (a +:+ " " +:+ b) =
                (JS.split_space a ++ JS.split_space b)%list)) /\
  calls (snd run) = (calls w ++ [CallSpawn exePath args (RUNTIME_DIR host)])%list /\
  (fst run = Ret tt <-> exited_cleanly events) /\
  (forall code signal rest,
     events = ChildExit code (Some signal) :: rest -> signal <> "" ->
     fst run = Throw (Error ("Downloader terminated by signal " +:+ signal))) /\
  (forall code signal rest,
     events = ChildExit (Some code) signal :: rest -> no_signal signal -> code <> 0 ->
     fst run = Throw (Error ("Downloader exited with code " +:+ JS.show_Z code))).
Proof.
  intros Hs exePath args events run.
  assert (Hrun := runDownloader_spawns config exe s w Hs). cbn zeta in Hrun.
  fold exePath args events run in Hrun.
  split.
  { split; [apply join_split_space|]. split; [apply split_space_pieces|].
    split; [apply split_space_word|apply split_space_app]. }
  split; [by rewrite Hrun, downloader_settles_world|].
  split; [rewrite Hrun; apply downloader_settles_ret|].
  split.
  - intros code signal rest Hev Hne. rewrite Hrun, Hev. cbn.
    by destruct signal.
  - intros code signal rest Hev Hsig Hne. rewrite Hrun, Hev. cbn.
    destruct Hsig as [-> | ->]; cbn;
      rewrite bool_decide_eq_false_2 by congruence; reflexivity.
Qed.

End Downloader.

(** ** The server launcher *)

Section Server.

Context (host : Host).

(** A falsy [startServer] ends the process with status 0 after one log
    entry. *)
Lemma startServer_falsy (config : JSObject) (w : World) :
  truthy (get config "startServer") = false ->
  startServer host config w =
  (Exit 0, logged host "INFO" "Server start skipped. Exiting..." w).
Proof.
  intros H. unfold startServer. rewrite H. cbn [negb].
  apply bind_exit. unfold log.
  by erewrite bind_ret by apply writeLog_logged.
Qed.

(** The arguments of the server: those of Java, the jar, those of the
    server. *)
Lemma startServer_spawns (config : JSObject) (java hytale : string) (w : World) :
  truthy (get config "startServer") = true ->
  get config "javaArgs" = JStr java ->
  get config "hytaleArgs" = JStr hytale ->
  let finalArgs :=
    (JS.split_space java ++ ["-jar"; "HytaleServer.jar"] ++ JS.split_space hytale)%list in
  exists w',
    startServer host config w = (Ret tt, w') /\
    calls w' = (calls w ++ [CallSpawn "java" finalArgs (RUNTIME_DIR host)])%list.
Proof.
  intros Hstart Hjava Hhytale finalArgs. unfold startServer.
  rewrite Hstart, Hjava, Hhytale. cbn [negb split_of].
  erewrite bind_ret by reflexivity. unfold log.
  erewrite bind_ret by apply writeLog_logged.
  erewrite bind_ret by apply writeLog_logged.
  eexists. split; [reflexivity|]. reflexivity.
Qed.

(** C9.  With [startServer] false in the configuration the launcher logs
    that the start of the server is skipped and leaves the process with
    status 0 at once: the message is the last line on the console, nothing
    is spawned, and no other call is made. *)
Theorem startServer_skipped (config : JSObject) (w : World) :
  get config "startServer" = JBool false ->
  exists w',
    startServer host config w = (Exit 0, w') /\
    w' = logged host "INFO" "Server start skipped. Exiting..." w /\
    last (console w') =
      Some (mkLine Stdout "Server start skipped. Exiting..." None) /\
    String.prefix "Server start skipped" "Server start skipped. Exiting..." = true /\
    calls w' = calls w /\
    (forall exe args cwd, CallSpawn exe args cwd ∈ calls w' ->
                          CallSpawn exe args cwd ∈ calls w).
Proof.
  intros H. eexists. split.
  - apply startServer_falsy. by rewrite H.
  - split; [reflexivity|]. split; [apply logged_console_last|].
    split; [reflexivity|]. split; [reflexivity|]. by intros exe args cwd.
Qed.

(** C10.  Splitting the empty string gives one empty piece, so an empty
    argument string puts one empty argument on the command line: the
    downloader is spawned with the single argument [""] when
    [downloaderArgs] is empty, as it is by default, and the server with an
    empty argument before [-jar] when [javaArgs] is empty and after the jar
    when [hytaleArgs] is. *)
Theorem empty_argument_string (w : World) :
  JS.split_space "" = [""] /\
  (forall config exe,
     get config "downloaderArgs" = JStr "" ->
     calls (snd (runDownloader host config exe w)) =
     (calls w ++ [CallSpawn (path_resolve host (EXTRACT_DIR host) exe) [""]
                            (RUNTIME_DIR host)])%list) /\
  get DEFAULT_CONFIG "downloaderArgs" = JStr "" /\
  (forall config hytale,
     truthy (get config "startServer") = true ->
     get config "javaArgs" = JStr "" ->
     get config "hytaleArgs" = JStr hytale ->
     calls (snd (startServer host config w)) =
     (calls w ++ [CallSpawn "java"
                    ("" :: "-jar" :: "HytaleServer.jar" :: JS.split_space hytale)
                    (RUNTIME_DIR host)])%list) /\
  (forall config java,
     truthy (get config "startServer") = true ->
     get config "javaArgs" = JStr java ->
     get config "hytaleArgs" = JStr "" ->
     calls (snd (startServer host config w)) =
     (calls w ++ [CallSpawn "java"
                    (JS.split_space java ++ ["-jar"; "HytaleServer.jar"; ""])
                    (RUNTIME_DIR host)])%list).
Proof.
  split; [reflexivity|]. split.
  { intros config exe Hargs.
    rewrite (runDownloader_spawns host config exe "" w Hargs).
    by rewrite downloader_settles_world. }
  split; [reflexivity|]. split.
  - intros config hytale Hstart Hjava Hhytale.
    destruct (startServer_spawns config "" hytale w Hstart Hjava Hhytale)
      as (w' & Hrun & Hcalls).
    rewrite Hrun. exact Hcalls.
  - intros config java Hstart Hjava Hhytale.
    destruct (startServer_spawns config java "" w Hstart Hjava Hhytale)
      as (w' & Hrun & Hcalls).
    rewrite Hrun. exact Hcalls.
Qed.

End Server.

(** ** The platform *)

Section Platform.

Context (host : Host).

Lemma reset_log_run (w : World) : reset_log host w = (Ret tt, log_reset host w).
Proof.
  unfold reset_log, log_reset.
  destruct (decide (LOG_FILE host ∈ denied w)) as [Hd|Hd].
  - rewrite bool_decide_eq_true_2 by done.
    by erewrite try_catch_throw by (by apply writeFileSync_denied).
  - rewrite bool_decide_eq_false_2 by done.
    by erewrite try_catch_ret by (by apply writeFileSync_written).
Qed.

Lemma log_reset_calls (w : World) : calls (log_reset host w) = calls w.
Proof. unfold log_reset. by case_bool_decide. Qed.

Lemma log_reset_clock (w : World) : clock_reads (log_reset host w) = clock_reads w.
Proof. unfold log_reset. by case_bool_decide. Qed.

Lemma log_reset_files_other (p : string) (w : World) :
  p ≠ LOG_FILE host -> files (log_reset host w) !! p = files w !! p.
Proof.
  intros Hp. unfold log_reset. case_bool_decide; [reflexivity|].
  cbn. by rewrite lookup_insert_ne.
Qed.

Lemma DOWNLOADER_EXE_for_other (p : string) :
  p ≠ "win32" -> p ≠ "linux" -> DOWNLOADER_EXE_for p = None.
Proof.
  intros Hw Hl. unfold DOWNLOADER_EXE_for.
  apply String.eqb_neq in Hw, Hl. by rewrite Hw, Hl.
Qed.

(** C7, as the script has it.  The resolver gives the Windows downloader on
    [win32], the Linux one on [linux] and raises on every other platform.
    It raises after the reset
    of the log file and before anything else: no request, process or
    removal is started, the clock is not read, so nothing is logged, and no
    file but the log file is touched, so no configuration is read or
    created. *)
Theorem platform_resolver (w : World) :
  DOWNLOADER_EXE_for "win32" = Some "hytale-downloader-windows-amd64.exe" /\
  DOWNLOADER_EXE_for "linux" = Some "hytale-downloader-linux-amd64" /\
  (forall p, p ≠ "win32" -> p ≠ "linux" -> DOWNLOADER_EXE_for p = None) /\
  (forall exe, DOWNLOADER_EXE_for (os_platform host) = Some exe ->
     DOWNLOADER_EXE host w = (Ret exe, w) /\
     exists config w', startup host w = (Ret (exe, config), w')) /\
  (os_platform host ≠ "win32" -> os_platform host ≠ "linux" ->
   DOWNLOADER_EXE host w = (Throw (Error ("Unsupported OS: " +:+ os_platform host)), w) /\
   exists w',
     startup host w = (Throw (Error ("Unsupported OS: " +:+ os_platform host)), w') /\
     w' = log_reset host w /\
     calls w' = calls w /\
     clock_reads w' = clock_reads w /\
     (forall p, p ≠ LOG_FILE host -> files w' !! p = files w !! p)).
Proof.
  split; [reflexivity|]. split; [reflexivity|].
  split; [apply DOWNLOADER_EXE_for_other|]. split.
  - intros exe Hexe. unfold startup, DOWNLOADER_EXE, platform. rewrite Hexe.
    split; [reflexivity|].
    erewrite bind_ret by apply reset_log_run.
    erewrite bind_ret by reflexivity.
    destruct (loadConfig_returns host (log_reset host w)) as (config & w' & Hc & _).
    erewrite bind_ret by exact Hc. by exists config, w'.
  - intros Hw Hl. unfold startup, DOWNLOADER_EXE, platform.
    rewrite (DOWNLOADER_EXE_for_other _ Hw Hl). split; [reflexivity|].
    exists (log_reset host w). split.
    + erewrite bind_ret by apply reset_log_run. reflexivity.
    + split; [reflexivity|]. split; [apply log_reset_calls|].
      split; [apply log_reset_clock|]. intros p. apply log_reset_files_other.
Qed.

End Platform.

(** C7 as stated fails.  On a Mac the platform check raises, and by then the
    log of the earlier run is gone: the check does not come before every
    effect on the file system. *)
Lemma unsupported_platform_after_log_reset :
  DOWNLOADER_EXE_for (os_platform mac) = None /\
  fst (startup mac after_a_run) = Throw (Error "Unsupported OS: darwin") /\
  files after_a_run !! LOG_FILE mac = Some "[2026-01-12T08:00:00.000Z] [INFO] Done." /\
  files (snd (startup mac after_a_run)) !! LOG_FILE mac = Some "" /\
  ~ raises_untouched mac after_a_run.
Proof.
  split; [reflexivity|]. split; [reflexivity|].
  split; [reflexivity|]. split; [by vm_compute|].
  intros [err H].
  apply (f_equal (fun r => files (snd r) !! LOG_FILE mac)) in H.
  vm_compute in H. discriminate.
Qed.

(** ** The newest archive *)

Section Sorting.

Lemma sort_insert_elem (x y : Zip) (l : list Zip) :
  y ∈ sort_insert newest_first x l <-> y = x \/ y ∈ l.
Proof.
  induction l as [|z l IH]; cbn [sort_insert].
  - set_solver.
  - destruct (newest_first x z <=? 0); [set_solver|].
    rewrite elem_of_cons, IH. set_solver.
Qed.

(** Sorting keeps the items. *)
Lemma sort_elem (y : Zip) (l : list Zip) : y ∈ sort newest_first l <-> y ∈ l.
Proof.
  induction l as [|x l IH]; [reflexivity|].
  unfold sort in *. cbn [fold_right]. rewrite sort_insert_elem, IH. set_solver.
Qed.

Lemma sort_insert_sorted (x : Zip) (l : list Zip) :
  StronglySorted not_older l ->
  StronglySorted not_older (sort_insert newest_first x l).
Proof.
  induction 1 as [|z l Hl IH Hz]; cbn [sort_insert].
  - by repeat constructor.
  - destruct (Z.leb_spec (newest_first x z) 0) as [Hle|Hgt];
      unfold newest_first in *.
    + constructor; [by constructor|]. constructor; [unfold not_older; lia|].
      eapply Forall_impl; [exact Hz|]. unfold not_older. intros; lia.
    + constructor; [exact IH|]. apply Forall_forall. intros y Hy.
      apply sort_insert_elem in Hy as [->|Hy]; [unfold not_older; lia|].
      by eapply Forall_forall in Hz.
Qed.

(** The sorted archives come newest first. *)
Lemma sort_sorted (l : list Zip) : StronglySorted not_older (sort newest_first l).
Proof.
  induction l as [|x l IH]; [constructor|].
  unfold sort in *. cbn [fold_right]. by apply sort_insert_sorted.
Qed.

(** The first of the sorted archives is one of them and none is newer. *)
Lemma sort_first (l : list Zip) (first : Zip) (rest : list Zip) :
  sort newest_first l = first :: rest ->
  first ∈ l /\ forall z, z ∈ l -> time z <= time first.
Proof.
  intros Hs. split.
  - apply sort_elem. rewrite Hs. by left.
  - intros z Hz. apply sort_elem in Hz. rewrite Hs in Hz.
    pose proof (sort_sorted l) as Hsorted. rewrite Hs in Hsorted.
    apply StronglySorted_inv in Hsorted as [_ Hall].
    apply elem_of_cons in Hz as [->|Hz]; [lia|].
    by eapply Forall_forall in Hall.
Qed.

Lemma sort_nil_inv (l : list Zip) : sort newest_first l = [] -> l = [].
Proof.
  destruct l as [|x l]; [done|]. intros Hs.
  assert (x ∈ sort newest_first (x :: l)) as Hx by (apply sort_elem; by left).
  rewrite Hs in Hx. by apply elem_of_nil in Hx.
Qed.

End Sorting.

Section Locator.

Context (host : Host).

Lemma stat_all_run (dir : string) (names : list string) (mtime : string -> Z)
    (w : World) :
  (forall f, f ∈ names ->
     fs_statSync_mtimeMs host (path_join host dir f) (files w) = inr (mtime f)) ->
  stat_all host dir names w = (Ret (map (fun f => mkZip f (mtime f)) names), w).
Proof.
  induction names as [|f names IH]; intros Hstat; [reflexivity|].
  cbn [stat_all map].
  erewrite bind_ret; cycle 1.
  { unfold statSync_mtimeMs. rewrite Hstat by left. reflexivity. }
  erewrite bind_ret; cycle 1.
  { apply IH. intros g Hg. apply Hstat. by right. }
  reflexivity.
Qed.

(** The outcome of [findNewestZip] from the archives of the listing. *)
Lemma findNewestZip_run (dir : string) (w : World) (names : list string)
    (mtime : string -> Z) :
  let w1 := logged host "INFO" "Searching for newest ZIP..." w in
  let zips := filter (fun f => is_zip f = true) names in
  fs_readdirSync host dir (files w1) = inr names ->
  (forall f, f ∈ zips ->
     fs_statSync_mtimeMs host (path_join host dir f) (files w1) = inr (mtime f)) ->
  fst (findNewestZip host dir w) =
  match sort newest_first (map (fun f => mkZip f (mtime f)) zips) with
  | [] => Throw (Error "No downloaded ZIP found")
  | first :: _ => Ret (path_join host dir (name first))
  end.
Proof.
  intros w1 zips Hdir Hstat. unfold findNewestZip, log.
  erewrite bind_ret by apply writeLog_logged. fold w1.
  erewrite bind_ret; cycle 1.
  { unfold readdirSync. rewrite Hdir. reflexivity. }
  fold zips. erewrite bind_ret by (by apply stat_all_run).
  destruct (sort newest_first _) as [|first rest]; [reflexivity|].
  erewrite bind_ret by apply writeLog_logged. reflexivity.
Qed.

(** C5.  [findNewestZip] looks at the entries of the listing whose name
    ends in [.zip] and at no other: it fails with the not-found error when
    there is none, and otherwise returns the path of one of them than which
    none was modified later; an archive modified later than every other is
    the one returned, so of three archives with distinct modification times
    it is the one with the greatest. *)
Theorem findNewestZip_latest (dir : string) (w : World) (names : list string)
    (mtime : string -> Z) :
  let w1 := logged host "INFO" "Searching for newest ZIP..." w in
  let zips := filter (fun f => is_zip f = true) names in
  fs_readdirSync host dir (files w1) = inr names ->
  (forall f, f ∈ zips ->
     fs_statSync_mtimeMs host (path_join host dir f) (files w1) = inr (mtime f)) ->
  let result := fst (findNewestZip host dir w) in
  (forall f, f ∈ zips <-> f ∈ names /\ JS.endsWith f ".zip" = true) /\
  (zips = [] -> result = Throw (Error "No downloaded ZIP found")) /\
  (zips <> [] ->
   exists f, result = Ret (path_join host dir f) /\ f ∈ zips /\
             forall g, g ∈ zips -> mtime g <= mtime f) /\
  (forall f, f ∈ zips -> (forall g, g ∈ zips -> g <> f -> mtime g < mtime f) ->
             result = Ret (path_join host dir f)) /\
  (forall a b c, zips = [a; b; c] ->
     mtime a <> mtime b -> mtime b <> mtime c -> mtime a <> mtime c ->
     exists f, f ∈ zips /\ result = Ret (path_join host dir f) /\
               mtime f = Z.max (mtime a) (Z.max (mtime b) (mtime c))).
Proof.
  intros w1 zips Hdir Hstat result.
  assert (Hrun := findNewestZip_run dir w names mtime Hdir Hstat).
  fold zips result in Hrun.
  assert (Hsome : zips <> [] ->
    exists f, result = Ret (path_join host dir f) /\ f ∈ zips /\
              forall g, g ∈ zips -> mtime g <= mtime f).
  { intros Hne. rewrite Hrun.
    destruct (sort newest_first _) as [|first rest] eqn:Hs.
    - apply sort_nil_inv in Hs. by destruct zips.
    - apply sort_first in Hs as [Hin Hmax].
      apply list_elem_of_fmap in Hin as (f & -> & Hf). cbn [name time] in *.
      exists f. split; [reflexivity|]. split; [exact Hf|].
      intros g Hg. apply (Hmax (mkZip g (mtime g))).
      apply list_elem_of_fmap. eauto. }
  assert (Hstrict : forall f, f ∈ zips ->
    (forall g, g ∈ zips -> g <> f -> mtime g < mtime f) ->
    result = Ret (path_join host dir f)).
  { intros f Hf Hnewer.
    destruct Hsome as (f' & Hres & Hf' & Hmax); [by intros ->; inversion Hf|].
    destruct (decide (f' = f)) as [->|Hne]; [exact Hres|].
    specialize (Hnewer f' Hf' Hne). specialize (Hmax f Hf). lia. }
  split.
  { intros f. unfold zips. rewrite list_elem_of_filter. unfold is_zip. tauto. }
  split; [intros Hnil; by rewrite Hrun, Hnil|].
  split; [exact Hsome|]. split; [exact Hstrict|].
  intros a b c Hz Hab Hbc Hac.
  assert (Hcases : mtime a = Z.max (mtime a) (Z.max (mtime b) (mtime c)) \/
                   mtime b = Z.max (mtime a) (Z.max (mtime b) (mtime c)) \/
                   mtime c = Z.max (mtime a) (Z.max (mtime b) (mtime c))) by lia.
  assert (Hin : forall g, g ∈ zips -> g = a \/ g = b \/ g = c).
  { intros g. rewrite Hz, !elem_of_cons, elem_of_nil. tauto. }
  assert (Ha : a ∈ zips) by (rewrite Hz; by left).
  assert (Hb : b ∈ zips) by (rewrite Hz; right; by left).
  assert (Hc : c ∈ zips) by (rewrite Hz; right; right; by left).
  destruct Hcases as [Hm|[Hm|Hm]]; [exists a|exists b|exists c];
    (split; [done|]); (split; [|exact Hm]); (apply Hstrict; [done|]);
    intros g Hg Hne; destruct (Hin g Hg) as [-> | [-> | ->]];
    first [done | lia].
Qed.

End Locator.

(** ** The download *)

Section Download.

Context (host : Host).

Lemma download_events_calls (dest : string) (piped : option string)
    (events : list HttpsEvent) (w : World) :
  calls (snd (download_events dest piped events w)) = calls w.
Proof.
  revert piped w. induction events as [|[err|statusCode body| ] rest IH];
    intros piped w; cbn [download_events]; try reflexivity.
  - destruct (negb _); [reflexivity|].
    erewrite bind_ret by reflexivity. by rewrite IH.
  - destruct piped; [reflexivity|apply IH].
Qed.

(** Whatever happens, one request was made. *)
Lemma downloadFile_calls (url dest : string) (w : World) :
  calls (snd (downloadFile host url dest w)) = (calls w ++ [CallHttpsGet url])%list.
Proof.
  unfold downloadFile.
  erewrite bind_ret by reflexivity.
  destruct (decide (dest ∈ denied (with_call (CallHttpsGet url) w))) as [Hd|Hd].
  - erewrite bind_exit; cycle 1.
    { unfold open_write_stream.
      erewrite try_catch_throw by (by apply writeFileSync_denied).
      unfold error. by erewrite bind_ret by apply writeLog_logged. }
    reflexivity.
  - erewrite bind_ret; cycle 1.
    { unfold open_write_stream.
      by erewrite try_catch_ret by (by apply writeFileSync_written). }
    by rewrite download_events_calls.
Qed.

(** With a destination that can be written the handlers run over the events
    of the request. *)
Lemma downloadFile_events (url dest : string) (w : World) :
  dest ∉ denied w ->
  downloadFile host url dest w =
  download_events dest None (https_get host url) (requested url dest w).
Proof.
  intros Hd. unfold downloadFile.
  erewrite bind_ret by reflexivity.
  erewrite bind_ret; [reflexivity|].
  unfold open_write_stream.
  by erewrite try_catch_ret by (by apply writeFileSync_written).
Qed.

(** C6.  [downloadFile] makes one request, whatever comes of it, and none
    after a failure.  With a destination that can be opened for writing: a
    response whose status is not 200 fails the download with an error
    naming the status; an error event of the request fails it, before a
    response or while the body of one arrives; a response with status 200
    whose body is written to the end succeeds with the body in the
    destination file; so a response followed by the end of the writing
    fails the download exactly when its status is not 200; and a response
    with status 200 after which nothing is heard, as when the connection
    is lost while the body arrives and the request emits no error, does
    not fail the download: the promise stays pending.  With a destination
    that cannot be opened the download does not fail either: the error is
    not caught and the process leaves with status 1. *)
Theorem downloadFile_once (url dest : string) (w : World) :
  let events := https_get host url in
  let run := downloadFile host url dest w in
  calls (snd run) = (calls w ++ [CallHttpsGet url])%list /\
  requests url (calls (snd run)) = S (requests url (calls w)) /\
  (dest ∉ denied w ->
   (forall statusCode body rest,
      events = Response statusCode body :: rest -> statusCode <> 200 ->
      fst run = Throw (Error ("Download failed: " +:+ JS.show_Z statusCode))) /\
   (forall err rest, events = RequestError err :: rest -> fst run = Throw err) /\
   (forall body err rest,
      events = Response 200 body :: RequestError err :: rest -> fst run = Throw err) /\
   (forall body rest,
      events = Response 200 body :: Finish :: rest ->
      fst run = Ret tt /\ files (snd run) !! dest = Some body) /\
   (forall statusCode body rest,
      events = Response statusCode body :: Finish :: rest ->
      (fst run = Throw (Error ("Download failed: " +:+ JS.show_Z statusCode))
       <-> statusCode <> 200) /\
      (fst run = Ret tt <-> statusCode = 200)) /\
   (forall body, events = [Response 200 body] -> fst run = Hang)) /\
  (dest ∈ denied w -> fst run = Exit 1).
Proof.
  intros events run.
  assert (Hcalls := downloadFile_calls url dest w). fold run in Hcalls.
  split; [exact Hcalls|]. split.
  { rewrite Hcalls. unfold requests. rewrite filter_app, length_app.
    rewrite filter_cons_True by apply String.eqb_refl. cbn. lia. }
  split; cycle 1.
  { intros Hd. subst run. unfold downloadFile.
    erewrite bind_ret by reflexivity.
    erewrite bind_exit; cycle 1.
    { unfold open_write_stream.
      erewrite try_catch_throw by (by apply writeFileSync_denied).
      unfold error. by erewrite bind_ret by apply writeLog_logged. }
    reflexivity. }
  intros Hd. assert (Hrun := downloadFile_events url dest w Hd).
  fold events run in Hrun.
  assert (Hfail : forall statusCode body rest,
    events = Response statusCode body :: rest -> statusCode <> 200 ->
    fst run = Throw (Error ("Download failed: " +:+ JS.show_Z statusCode))).
  { intros statusCode body rest Hev Hne. rewrite Hrun, Hev. cbn [download_events].
    destruct (Z.eqb_spec statusCode 200); [done|reflexivity]. }
  assert (Hok : forall body rest,
    events = Response 200 body :: Finish :: rest ->
    fst run = Ret tt /\ files (snd run) !! dest = Some body).
  { intros body rest Hev. rewrite Hrun, Hev. cbn.
    split; [reflexivity|]. apply lookup_insert_eq. }
  split; [exact Hfail|]. split.
  { intros err rest Hev. by rewrite Hrun, Hev. }
  split.
  { intros body err rest Hev. by rewrite Hrun, Hev. }
  split; [exact Hok|]. split; cycle 1.
  { intros body Hev. by rewrite Hrun, Hev. }
  intros statusCode body rest Hev.
  destruct (decide (statusCode = 200)) as [->|Hne].
  - destruct (Hok body rest Hev) as [Hret _]. rewrite Hret. split; split; done.
  - rewrite (Hfail statusCode body _ Hev Hne). split; split; done.
Qed.

End Download.

(** C6 as stated fails.  The server answers 200 and the connection is lost
    while the body arrives, with no error of the request: the download
    does not fail, it stays pending.  And the server answers 404 while the
    destination cannot be opened: the download does not fail with the
    error of the status, the process leaves with status 1. *)
Lemma downloadFile_connection_lost :
  https_get cut_off DOWNLOAD_URL = [Response 200 "PK"] /\
  fst (downloadFile cut_off DOWNLOAD_URL (DOWNLOADER_ZIP cut_off) installed) = Hang /\
  (forall err,
     fst (downloadFile cut_off DOWNLOAD_URL (DOWNLOADER_ZIP cut_off) installed)
     <> Throw err) /\
  https_get not_found DOWNLOAD_URL = [Response 404 "Not Found"; Finish] /\
  DOWNLOADER_ZIP not_found ∈ denied read_only /\
  fst (downloadFile not_found DOWNLOAD_URL (DOWNLOADER_ZIP not_found) read_only) = Exit 1.
Proof.
  split; [reflexivity|]. split; [reflexivity|]. split; [done|].
  split; [reflexivity|]. split; [|reflexivity].
  apply (bool_decide_unpack _). by vm_compute.
Qed.

(** * The script at work

    The theorems above, applied on the Linux host of [Demo]. *)

(** C3 at work: the file that only switches the start of the server off is
    loaded as the defaults with that field changed. *)
Lemma loadConfig_merge_start_off :
  exists config,
    loadConfig Demo.linux configured = (Ret config, configured) /\
    config = <["startServer" := JBool false]> DEFAULT_CONFIG /\
    get config "startServer" = JBool false /\
    get config "cleanUp" = JBool true /\
    get config "javaArgs" = JStr "-Xms2G -Xmx4G -XX:AOTCache=HytaleServer.aot".
Proof.
  destruct (loadConfig_merge Demo.linux configured start_off_json start_off)
    as (config & Hrun & _ & _ & _ & Hflip).
  - split; [reflexivity|]. apply not_elem_of_empty.
  - reflexivity.
  - destruct (Hflip eq_refl) as (-> & _ & _).
    exists (<["startServer" := JBool false]> DEFAULT_CONFIG).
    split; [exact Hrun|]. split; [reflexivity|].
    split; [reflexivity|]. split; reflexivity.
Defined.

(** C4 at work: the default arguments, and a downloader that exits with
    status 0. *)
Lemma runDownloader_default_exit :
  fst (runDownloader Demo.linux DEFAULT_CONFIG "hytale-downloader-linux-amd64" installed)
    = Ret tt /\
  calls (snd (runDownloader Demo.linux DEFAULT_CONFIG
                "hytale-downloader-linux-amd64" installed)) =
  [CallSpawn "/srv/hytale/hytale-downloader/hytale-downloader-linux-amd64" [""]
     "/srv/hytale"].
Proof.
  destruct (runDownloader_split_and_exit Demo.linux DEFAULT_CONFIG
              "hytale-downloader-linux-amd64" "" installed eq_refl)
    as (_ & Hcalls & Hret & _).
  split; [|exact Hcalls].
  apply Hret. exists None, []. split; [reflexivity|]. by left.
Defined.

(** C5 at work: of the three archives the one modified last is found, and
    the other files of the directory do not count. *)
Lemma findNewestZip_of_three :
  fst (findNewestZip with_downloads "/srv/hytale" downloads) =
  Ret "/srv/hytale/2026.01.13-c.zip".
Proof.
  destruct (findNewestZip_latest with_downloads "/srv/hytale" downloads
              listing modified_at) as (_ & _ & _ & Hnewest & _).
  - reflexivity.
  - intros f Hf. apply list_elem_of_filter in Hf as [Hzip Hf].
    unfold listing in Hf.
    repeat (apply elem_of_cons in Hf as [-> | Hf]);
      first [reflexivity | discriminate Hzip | by apply elem_of_nil in Hf].
  - apply (Hnewest "2026.01.13-c.zip").
    + apply list_elem_of_filter. split; [reflexivity|].
      unfold listing. do 2 right. by left.
    + intros g Hg Hne. apply list_elem_of_filter in Hg as [Hzip Hg].
      unfold listing in Hg.
      repeat (apply elem_of_cons in Hg as [-> | Hg]);
        first [done | discriminate Hzip | by apply elem_of_nil in Hg].
Defined.

(** C9 at work: with the configuration loaded from the file that switches
    the start off, the launcher leaves with status 0 and spawns nothing. *)
Lemma startServer_skipped_start_off :
  exists w',
    startServer Demo.linux (<["startServer" := JBool false]> DEFAULT_CONFIG) configured
      = (Exit 0, w') /\
    calls w' = [] /\
    console w' = [mkLine Stdout "Server start skipped. Exiting..." None].
Proof.
  destruct (startServer_skipped Demo.linux
              (<["startServer" := JBool false]> DEFAULT_CONFIG) configured)
    as (w' & Hrun & -> & _ & _ & Hcalls & _).
  - reflexivity.
  - eexists. split; [exact Hrun|]. split; reflexivity.
Defined.

(** C1 at work: a list of the working directory, the root, [null] and the
    empty string leaves the world as it is. *)
Lemma deleteDirs_guard_untouched :
  deleteDirs Demo.linux [Some "/srv/hytale"; Some "/"; None; Some ""] installed =
  (Ret tt, installed).
Proof.
  destruct (deleteDirs_guard Demo.linux
              [Some "/srv/hytale"; Some "/"; None; Some ""] installed)
    as (_ & _ & _ & Hall).
  apply Hall. intros dir Hdir.
  repeat (apply elem_of_cons in Hdir as [-> | Hdir]);
    first [reflexivity | by apply elem_of_nil in Hdir].
Defined.

(** C2 at work: the banner of Java 30 is accepted. *)
Lemma checkJava_version_30 : fst (checkJava java30 installed) = Ret tt.
Proof.
  destruct (checkJava_version java30 installed)
    as (_ & _ & _ & _ & _ & _ & Haccepted & _).
  apply Haccepted. split.
  - intros [[err Herr] _]. discriminate Herr.
  - exists "30". split; [reflexivity|]. by vm_compute.
Defined.

(** C6 at work: the answer 404 fails the download, after one request. *)
Lemma downloadFile_once_404 :
  fst (downloadFile not_found DOWNLOAD_URL (DOWNLOADER_ZIP not_found) installed) =
    Throw (Error "Download failed: 404") /\
  calls (snd (downloadFile not_found DOWNLOAD_URL (DOWNLOADER_ZIP not_found) installed)) =
    [CallHttpsGet DOWNLOAD_URL].
Proof.
  destruct (downloadFile_once not_found DOWNLOAD_URL (DOWNLOADER_ZIP not_found) installed)
    as (Hcalls & _ & Hevents & _).
  split; [|exact Hcalls].
  destruct Hevents as (Hstatus & _); [apply not_elem_of_empty|].
  apply (Hstatus 404 "Not Found" [Finish]); [reflexivity|lia].
Defined.

(** C7 at work: on a Mac the script stops at the platform, with the log
    file emptied, no configuration file and no call made. *)
Lemma platform_resolver_mac :
  exists w',
    startup mac after_a_run = (Throw (Error "Unsupported OS: darwin"), w') /\
    files w' !! LOG_FILE mac = Some "" /\
    files w' !! CONFIG_FILE mac = None /\
    calls w' = [].
Proof.
  destruct (platform_resolver mac after_a_run) as (_ & _ & _ & _ & Hother).
  destruct Hother as (_ & w' & Hrun & -> & Hcalls & _ & Hfiles); [done|done|].
  eexists. split; [exact Hrun|]. split; [by vm_compute|].
  split; [|exact Hcalls]. by rewrite Hfiles.
Defined.

(** C8 at work: the configuration file cut short gives the defaults and an
    error on the console, and stays as it is. *)
Lemma loadConfig_degrades_broken :
  exists w',
    loadConfig Demo.linux broken = (Ret DEFAULT_CONFIG, w') /\
    last (console w') =
      Some (mkLine Stderr "Failed to load config.json: Unexpected token in JSON" None) /\
    files w' !! CONFIG_FILE Demo.linux = files broken !! CONFIG_FILE Demo.linux.
Proof.
  destruct (loadConfig_degrades Demo.linux broken) as (_ & Hbroken).
  destruct (Hbroken ("{" +:+ Demo.quoted "startServer") Demo.syntax_error)
    as (w' & Hrun & Hlast & _ & Hfile).
  - split; [reflexivity|]. apply not_elem_of_empty.
  - reflexivity.
  - exists w'. split; [exact Hrun|]. split; [exact Hlast|].
    rewrite Hfile by done. reflexivity.
Defined.

(** C10 at work: by default the downloader gets one empty argument. *)
Lemma empty_argument_string_default :
  calls (snd (runDownloader Demo.linux DEFAULT_CONFIG
                "hytale-downloader-linux-amd64" installed)) =
  [CallSpawn "/srv/hytale/hytale-downloader/hytale-downloader-linux-amd64" [""]
     "/srv/hytale"].
Proof.
  destruct (empty_argument_string Demo.linux installed) as (_ & Hdownloader & _).
  apply (Hdownloader DEFAULT_CONFIG "hytale-downloader-linux-amd64"). reflexivity.
Defined.

(** The guard of the cleanup: the working directory, the root, [null] and
    the empty string are passed over, the two directories of the install
    are removed. *)
Example deleteDirs_installed :
  let run := deleteDirs Demo.linux
               [Some "/srv/hytale"; Some "/"; None; Some "";
                Some "/srv/hytale/hytale-downloader"; Some "/srv/hytale/Server"]
               installed in
  fst run = Ret tt /\
  calls (snd run) = [CallRm "/srv/hytale/hytale-downloader"; CallRm "/srv/hytale/Server"] /\
  map_to_list (files (snd run)) = [("/srv/hytale/HytaleServer.jar", "PK")].
Proof. by vm_compute. Qed.

Example deleteDirs_working_directory :
  deleteDirs Demo.linux [Some "/srv/hytale"; Some "/"] installed = (Ret tt, installed).
Proof. reflexivity. Qed.

(** The Java check on the banners of three runtimes and without one. *)
Example checkJava_30 : fst (checkJava java30 installed) = Ret tt.
Proof. reflexivity. Qed.

Example checkJava_30_version :
  version_match ("openjdk version " +:+ Demo.quoted "30.0.1" +:+ " 2026-03-17")
  = Some "30".
Proof. reflexivity. Qed.

Example checkJava_17 :
  fst (checkJava java17 installed) =
  Throw (Error "Java 17 was detected but 25+ is required").
Proof. reflexivity. Qed.

Example checkJava_no_banner :
  fst (checkJava without_java installed) = Throw (Error "Cannot parse Java version").
Proof. reflexivity. Qed.

Example checkJava_no_output :
  fst (checkJava (Demo.host "linux" (mkExec (Some (Error "spawn /bin/sh ENOENT")) "" "")
                    [] [] []) installed) =
  Throw (Error "Java not installed or not accessible").
Proof. reflexivity. Qed.

(** An argument in quotes is split at its space like any other text. *)
Example split_space_quotes :
  JS.split_space ("--name " +:+ Demo.quoted "my server") =
  ["--name"; JS.dq +:+ "my"; "server" +:+ JS.dq].
Proof. reflexivity. Qed.

Example split_space_two_spaces : JS.split_space "a  b" = ["a"; ""; "b"].
Proof. reflexivity. Qed.

(** The download that is answered with status 404, and the one whose
    downloader is killed. *)
Example downloadFile_404 :
  fst (downloadFile not_found DOWNLOAD_URL (DOWNLOADER_ZIP not_found) installed) =
  Throw (Error "Download failed: 404").
Proof. reflexivity. Qed.

Example downloadFile_200 :
  let run := downloadFile Demo.linux DOWNLOAD_URL (DOWNLOADER_ZIP Demo.linux) installed in
  fst run = Ret tt /\
  files (snd run) !! "/srv/hytale/hytale-downloader.zip" = Some "PK" /\
  calls (snd run) = [CallHttpsGet DOWNLOAD_URL].
Proof. by vm_compute. Qed.

Example runDownloader_killed :
  fst (runDownloader killed DEFAULT_CONFIG "hytale-downloader-linux-amd64" installed) =
  Throw (Error "Downloader terminated by signal SIGKILL").
Proof. reflexivity. Qed.

(** A configuration file cut short: the defaults, an error on the console,
    the file as it was. *)
Example loadConfig_broken :
  let run := loadConfig Demo.linux broken in
  fst run = Ret DEFAULT_CONFIG /\
  console (snd run) =
    [mkLine Stderr "Failed to load config.json: Unexpected token in JSON" None] /\
  files (snd run) !! CONFIG_FILE Demo.linux = files broken !! CONFIG_FILE Demo.linux.
Proof. by vm_compute. Qed.

(** A fresh directory: the defaults are written and returned, and loading
    the file just written gives them again. *)
Example loadConfig_fresh :
  let run := loadConfig Demo.linux (Demo.world ∅) in
  fst run = Ret DEFAULT_CONFIG /\
  files (snd run) !! CONFIG_FILE Demo.linux = Some (Demo.stringify DEFAULT_CONFIG) /\
  fst (loadConfig Demo.linux (snd run)) = Ret DEFAULT_CONFIG.
Proof. by vm_compute. Qed.

(** The server on the default configuration. *)
Example startServer_default :
  calls (snd (startServer Demo.linux DEFAULT_CONFIG installed)) =
  [CallSpawn "java"
     ["-Xms2G"; "-Xmx4G"; "-XX:AOTCache=HytaleServer.aot"; "-jar"; "HytaleServer.jar";
      "--assets"; "Assets.zip"; "--bind"; "5520"] "/srv/hytale"].
Proof. reflexivity. Qed.

(** * Further properties of the script *)

(** ** The logger *)

Section LoggerProperties.

Context (host : Host).

(** X1.  Logging is best effort: [writeLog] always returns; the message is
    the last line on the console, on the error stream for the level ERROR
    and on the output stream otherwise; no call is made and no file but the
    log file changes.  When the log file can be written the line with the
    time, the level and the message is appended to what it held; when it
    cannot, no file changes at all and the console also gets the complaint
    with the error. *)
Theorem writeLog_best_effort (level msg : string) (w : World) :
  exists w',
    writeLog host level msg w = (Ret tt, w') /\
    last (console w') =
      Some (mkLine (if String.eqb level "ERROR" then Stderr else Stdout) msg None) /\
    calls w' = calls w /\
    denied w' = denied w /\
    (forall p, p ≠ LOG_FILE host -> files w' !! p = files w !! p) /\
    (LOG_FILE host ∉ denied w ->
     files w' !! LOG_FILE host =
       Some (default "" (files w !! LOG_FILE host) +:+
             "[" +:+ Date_toISOString host (clock_reads w) +:+ "] [" +:+ level +:+ "] "
                 +:+ msg +:+ JS.LF) /\
     length (console w') = S (length (console w))) /\
    (LOG_FILE host ∈ denied w ->
     files w' = files w /\
     console w' =
       (console w ++
        [mkLine Stderr "Failed to write log:"
           (Some (fs_error "EACCES: permission denied" "open" (LOG_FILE host)));
         mkLine (if String.eqb level "ERROR" then Stderr else Stdout) msg None])%list).
Proof.
  exists (logged host level msg w).
  split; [apply writeLog_logged|]. split; [apply logged_console_last|].
  split; [reflexivity|]. split; [reflexivity|].
  split; [intros p; apply logged_files_other|].
  unfold logged, logged_console, log_line. cbn [files console]. split.
  - intros Hd. rewrite bool_decide_eq_false_2 by done.
    split; [apply lookup_insert_eq|].
    cbn [app]. rewrite length_app. cbn. lia.
  - intros Hd. by rewrite bool_decide_eq_true_2 by done.
Qed.

(** X2.  Two entries logged one after the other are appended to a log file
    that can be written in that order, after what the file held, each with
    the time read for it, and their messages reach the console in that
    order. *)
Theorem writeLog_in_order (level1 msg1 level2 msg2 : string) (w : World) :
  LOG_FILE host ∉ denied w ->
  exists w',
    (writeLog host level1 msg1 ;; writeLog host level2 msg2) w = (Ret tt, w') /\
    files w' !! LOG_FILE host =
      Some (default "" (files w !! LOG_FILE host) +:+
            ("[" +:+ Date_toISOString host (clock_reads w) +:+ "] [" +:+ level1 +:+ "] "
                 +:+ msg1 +:+ JS.LF) +:+
            ("[" +:+ Date_toISOString host (S (clock_reads w)) +:+ "] [" +:+ level2 +:+ "] "
                 +:+ msg2 +:+ JS.LF)) /\
    map text (console w') = (map text (console w) ++ [msg1; msg2])%list.
Proof.
  intros Hd. eexists. split.
  { erewrite bind_ret by apply writeLog_logged. apply writeLog_logged. }
  unfold logged, logged_console, log_line. cbn [files denied console clock_reads].
  rewrite !bool_decide_eq_false_2 by done. split.
  - rewrite !lookup_insert_eq. cbn [default]. f_equal. apply app_assoc_s.
  - cbn [app]. rewrite !map_app. cbn. by rewrite <- app_assoc.
Qed.

End LoggerProperties.

(** ** The configuration file *)

Section ConfigProperties.

Context (host : Host).

(** X3.  Without a configuration file [loadConfig] returns the defaults.
    When the file can be written it is created with the text of the
    defaults and the creation is logged; when it cannot, no file is created
    and the error is logged instead. *)
Theorem loadConfig_missing_file (w : World) :
  files w !! CONFIG_FILE host = None ->
  (CONFIG_FILE host ∉ denied w ->
   exists w',
     loadConfig host w = (Ret DEFAULT_CONFIG, w') /\
     w' = logged host "INFO" "Created default installer-config.json"
            (set_files (<[CONFIG_FILE host := JSON_stringify host DEFAULT_CONFIG]>
                          (files w)) w) /\
     (CONFIG_FILE host ≠ LOG_FILE host ->
      files w' !! CONFIG_FILE host = Some (JSON_stringify host DEFAULT_CONFIG)) /\
     last (console w') =
       Some (mkLine Stdout "Created default installer-config.json" None) /\
     (forall p, p ≠ CONFIG_FILE host -> p ≠ LOG_FILE host ->
                files w' !! p = files w !! p)) /\
  (CONFIG_FILE host ∈ denied w ->
   exists w',
     loadConfig host w = (Ret DEFAULT_CONFIG, w') /\
     (CONFIG_FILE host ≠ LOG_FILE host -> files w' !! CONFIG_FILE host = None) /\
     last (console w') =
       Some (mkLine Stderr
               ("Failed to load config.json: " +:+
                message (fs_error "EACCES: permission denied" "open" (CONFIG_FILE host)))
               None)).
Proof.
  intros Habsent. split; intros Hd.
  - eexists. split.
    { unfold loadConfig. apply try_catch_ret.
      erewrite bind_ret by (by apply existsSync_absent). cbn [negb].
      erewrite bind_ret by (by apply writeFileSync_written).
      unfold log. by erewrite bind_ret by apply writeLog_logged. }
    split; [reflexivity|]. split.
    { intros Hne. rewrite logged_files_other by done. apply lookup_insert_eq. }
    split; [apply logged_console_last|].
    intros p Hc Hl. rewrite logged_files_other by done.
    cbn. by rewrite lookup_insert_ne.
  - eexists. split.
    { unfold loadConfig. erewrite try_catch_throw; cycle 1.
      { erewrite bind_ret by (by apply existsSync_absent). cbn [negb].
        by erewrite bind_throw by (by apply writeFileSync_denied). }
      unfold error. by erewrite bind_ret by apply writeLog_logged. }
    split; [|apply logged_console_last].
    intros Hne. by rewrite logged_files_other by done.
Qed.

(** Where [loadConfig] leaves the world: as it was, after one log entry, or
    after the creation of the file and one log entry, and the last only when
    there was no file. *)
Lemma loadConfig_world (w : World) :
  exists config w',
    loadConfig host w = (Ret config, w') /\
    (w' = w \/
     (exists level msg, w' = logged host level msg w) \/
     (files w !! CONFIG_FILE host = None /\
      exists level msg data,
        w' = logged host level msg
               (set_files (<[CONFIG_FILE host := data]> (files w)) w))).
Proof.
  destruct (files w !! CONFIG_FILE host) as [raw|] eqn:Hfile.
  - destruct (decide (CONFIG_FILE host ∈ denied w)) as [Hd|Hd].
    + do 2 eexists. split.
      { unfold loadConfig. erewrite try_catch_throw; cycle 1.
        { erewrite bind_ret by (by eapply existsSync_present). cbn [negb].
          by erewrite bind_throw by (by eapply readFileSync_denied). }
        unfold error. by erewrite bind_ret by apply writeLog_logged. }
      right; left. eauto.
    + destruct (JSON_parse host raw) as [err|parsed] eqn:Hparse.
      * do 2 eexists. split; [by apply (loadConfig_unparsable host w raw)|].
        right; left. eauto.
      * do 2 eexists. split; [by apply (loadConfig_parsed host w raw)|]. by left.
  - destruct (decide (CONFIG_FILE host ∈ denied w)) as [Hd|Hd].
    + do 2 eexists. split.
      { unfold loadConfig. erewrite try_catch_throw; cycle 1.
        { erewrite bind_ret by (by apply existsSync_absent). cbn [negb].
          by erewrite bind_throw by (by apply writeFileSync_denied). }
        unfold error. by erewrite bind_ret by apply writeLog_logged. }
      right; left. eauto.
    + do 2 eexists. split.
      { unfold loadConfig. apply try_catch_ret.
        erewrite bind_ret by (by apply existsSync_absent). cbn [negb].
        erewrite bind_ret by (by apply writeFileSync_written).
        unfold log. by erewrite bind_ret by apply writeLog_logged. }
      right; right. split; [reflexivity|]. eauto.
Qed.

(** X4.  [loadConfig] never changes a configuration file that is there:
    whether the file is read, cannot be read or does not parse, it holds
    afterwards what it held before; and no call is made. *)
Theorem loadConfig_keeps_file (w : World) (raw : string) :
  files w !! CONFIG_FILE host = Some raw ->
  CONFIG_FILE host ≠ LOG_FILE host ->
  files (snd (loadConfig host w)) !! CONFIG_FILE host = Some raw /\
  calls (snd (loadConfig host w)) = calls w.
Proof.
  intros Hfile Hne.
  destruct (loadConfig_world w) as (config & w' & -> & Hw). cbn [snd].
  destruct Hw as [-> | [(level & msg & ->) | (Habsent & _)]].
  - done.
  - by rewrite logged_files_other.
  - congruence.
Qed.

(** The defaults laid over with their own properties are the defaults. *)
Lemma spread_same (o : JSObject) (v : JSValue) :
  (forall k, binding k (own_props v) = o !! k) -> spread o v = o.
Proof.
  intros Hsame. apply map_eq. intros k. rewrite spread_lookup, Hsame.
  by destruct (o !! k).
Qed.

(** X5.  Round trip of the defaults.  On a host whose [JSON.parse] reads
    the text [JSON.stringify] writes for the defaults back with the same
    properties, loading the configuration in a directory without one
    creates the file and returns the defaults, and loading it again returns
    the defaults again and changes nothing. *)
Theorem loadConfig_round_trip (w : World) (v : JSValue) :
  files w !! CONFIG_FILE host = None ->
  CONFIG_FILE host ∉ denied w ->
  CONFIG_FILE host ≠ LOG_FILE host ->
  JSON_parse host (JSON_stringify host DEFAULT_CONFIG) = inr v ->
  (forall k, binding k (own_props v) = DEFAULT_CONFIG !! k) ->
  exists w',
    loadConfig host w = (Ret DEFAULT_CONFIG, w') /\
    files w' !! CONFIG_FILE host = Some (JSON_stringify host DEFAULT_CONFIG) /\
    loadConfig host w' = (Ret DEFAULT_CONFIG, w').
Proof.
  intros Habsent Hd Hne Hparse Hsame.
  eexists. split.
  { unfold loadConfig. apply try_catch_ret.
    erewrite bind_ret by (by apply existsSync_absent). cbn [negb].
    erewrite bind_ret by (by apply writeFileSync_written).
    unfold log. by erewrite bind_ret by apply writeLog_logged. }
  assert (Hfile : files
            (logged host "INFO" "Created default installer-config.json"
               (set_files (<[CONFIG_FILE host := JSON_stringify host DEFAULT_CONFIG]>
                             (files w)) w)) !! CONFIG_FILE host
          = Some (JSON_stringify host DEFAULT_CONFIG)).
  { rewrite logged_files_other by done. apply lookup_insert_eq. }
  split; [exact Hfile|].
  erewrite loadConfig_parsed; [|split; [exact Hfile|exact Hd]|exact Hparse].
  by rewrite spread_same.
Qed.

Lemma all_digits_pretty_go (x : N) (s : string) :
  all_digits (pretty_N_go x s) = all_digits s.
Proof.
  revert s. induction (N.lt_wf_0 x) as [x _ IH]; intros s.
  destruct (decide (x = 0%N)) as [->|Hx]; [by rewrite pretty_N_go_0|].
  rewrite pretty_N_go_step by lia. rewrite IH by (apply N.div_lt; lia).
  cbn [all_digits]. replace (JS.is_digit (pretty_N_char (x `mod` 10))) with true;
    [reflexivity|].
  unfold pretty_N_char. by repeat case_match.
Qed.

(** The keys of the elements of an array are runs of digits. *)
Lemma all_digits_pretty_nat (i : nat) : all_digits (pretty i) = true.
Proof.
  unfold pretty, pretty_nat, pretty, pretty_N.
  case_decide; [reflexivity|]. apply all_digits_pretty_go.
Qed.

Lemma binding_indexed {A : Type} (f : A -> JSValue) (k : string) (i : nat)
    (items : list A) :
  all_digits k = false -> binding k (indexed i (map f items)) = None.
Proof.
  intros Hk. revert i. induction items as [|x items IH]; intros i; [reflexivity|].
  cbn [map indexed binding]. rewrite IH.
  destruct (String.eqb_spec k (pretty i)) as [->|_]; [|reflexivity].
  by rewrite all_digits_pretty_nat in Hk.
Qed.

Lemma binding_not_an_object (v : JSValue) (k : string) :
  not_an_object v -> all_digits k = false -> binding k (own_props v) = None.
Proof.
  intros Hv Hk. destruct v as [| | | |s|items|props]; try reflexivity.
  - cbn [own_props]. rewrite <- (map_id (chars s)). by apply binding_indexed.
  - cbn [own_props]. rewrite <- (map_id items). by apply binding_indexed.
  - destruct Hv.
Qed.

(** X6.  A configuration file whose JSON is no object changes no field:
    for [null], a boolean or a number the defaults themselves are returned,
    and for a string or an array, whose elements are copied under their
    indices, the five fields still hold their defaults. *)
Theorem loadConfig_not_an_object (w : World) (raw : string) (parsed : JSValue) :
  config_file_holds host w raw ->
  JSON_parse host raw = inr parsed ->
  not_an_object parsed ->
  exists config,
    loadConfig host w = (Ret config, w) /\
    (forall k, k ∈ config_keys -> get config k = get DEFAULT_CONFIG k) /\
    (forall k, all_digits k = false -> config !! k = DEFAULT_CONFIG !! k) /\
    (primitive parsed -> config = DEFAULT_CONFIG).
Proof.
  intros Hfile Hparse Hv. exists (spread DEFAULT_CONFIG parsed).
  split; [by apply (loadConfig_parsed host w raw)|].
  assert (Hkeep : forall k, all_digits k = false ->
            spread DEFAULT_CONFIG parsed !! k = DEFAULT_CONFIG !! k).
  { intros k Hk. rewrite spread_lookup. by rewrite binding_not_an_object. }
  split.
  - intros k Hk. unfold get. rewrite Hkeep; [reflexivity|].
    unfold config_keys in Hk.
    repeat (apply elem_of_cons in Hk as [-> | Hk]); try reflexivity.
    by apply elem_of_nil in Hk.
  - split; [exact Hkeep|]. intros Hprim. by destruct parsed.
Qed.

End ConfigProperties.

(** ** Arguments, the downloader and the server *)

Section ArgumentProperties.

Lemma join_space_app (l1 l2 : list string) :
  l1 <> [] -> l2 <> [] ->
  JS.join_space (l1 ++ l2) = JS.join_space l1 +:+ " " +:+ JS.join_space l2.
Proof.
  intros H1 H2. induction l1 as [|a l1 IH]; [done|].
  destruct l1 as [|b l1].
  - destruct l2 as [|c l2]; [done|]. reflexivity.
  - change (JS.join_space ((a :: b :: l1) ++ l2))
      with (a +:+ " " +:+ JS.join_space ((b :: l1) ++ l2)).
    rewrite IH by done.
    change (JS.join_space (a :: b :: l1))
      with (a +:+ " " +:+ JS.join_space (b :: l1)).
    by rewrite !app_assoc_s.
Qed.

(** X7.  Splitting undoes joining: pieces without a space, at least one of
    them, joined with single spaces and split again are the same pieces;
    and a string is split into one piece more than it has spaces, so
    spaces at the start, at the end or in a row give empty arguments. *)
Theorem split_space_join (pieces : list string) (s : string) :
  (pieces <> [] ->
   Forall (fun piece => JS.has_space piece = false) pieces ->
   JS.split_space (JS.join_space pieces) = pieces) /\
  length (JS.split_space s) = S (spaces s).
Proof.
  split.
  - intros Hne Hall. induction pieces as [|p rest IH]; [done|].
    inversion Hall as [|? ? Hp Hrest]; subst.
    destruct rest as [|q rest].
    + by apply split_space_word.
    + change (JS.join_space (p :: q :: rest))
        with (p +:+ " " +:+ JS.join_space (q :: rest)).
      rewrite split_space_app, IH by done.
      by rewrite split_space_word.
  - induction s as [|c s IH]; [reflexivity|].
    cbn [JS.split_space spaces].
    destruct (Ascii.eqb c " "); [cbn; by rewrite IH|].
    pose proof (split_space_nonempty s).
    destruct (JS.split_space s); [done|exact IH].
Qed.

End ArgumentProperties.

Section ServerProperties.

Context (host : Host).

Lemma split_of_string (name : string) (v : JSValue) :
  is_string v \/ exists err, split_of name v = inl err /\ exn_name err = "TypeError".
Proof. destruct v; try (right; eexists; split; reflexivity). left. by eexists. Qed.

Lemma split_of_inl (name : string) (v : JSValue) (err : Exn) :
  split_of name v = inl err -> ~ is_string v /\ exn_name err = "TypeError".
Proof.
  destruct v; cbn; intros [= <-]; (split; [by intros [? [=]]|reflexivity]).
Qed.

(** X8.  How [startServer] ends.  It leaves the process with status 0
    exactly when [startServer] is falsy in the configuration, so the string
    [false] does start the server; it returns, with one process spawned,
    exactly when the flag is truthy and both argument fields are strings;
    and with a truthy flag and an argument field that is no string it
    throws a [TypeError] in the world it was called in: nothing was logged
    or spawned. *)
Theorem startServer_outcomes (config : JSObject) (w : World) :
  ((exists w', startServer host config w = (Exit 0, w')) <->
   truthy (get config "startServer") = false) /\
  truthy (JStr "false") = true /\
  ((exists w', startServer host config w = (Ret tt, w')) <->
   truthy (get config "startServer") = true /\
   is_string (get config "javaArgs") /\ is_string (get config "hytaleArgs")) /\
  (truthy (get config "startServer") = true ->
   ~ (is_string (get config "javaArgs") /\ is_string (get config "hytaleArgs")) ->
   exists err, startServer host config w = (Throw err, w) /\
               exn_name err = "TypeError").
Proof.
  destruct (truthy (get config "startServer")) eqn:Hstart.
  - assert (Hrun : startServer host config w =
      match split_of "config.javaArgs" (get config "javaArgs") with
      | inl err => (Throw err, w)
      | inr args =>
          match split_of "config.hytaleArgs" (get config "hytaleArgs") with
          | inl err => (Throw err, w)
          | inr hytaleArgs =>
              (log host "Starting server with:" ;;
               log host ("java " +:+ JS.join_space
                   (args ++ ["-jar"; "HytaleServer.jar"] ++ hytaleArgs)%list) ;;
               record_call (CallSpawn "java"
                   (args ++ ["-jar"; "HytaleServer.jar"] ++ hytaleArgs)%list
                   (RUNTIME_DIR host))) w
          end
      end).
    { unfold startServer. rewrite Hstart. cbn [negb].
      erewrite bind_ret by reflexivity.
      destruct (split_of _ (get config "javaArgs")); [reflexivity|].
      by destruct (split_of _ (get config "hytaleArgs")). }
    assert (Hspawn : forall args hytaleArgs, exists w',
      (log host "Starting server with:" ;;
       log host ("java " +:+ JS.join_space
           (args ++ ["-jar"; "HytaleServer.jar"] ++ hytaleArgs)%list) ;;
       record_call (CallSpawn "java"
           (args ++ ["-jar"; "HytaleServer.jar"] ++ hytaleArgs)%list
           (RUNTIME_DIR host))) w = (Ret tt, w')).
    { intros args hytaleArgs. unfold log.
      erewrite bind_ret by apply writeLog_logged.
      erewrite bind_ret by apply writeLog_logged. by eexists. }
    rewrite Hrun. split.
    { split; [|done]. intros [w' H].
      destruct (split_of _ (get config "javaArgs")); [done|].
      destruct (split_of _ (get config "hytaleArgs")); [done|].
      destruct (Hspawn l l0) as [w'' Hw]. rewrite Hw in H. done. }
    split; [reflexivity|]. split.
    + split.
      * intros [w' H]. split; [reflexivity|].
        destruct (get config "javaArgs"); try done.
        destruct (get config "hytaleArgs"); try done.
        split; by eexists.
      * intros (_ & [j ->] & [h ->]). cbn [split_of]. apply Hspawn.
    + intros _ Hnot.
      destruct (split_of "config.javaArgs" (get config "javaArgs")) as [err|args] eqn:Hj.
      { apply split_of_inl in Hj as [_ Herr]. eauto. }
      destruct (split_of "config.hytaleArgs" (get config "hytaleArgs"))
        as [err|hytaleArgs] eqn:Hh.
      { apply split_of_inl in Hh as [_ Herr]. eauto. }
      destruct Hnot. split.
      * destruct (get config "javaArgs"); try done. by eexists.
      * destruct (get config "hytaleArgs"); try done. by eexists.
  - rewrite (startServer_falsy host config w Hstart). split.
    { split; [done|]. by eexists. }
    split; [reflexivity|]. split; [|done].
    split; [by intros [? ?]|by intros [? _]].
Qed.

(** X9.  The command line of the server: with string arguments the launcher
    spawns [java] once, in the installation directory, and the line it logs
    before is [java], the Java arguments as configured, [-jar
    HytaleServer.jar] and the server arguments as configured, character for
    character. *)
Theorem startServer_command_line (config : JSObject) (java hytale : string) (w : World) :
  truthy (get config "startServer") = true ->
  get config "javaArgs" = JStr java ->
  get config "hytaleArgs" = JStr hytale ->
  exists w',
    startServer host config w = (Ret tt, w') /\
    last (console w') =
      Some (mkLine Stdout ("java " +:+ java +:+ " -jar HytaleServer.jar " +:+ hytale) None) /\
    exists args,
      calls w' = (calls w ++ [CallSpawn "java" args (RUNTIME_DIR host)])%list /\
      JS.join_space args = java +:+ " -jar HytaleServer.jar " +:+ hytale.
Proof.
  intros Hstart Hjava Hhytale.
  assert (Hjoin : JS.join_space
            (JS.split_space java ++ ["-jar"; "HytaleServer.jar"] ++ JS.split_space hytale)
          = java +:+ " -jar HytaleServer.jar " +:+ hytale).
  { rewrite join_space_app; [|apply split_space_nonempty|done].
    rewrite join_split_space.
    change (["-jar"; "HytaleServer.jar"] ++ JS.split_space hytale)%list
      with (["-jar"] ++ (["HytaleServer.jar"] ++ JS.split_space hytale))%list.
    rewrite (join_space_app ["-jar"]); [|done|done].
    rewrite (join_space_app ["HytaleServer.jar"]); [|done|apply split_space_nonempty].
    by rewrite join_split_space. }
  eexists. split.
  { unfold startServer. rewrite Hstart, Hjava, Hhytale. cbn [negb split_of].
    erewrite bind_ret by reflexivity. unfold log.
    erewrite bind_ret by apply writeLog_logged.
    erewrite bind_ret by apply writeLog_logged. reflexivity. }
  split.
  - unfold with_call. cbn [console]. rewrite logged_console_last.
    cbn [String.eqb]. by rewrite Hjoin.
  - eexists. split; [reflexivity|exact Hjoin].
Qed.

(** X10.  The other ways [runDownloader] ends.  With arguments that are no
    string it throws a [TypeError] and spawns nothing; an error of the child
    as its first event, such as a downloader that cannot be started, is
    thrown as it is; and while the child emits nothing the promise stays
    pending: there is no timeout. *)
Theorem runDownloader_other_ends (config : JSObject) (exe : string) (w : World) :
  (~ is_string (get config "downloaderArgs") ->
   exists err, runDownloader host config exe w = (Throw err, w) /\
               exn_name err = "TypeError") /\
  (forall s, get config "downloaderArgs" = JStr s ->
     let events := child_process_spawn host (path_resolve host (EXTRACT_DIR host) exe)
                     (JS.split_space s) (RUNTIME_DIR host) in
     (forall err rest, events = ChildError err :: rest ->
                       fst (runDownloader host config exe w) = Throw err) /\
     (events = [] -> fst (runDownloader host config exe w) = Hang)).
Proof.
  split.
  - intros Hnot. unfold runDownloader.
    destruct (split_of "config.downloaderArgs" (get config "downloaderArgs"))
      as [err|args] eqn:Hs.
    + apply split_of_inl in Hs as [_ Herr]. eauto.
    + destruct Hnot. destruct (get config "downloaderArgs"); try done. by eexists.
  - intros s Hs events.
    assert (Hrun := runDownloader_spawns host config exe s w Hs). cbn zeta in Hrun.
    fold events in Hrun. rewrite Hrun. split.
    + by intros err rest ->.
    + by intros ->.
Qed.

End ServerProperties.

(** ** The version query *)

Section TrimProperties.

Lemma trimStart_no_space (s : string) : starts_with_space (JS.trimStart s) = false.
Proof.
  induction s as [|c s IH]; [reflexivity|]. cbn [JS.trimStart].
  destruct (JS.is_space c) eqn:Hc; [exact IH|]. cbn. exact Hc.
Qed.

Lemma all_space_ends (s : string) :
  s <> "" -> JS.all_space s = true -> ends_with_space s = true.
Proof.
  induction s as [|c s IH]; [done|]. intros _ Hs.
  cbn [JS.all_space] in Hs. apply andb_prop in Hs as [Hc Hs].
  destruct s as [|d s]; [exact Hc|]. by apply IH.
Qed.

Lemma trimEnd_split (s : string) :
  exists spaces, s = JS.trimEnd s +:+ spaces /\ JS.all_space spaces = true.
Proof.
  induction s as [|c s (sp & IH & Hsp)]; [by exists ""|].
  cbn [JS.trimEnd]. destruct (JS.all_space (String c s)) eqn:Hall.
  - by exists (String c s).
  - exists sp. split; [|exact Hsp]. cbn. by rewrite <- IH.
Qed.

Lemma trimEnd_no_space (s : string) : ends_with_space (JS.trimEnd s) = false.
Proof.
  induction s as [|c s IH]; [reflexivity|]. cbn [JS.trimEnd].
  destruct (JS.all_space (String c s)) eqn:Hall; [reflexivity|].
  cbn [ends_with_space]. destruct (JS.trimEnd s) as [|d t] eqn:Ht; [|exact IH].
  destruct (trimEnd_split s) as (sp & Hs & Hsp). rewrite Ht in Hs. cbn in Hs. subst sp.
  cbn [JS.all_space] in Hall. rewrite Hsp, andb_true_r in Hall. exact Hall.
Qed.

Lemma trimEnd_start (s : string) :
  starts_with_space s = false -> starts_with_space (JS.trimEnd s) = false.
Proof.
  destruct s as [|c s]; [done|]. cbn [JS.trimEnd starts_with_space]. intros Hc.
  destruct (JS.all_space (String c s)) eqn:Hall; [reflexivity|exact Hc].
Qed.

(** [trim] takes white space off the two ends and nothing else. *)
Lemma trim_split (s : string) :
  exists before after,
    s = before +:+ JS.trim s +:+ after /\
    JS.all_space before = true /\ JS.all_space after = true /\
    starts_with_space (JS.trim s) = false /\ ends_with_space (JS.trim s) = false.
Proof.
  unfold JS.trim.
  destruct (trimStart_split s) as (before & Hs & Hb).
  destruct (trimEnd_split (JS.trimStart s)) as (after & Ht & Ha).
  exists before, after. split; [by rewrite <- Ht|].
  split; [exact Hb|]. split; [exact Ha|].
  split; [apply trimEnd_start, trimStart_no_space|apply trimEnd_no_space].
Qed.

End TrimProperties.

Section JavaProperties.

Context (host : Host).

Lemma execAsync_world (cmd : string) (w : World) :
  snd (execAsync host cmd w) = with_call (CallExec cmd) w.
Proof.
  unfold execAsync. erewrite bind_ret by reflexivity.
  destruct (exec_err _); [destruct (JS.is_empty _)|]; reflexivity.
Qed.

(** X11.  [execAsync] runs the command once and touches nothing else.  It
    rejects, with the error of [exec], only when [exec] failed and wrote
    nothing to the standard error stream; a command that failed but wrote
    there resolves like one that succeeded, with the two streams one after
    the other and the white space at the two ends, and nothing else, taken
    off. *)
Theorem execAsync_outcomes (cmd : string) (w : World) :
  let r := child_process_exec host cmd in
  let out := JS.trim (stdout r +:+ stderr r) in
  snd (execAsync host cmd w) = with_call (CallExec cmd) w /\
  (forall err, fst (execAsync host cmd w) = Throw err <->
               exec_err r = Some err /\ stderr r = "") /\
  (~ exec_rejected r -> fst (execAsync host cmd w) = Ret out) /\
  (exists before after,
     stdout r +:+ stderr r = before +:+ out +:+ after /\
     JS.all_space before = true /\ JS.all_space after = true /\
     starts_with_space out = false /\ ends_with_space out = false).
Proof.
  intros r out. split; [apply execAsync_world|].
  unfold execAsync. erewrite bind_ret by reflexivity. fold r out.
  split; [|split; [|apply trim_split]].
  - intros err. destruct (exec_err r) as [e|]; [destruct (stderr r) as [|c s] eqn:Hs|];
      cbn; split; try done.
    + by intros [= ->].
    + by intros [[= ->] _].
    + by intros [_ ?].
    + by intros [? _].
  - intros Hn. destruct (exec_err r) as [e|] eqn:He; [|reflexivity].
    destruct (stderr r) as [|c s] eqn:Hs; [|reflexivity].
    destruct Hn. split; [by eexists|exact Hs].
Qed.


End JavaProperties.

Section TrimAndMatch.

Lemma space_not_digit (c : ascii) : JS.is_space c = true -> JS.is_digit c = false.
Proof. destruct c as [[] [] [] [] [] [] [] []]; vm_compute; congruence. Qed.

Lemma space_not_v (c : ascii) : JS.is_space c = true -> Ascii.eqb (lower c) "v" = false.
Proof. destruct c as [[] [] [] [] [] [] [] []]; vm_compute; congruence. Qed.

Lemma version_at_space (c : ascii) (s : string) :
  JS.is_space c = true -> version_at (String c s) = None.
Proof. intros Hc. unfold version_at. cbn [after_word]. by rewrite space_not_v. Qed.

Lemma version_at_all_space (s : string) :
  JS.all_space s = true -> version_at s = None.
Proof.
  destruct s as [|c s]; [reflexivity|]. cbn [JS.all_space]. intros H.
  apply andb_prop in H as [Hc _]. by apply version_at_space.
Qed.

Lemma version_match_all_space (s : string) :
  JS.all_space s = true -> version_match s = None.
Proof.
  induction s as [|c s IH]; [reflexivity|]. intros H.
  cbn [version_match]. rewrite version_at_all_space by exact H.
  cbn [JS.all_space] in H. apply andb_prop in H as [_ H]. by apply IH.
Qed.

Lemma version_match_trimStart (s : string) :
  version_match (JS.trimStart s) = version_match s.
Proof.
  induction s as [|c s IH]; [reflexivity|]. cbn [JS.trimStart].
  destruct (JS.is_space c) eqn:Hc; [|reflexivity].
  cbn [version_match]. by rewrite version_at_space.
Qed.

Lemma all_space_app (a b : string) :
  JS.all_space (a +:+ b) = JS.all_space a && JS.all_space b.
Proof.
  induction a as [|c a IH]; [reflexivity|]. cbn. rewrite IH. by rewrite andb_assoc.
Qed.

Lemma ends_with_space_app (a b : string) :
  b <> "" -> ends_with_space (a +:+ b) = ends_with_space b.
Proof.
  intros Hb. induction a as [|c a IH]; [reflexivity|].
  cbn [String.append ends_with_space].
  destruct (a +:+ b) as [|d t] eqn:Hab; [|exact IH].
  destruct a; [by cbn in Hab|discriminate].
Qed.

Lemma digits_end (ds : string) :
  ds <> "" -> all_digits ds = true -> ends_with_space ds = false.
Proof.
  induction ds as [|c ds IH]; [done|]. intros _ Hd.
  cbn [all_digits] in Hd. apply andb_prop in Hd as [Hc Hd].
  destruct ds as [|d ds].
  - cbn. destruct (JS.is_space c) eqn:Hs; [|reflexivity].
    apply space_not_digit in Hs. congruence.
  - by apply IH.
Qed.

(** A prefix that does not end in white space lies before the white space a
    string ends with. *)
Lemma app_before_spaces (p t r rest : string) :
  JS.all_space r = true -> p <> "" -> ends_with_space p = false ->
  t +:+ r = p +:+ rest ->
  exists rest', t = p +:+ rest' /\ rest = rest' +:+ r.
Proof.
  intros Hr. revert t. induction p as [|c p IH]; [done|]. intros t _ Hend Heq.
  destruct t as [|c' t].
  - cbn in Heq. subst r. exfalso.
    change (String c (p +:+ rest)) with (String c p +:+ rest) in Hr.
    rewrite all_space_app in Hr. apply andb_prop in Hr as [Hp _].
    apply all_space_ends in Hp; [congruence|done].
  - cbn in Heq. injection Heq as -> Heq.
    destruct p as [|d p].
    + exists t. by cbn in *.
    + destruct (IH t) as (rest' & -> & ->); [done|exact Hend|exact Heq|].
      by exists rest'.
Qed.

Lemma banner_before_spaces (t r ds : string) :
  JS.all_space r = true -> banner (t +:+ r) ds <-> banner t ds.
Proof.
  intros Hr. split.
  - intros (word & sp & rest & Heq & Hword & Hsp & Hspaces & Hds & Hdigits & Hrest).
    destruct (app_before_spaces (word +:+ sp +:+ JS.dq +:+ ds) t r rest Hr)
      as (rest' & Ht & Hrest').
    + destruct word; [discriminate Hword|done].
    + rewrite ends_with_space_app by (by destruct sp).
      rewrite ends_with_space_app by done.
      rewrite ends_with_space_app by done. by apply digits_end.
    + rewrite Heq. by rewrite !app_assoc_s.
    + exists word, sp, rest'. repeat split; try done.
      * rewrite Ht. by rewrite !app_assoc_s.
      * subst rest. by destruct rest'.
  - intros (word & sp & rest & -> & Hword & Hsp & Hspaces & Hds & Hdigits & Hrest).
    exists word, sp, (rest +:+ r). repeat split; try done.
    + by rewrite !app_assoc_s.
    + destruct rest as [|c rest]; [|exact Hrest].
      destruct r as [|c r]; [reflexivity|]. cbn in *.
      apply andb_prop in Hr as [Hc _]. by apply space_not_digit.
Qed.

Lemma version_at_before_spaces (t r : string) :
  JS.all_space r = true -> version_at (t +:+ r) = version_at t.
Proof.
  intros Hr.
  destruct (version_at t) as [ds|] eqn:Ht.
  - apply version_at_banner. apply banner_before_spaces; [done|].
    by apply version_at_banner.
  - destruct (version_at (t +:+ r)) as [ds|] eqn:Htr; [|reflexivity].
    apply version_at_banner, banner_before_spaces in Htr; [|done].
    apply version_at_banner in Htr. congruence.
Qed.

Lemma version_match_before_spaces (t r : string) :
  JS.all_space r = true -> version_match (t +:+ r) = version_match t.
Proof.
  intros Hr. induction t as [|c t IH].
  - cbn [String.append]. by rewrite version_match_all_space.
  - change (String c t +:+ r) with (String c (t +:+ r)).
    cbn [version_match].
    change (String c (t +:+ r)) with (String c t +:+ r).
    rewrite version_at_before_spaces by done. by rewrite IH.
Qed.

(** X14.  The white space [execAsync] trims off the output of the version
    query does not matter to the pattern: it finds in the trimmed output
    what it finds in the output as it came. *)
Theorem version_match_trim (s : string) :
  version_match (JS.trim s) = version_match s.
Proof.
  unfold JS.trim. rewrite <- (version_match_trimStart s).
  destruct (trimEnd_split (JS.trimStart s)) as (r & Hs & Hr).
  rewrite Hs at 2. symmetry. by apply version_match_before_spaces.
Qed.

End TrimAndMatch.

(** ** The download *)

Section DownloadProperties.

Context (host : Host).

(** X15.  A download that is refused leaves an empty file: when the first
    event is a response whose status is not 200, or an error of the request,
    the destination holds the empty string afterwards, whatever it held
    before, and no other file has changed. *)
Theorem downloadFile_refused_empties (url dest : string) (w : World) :
  dest ∉ denied w ->
  (exists statusCode body rest,
     https_get host url = Response statusCode body :: rest /\ statusCode <> 200) \/
  (exists err rest, https_get host url = RequestError err :: rest) ->
  let run := downloadFile host url dest w in
  (exists err, fst run = Throw err) /\
  files (snd run) !! dest = Some "" /\
  (forall p, p ≠ dest -> files (snd run) !! p = files w !! p) /\
  console (snd run) = console w.
Proof.
  intros Hd Hev run. subst run. rewrite (downloadFile_events host url dest w Hd).
  assert (Hworld : snd (download_events dest None (https_get host url)
                          (requested url dest w)) = requested url dest w).
  { destruct Hev as [(statusCode & body & rest & -> & Hne) | (err & rest & ->)];
      cbn [download_events]; [|reflexivity].
    destruct (Z.eqb_spec statusCode 200); [done|reflexivity]. }
  rewrite Hworld. split.
  - destruct Hev as [(statusCode & body & rest & -> & Hne) | (err & rest & ->)];
      cbn [download_events]; [|by eexists].
    destruct (Z.eqb_spec statusCode 200); [done|by eexists].
  - split; [apply lookup_insert_eq|]. split; [|reflexivity].
    intros p Hp. cbn. by rewrite lookup_insert_ne.
Qed.

Lemma download_events_responses (dest : string) (piped : option string)
    (events : list HttpsEvent) (w : World) :
  Forall is_ok_response events ->
  fst (download_events dest piped events w) = Hang.
Proof.
  intros Hall. revert piped w. induction Hall as [|ev events [body ->] _ IH];
    intros piped w; [reflexivity|].
  cbn [download_events negb Z.eqb Pos.eqb].
  erewrite bind_ret by reflexivity. apply IH.
Qed.

(** X16.  [downloadFile] has no timeout: when the request emits nothing,
    only a [finish] that no response preceded, or responses with status 200
    whose body never comes to its end, the promise stays pending for
    ever. *)
Theorem downloadFile_no_timeout (url dest : string) (w : World)
    (early responses : list HttpsEvent) :
  dest ∉ denied w ->
  https_get host url = (early ++ responses)%list ->
  Forall is_finish early ->
  Forall is_ok_response responses ->
  fst (downloadFile host url dest w) = Hang.
Proof.
  intros Hd Hev Hearly Hresp.
  rewrite (downloadFile_events host url dest w Hd), Hev. clear Hev.
  induction Hearly as [|ev early -> _ IH]; cbn [app download_events].
  - by rewrite download_events_responses.
  - exact IH.
Qed.

End DownloadProperties.

(** ** The newest archive, again *)

Section LocatorProperties.

Context (host : Host).

Lemma sort_insert_newest (x : Zip) (l : list Zip) :
  (forall y, y ∈ l -> time y <= time x) ->
  exists rest, sort_insert newest_first x l = x :: rest.
Proof.
  intros Hle. destruct l as [|y l]; [by eexists|]. cbn [sort_insert].
  unfold newest_first. specialize (Hle y ltac:(by left)).
  destruct (Z.leb_spec (time y - time x) 0); [by eexists|lia].
Qed.

(** The sort is stable at its head: of the newest archives the one listed
    first comes first. *)
Lemma sort_first_newest (before after : list Zip) (x : Zip) :
  (forall y, y ∈ before -> time y < time x) ->
  (forall y, y ∈ after -> time y <= time x) ->
  exists rest, sort newest_first (before ++ x :: after) = x :: rest.
Proof.
  intros Hb Ha. induction before as [|b before IH].
  - cbn [app]. unfold sort. cbn [fold_right]. apply sort_insert_newest.
    intros y Hy. apply Ha. by apply sort_elem.
  - destruct IH as [rest IH]; [intros y Hy; apply Hb; by right|].
    unfold sort in *. cbn [app fold_right]. rewrite IH. cbn [sort_insert].
    unfold newest_first at 1. specialize (Hb b ltac:(by left)).
    destruct (Z.leb_spec (time x - time b) 0); [lia|by eexists].
Qed.

(** X17.  Ties: among the archives modified last, [findNewestZip] returns
    the one the listing names first. *)
Theorem findNewestZip_first_of_newest (dir : string) (w : World) (names : list string)
    (mtime : string -> Z) (before after : list string) (f : string) :
  let w1 := logged host "INFO" "Searching for newest ZIP..." w in
  fs_readdirSync host dir (files w1) = inr names ->
  filter (fun f => is_zip f = true) names = (before ++ f :: after)%list ->
  (forall g, g ∈ (before ++ f :: after)%list ->
     fs_statSync_mtimeMs host (path_join host dir g) (files w1) = inr (mtime g)) ->
  (forall g, g ∈ before -> mtime g < mtime f) ->
  (forall g, g ∈ after -> mtime g <= mtime f) ->
  fst (findNewestZip host dir w) = Ret (path_join host dir f).
Proof.
  intros w1 Hdir Hzips Hstat Hb Ha.
  rewrite (findNewestZip_run host dir w names mtime Hdir); [|by rewrite Hzips].
  rewrite Hzips, map_app. cbn [map].
  destruct (sort_first_newest (map (fun f => mkZip f (mtime f)) before)
              (map (fun f => mkZip f (mtime f)) after) (mkZip f (mtime f)))
    as [rest ->]; [| |reflexivity].
  - intros y Hy. apply list_elem_of_fmap in Hy as (g & -> & Hg). by apply Hb.
  - intros y Hy. apply list_elem_of_fmap in Hy as (g & -> & Hg). by apply Ha.
Qed.

Lemma stat_all_world (dir : string) (names : list string) (w : World) :
  snd (stat_all host dir names w) = w.
Proof.
  induction names as [|f names IH]; [reflexivity|].
  cbn [stat_all]. unfold bind at 1, statSync_mtimeMs.
  destruct (fs_statSync_mtimeMs host _ (files w)) as [err|t]; [reflexivity|].
  unfold bind. destruct (stat_all host dir names w) as [[zips|e|c|] w'];
    cbn [snd] in IH; by subst.
Qed.

Lemma stat_all_throws (dir : string) (before after : list string) (f : string)
    (mtime : string -> Z) (err : Exn) (w : World) :
  (forall g, g ∈ before ->
     fs_statSync_mtimeMs host (path_join host dir g) (files w) = inr (mtime g)) ->
  fs_statSync_mtimeMs host (path_join host dir f) (files w) = inl err ->
  stat_all host dir (before ++ f :: after) w = (Throw err, w).
Proof.
  intros Hb Hf. induction before as [|b before IH]; cbn [app stat_all].
  - apply bind_throw. unfold statSync_mtimeMs. by rewrite Hf.
  - erewrite bind_ret; cycle 1.
    { unfold statSync_mtimeMs. rewrite Hb by left. reflexivity. }
    apply bind_throw. apply IH. intros g Hg. apply Hb. by right.
Qed.

(** X18.  [findNewestZip] fails as a whole when the directory cannot be
    listed or when one archive cannot be examined: the error of the listing
    or of the first archive that cannot be examined is thrown, however new
    the others are. *)
Theorem findNewestZip_errors (dir : string) (w : World) :
  let w1 := logged host "INFO" "Searching for newest ZIP..." w in
  (forall err, fs_readdirSync host dir (files w1) = inl err ->
               findNewestZip host dir w = (Throw err, w1)) /\
  (forall names before after f mtime err,
     fs_readdirSync host dir (files w1) = inr names ->
     filter (fun f => is_zip f = true) names = (before ++ f :: after)%list ->
     (forall g, g ∈ before ->
        fs_statSync_mtimeMs host (path_join host dir g) (files w1) = inr (mtime g)) ->
     fs_statSync_mtimeMs host (path_join host dir f) (files w1) = inl err ->
     findNewestZip host dir w = (Throw err, w1)).
Proof.
  intros w1. split.
  - intros err Hdir. unfold findNewestZip, log.
    erewrite bind_ret by apply writeLog_logged. fold w1.
    apply bind_throw. unfold readdirSync. by rewrite Hdir.
  - intros names before after f mtime err Hdir Hzips Hb Hf.
    unfold findNewestZip, log.
    erewrite bind_ret by apply writeLog_logged. fold w1.
    erewrite bind_ret; cycle 1.
    { unfold readdirSync. rewrite Hdir. reflexivity. }
    apply bind_throw. rewrite Hzips. by eapply stat_all_throws.
Qed.

(** X19.  [findNewestZip] only looks: however it ends, no call was made
    and no file but the log file has changed. *)
Theorem findNewestZip_only_logs (dir : string) (w : World) :
  calls (snd (findNewestZip host dir w)) = calls w /\
  denied (snd (findNewestZip host dir w)) = denied w /\
  forall p, p ≠ LOG_FILE host ->
            files (snd (findNewestZip host dir w)) !! p = files w !! p.
Proof.
  set (w1 := logged host "INFO" "Searching for newest ZIP..." w).
  assert (Hw : exists w', snd (findNewestZip host dir w) = w' /\
               (w' = w1 \/ exists msg, w' = logged host "INFO" msg w1)).
  { unfold findNewestZip, log.
    erewrite bind_ret by apply writeLog_logged. fold w1.
    unfold bind at 1, readdirSync.
    destruct (fs_readdirSync host dir (files w1)) as [err|names]; [by eauto|].
    unfold bind at 1.
    pose proof (stat_all_world dir (filter (fun f => is_zip f = true) names) w1) as Hs.
    destruct (stat_all host dir _ w1) as [[stats|e|c|] w2]; cbn [snd] in Hs; subst w2;
      try by eauto.
    destruct (sort newest_first stats) as [|first rest]; [by eauto|].
    erewrite bind_ret by apply writeLog_logged. eauto. }
  destruct Hw as (w' & -> & [-> | [msg ->]]).
  - split; [reflexivity|]. split; [reflexivity|].
    intros p Hp. by apply logged_files_other.
  - split; [reflexivity|]. split; [reflexivity|].
    intros p Hp. rewrite logged_files_other by done.
    by apply logged_files_other.
Qed.

(** X20.  [endsWith]: a name ends in a suffix exactly when it is some stem
    followed by the suffix, so [.zip] alone is an archive name and a name
    that goes on after [.zip] is none. *)
Theorem endsWith_stem (s suffix : string) :
  JS.endsWith s suffix = true <-> exists stem, s = stem +:+ suffix.
Proof.
  split.
  - induction s as [|c s IH]; cbn [JS.endsWith].
    + rewrite orb_false_r. intros H. apply String.eqb_eq in H. by exists "".
    + intros H. apply orb_prop in H as [H|H].
      * apply String.eqb_eq in H. by exists "".
      * destruct (IH H) as [stem ->]. by exists (String c stem).
  - intros [stem ->]. induction stem as [|c stem IH].
    + destruct suffix; cbn [String.append JS.endsWith]; by rewrite String.eqb_refl.
    + cbn [String.append JS.endsWith]. by rewrite IH, orb_true_r.
Qed.

End LocatorProperties.

(** ** The cleanup, again *)

Section CleanupProperties.

Context (host : Host).

Lemma set_files_same (w : World) : set_files (files w) w = w.
Proof. by destruct w. Qed.

(** One file of [deleteFiles]: gone when it can be removed, and no error
    either way. *)
Lemma unlink_quietly (p : string) (w : World) :
  try_catch (unlink p) (fun _ => ret tt) w =
  (Ret tt,
   set_files (if bool_decide (p ∈ denied w) then files w else delete p (files w)) w).
Proof.
  unfold try_catch, unlink. case_bool_decide; [by rewrite set_files_same|].
  destruct (files w !! p) eqn:Hp; [reflexivity|].
  by rewrite delete_id, set_files_same.
Qed.

Lemma deleteFiles_files (paths : list string) (w : World) :
  exists fs,
    deleteFiles paths w = (Ret tt, set_files fs w) /\
    (forall p, p ∈ paths -> p ∉ denied w -> fs !! p = None) /\
    (forall p, p ∉ paths \/ p ∈ denied w -> fs !! p = files w !! p).
Proof.
  revert w. induction paths as [|a paths IH]; intros w.
  - exists (files w). split; [by rewrite set_files_same|]. split; [|done].
    intros p Hp. by apply elem_of_nil in Hp.
  - cbn [deleteFiles]. erewrite bind_ret by apply unlink_quietly.
    set (fs1 := if bool_decide (a ∈ denied w) then files w else delete a (files w)).
    destruct (IH (set_files fs1 w)) as (fs & Hrun & Hgone & Hkept).
    exists fs. split; [exact Hrun|]. cbn [files denied set_files] in *. split.
    + intros p Hp Hd. destruct (decide (p ∈ paths)) as [Hin|Hnot]; [by apply Hgone|].
      rewrite Hkept by (by left).
      apply elem_of_cons in Hp as [->|Hp]; [|done].
      unfold fs1. rewrite bool_decide_eq_false_2 by done. apply lookup_delete_eq.
    + intros p Hp. rewrite Hkept; cycle 1.
      { destruct Hp as [Hp|Hp]; [left|by right]. intros Hin. apply Hp. by right. }
      unfold fs1. case_bool_decide; [reflexivity|].
      destruct Hp as [Hp|Hp].
      * rewrite lookup_delete_ne; [reflexivity|]. intros ->. apply Hp. by left.
      * destruct (decide (a = p)) as [->|Hne]; [done|]. by rewrite lookup_delete_ne.
Qed.

(** X21.  [deleteFiles] never fails and says nothing: afterwards every
    listed file that can be removed is gone, a file that is not listed or
    cannot be removed is as it was, a listed file that was not there is no
    error, nothing reached the console, no call was made, and deleting the
    same files again changes nothing. *)
Theorem deleteFiles_quiet (paths : list string) (w : World) :
  exists w',
    deleteFiles paths w = (Ret tt, w') /\
    console w' = console w /\ calls w' = calls w /\ denied w' = denied w /\
    (forall p, p ∈ paths -> p ∉ denied w -> files w' !! p = None) /\
    (forall p, p ∉ paths \/ p ∈ denied w -> files w' !! p = files w !! p) /\
    deleteFiles paths w' = (Ret tt, w').
Proof.
  destruct (deleteFiles_files paths w) as (fs & Hrun & Hgone & Hkept).
  exists (set_files fs w). split; [exact Hrun|].
  do 3 (split; [reflexivity|]). split; [exact Hgone|]. split; [exact Hkept|].
  destruct (deleteFiles_files paths (set_files fs w)) as (fs' & Hrun' & Hgone' & Hkept').
  rewrite Hrun'. cbn [files denied set_files] in *. f_equal.
  replace fs' with fs; [reflexivity|].
  apply map_eq. intros p.
  destruct (decide (p ∈ paths)) as [Hin|Hnot];
    [destruct (decide (p ∈ denied w)) as [Hd|Hd]|].
  - by rewrite Hkept' by (by right).
  - by rewrite Hgone, Hgone'.
  - by rewrite Hkept' by (by left).
Qed.

(** X22.  A directory that cannot be removed is not fatal: [deleteDirs]
    goes on, and the failure is reported as a warning, on the output stream,
    naming the directory and the message of the error. *)
Theorem deleteDirs_warns (d : string) (rest : list (option string)) (err : Exn)
    (fs : gmap string string) (w : World) :
  skipped host (Some d) = false ->
  fs_rm host d (files w) = (Some err, fs) ->
  let warned :=
    logged host "WARN" ("Failed to delete " +:+ d +:+ ": " +:+ message err)
           (set_files fs (with_call (CallRm d) w)) in
  deleteDirs host (Some d :: rest) w = deleteDirs host rest warned /\
  last (console warned) =
    Some (mkLine Stdout ("Failed to delete " +:+ d +:+ ": " +:+ message err) None).
Proof.
  intros Hs Hrm warned. split; [|apply logged_console_last].
  cbn [deleteDirs]. erewrite bind_ret; cycle 1.
  { unfold deleteDir. rewrite Hs. cbn [default].
    erewrite try_catch_throw; cycle 1.
    { unfold rm. erewrite bind_ret by reflexivity.
      change (fs_rm host (id d) (files (with_call (CallRm (id d)) w)))
        with (fs_rm host d (files w)).
      by rewrite Hrm. }
    unfold warn. apply writeLog_logged. }
  reflexivity.
Qed.

(** X23.  Nothing of the log of an earlier run is left after the script
    has started: on a supported platform, with a log file that can be
    written, the start returns the downloader and a configuration, and the
    log file is empty or holds the one line that loading the configuration
    logged. *)
Theorem startup_fresh_log (exe : string) (w : World) :
  DOWNLOADER_EXE_for (os_platform host) = Some exe ->
  LOG_FILE host ∉ denied w ->
  CONFIG_FILE host ≠ LOG_FILE host ->
  exists config w',
    startup host w = (Ret (exe, config), w') /\
    (files w' !! LOG_FILE host = Some "" \/
     exists level msg,
       files w' !! LOG_FILE host =
       Some ("[" +:+ Date_toISOString host (clock_reads w) +:+ "] [" +:+ level +:+ "] "
                 +:+ msg +:+ JS.LF)).
Proof.
  intros Hexe Hd Hne.
  destruct (loadConfig_world host (log_reset host w)) as (config & w' & Hload & Hw).
  exists config, w'. split.
  { unfold startup. erewrite bind_ret by apply reset_log_run.
    erewrite bind_ret; cycle 1.
    { unfold DOWNLOADER_EXE, platform. rewrite Hexe. reflexivity. }
    by erewrite bind_ret by exact Hload. }
  assert (Hreset : log_reset host w = set_files (<[LOG_FILE host := ""]> (files w)) w).
  { unfold log_reset. by rewrite bool_decide_eq_false_2. }
  rewrite Hreset in Hw.
  destruct Hw as [-> | [(level & msg & ->) | (_ & level & msg & data & ->)]].
  - left. apply lookup_insert_eq.
  - right. exists level, msg. unfold logged, log_line.
    cbn [files denied clock_reads set_files].
    rewrite bool_decide_eq_false_2 by done.
    rewrite lookup_insert_eq. by rewrite lookup_insert_eq.
  - right. exists level, msg. unfold logged, log_line.
    cbn [files denied clock_reads set_files].
    rewrite bool_decide_eq_false_2 by done.
    rewrite lookup_insert_eq. rewrite lookup_insert_ne by done.
    by rewrite lookup_insert_eq.
Qed.

End CleanupProperties.

(** ** The extraction *)

Section UnzipProperties.

Context (host : Host) (disk : Disk).

Lemma unzipEntries_app (targetDir : string) (before rest : list Entry) (w : World) :
  unzipEntries host disk targetDir (before ++ rest) w =
  (unzipEntries host disk targetDir before ;;
   unzipEntries host disk targetDir rest) w.
Proof.
  revert w. induction before as [|file before IH]; intros w; [reflexivity|].
  cbn [app unzipEntries]. unfold bind in *.
  destruct (unzipEntry host disk targetDir file w) as [[[]|e|c|] w1]; try reflexivity.
  apply IH.
Qed.

Lemma unzipEntries_files (targetDir : string) (entries : list Entry) (w : World) :
  (forall p fs, fs_mkdir disk p fs = None) ->
  Forall (extractable host targetDir w) entries ->
  exists fs,
    unzipEntries host disk targetDir entries w = (Ret tt, set_files fs w) /\
    forall q, fs !! q = match extracted host targetDir entries q with
                        | Some data => Some data
                        | None => files w !! q
                        end.
Proof.
  intros Hmkdir Hall. revert w Hall.
  induction entries as [|file rest IH]; intros w Hall.
  - exists (files w). by rewrite set_files_same.
  - inversion Hall as [|? ? Hfile Hrest]; subst.
    cbn [unzipEntries extracted]. unfold unzipEntry.
    destruct (String.eqb (entry_type file) "Directory") eqn:Hdir.
    + erewrite bind_ret; cycle 1.
      { unfold mkdir. by rewrite Hmkdir. }
      destruct (IH w Hrest) as (fs & Hrun & Hfs). exists fs. split; [exact Hrun|].
      intros q. rewrite Hfs. by destruct (extracted host targetDir rest q).
    + destruct Hfile as [Htype|[[data Hdata] Hd]].
      { rewrite Htype in Hdir. discriminate. }
      erewrite bind_ret; cycle 1.
      { erewrite bind_ret; cycle 1.
        { unfold mkdir. by rewrite Hmkdir. }
        unfold pipeline_to_file. rewrite bool_decide_eq_false_2 by done.
        by rewrite Hdata. }
      destruct (IH (set_files (<[path_join host targetDir (entry_path file) := data]>
                                 (files w)) w) Hrest) as (fs & Hrun & Hfs).
      exists fs. split; [exact Hrun|].
      intros q. rewrite Hfs. cbn [files set_files].
      destruct (extracted host targetDir rest q); [reflexivity|].
      rewrite Hdata.
      destruct (String.eqb_spec (path_join host targetDir (entry_path file)) q) as [->|Hne].
      * apply lookup_insert_eq.
      * by rewrite lookup_insert_ne.
Qed.

(** X24.  [unzipAll] on an archive that can be read and extracted: when no
    directory fails to be made, every entry that is no directory ends well
    and its place can be written, the extraction returns, each path holds
    the contents of the last entry placed there by [path.join] of the
    target and the entry's path, so a later entry replaces an earlier one
    of the same path, directory entries write no file, and every other
    file, the console and the calls are as they were. *)
Theorem unzipAll_extracts (zipPath targetDir bytes : string) (entries : list Entry)
    (w : World) :
  (forall p fs, fs_mkdir disk p fs = None) ->
  files w !! zipPath = Some bytes -> zipPath ∉ denied w ->
  unzipper_directory disk bytes = inr entries ->
  Forall (extractable host targetDir w) entries ->
  exists w',
    unzipAll host disk zipPath targetDir w = (Ret tt, w') /\
    console w' = console w /\ calls w' = calls w /\
    forall q, files w' !! q = match extracted host targetDir entries q with
                              | Some data => Some data
                              | None => files w !! q
                              end.
Proof.
  intros Hmkdir Hzip Hread Hdir Hall.
  destruct (unzipEntries_files targetDir entries w Hmkdir Hall) as (fs & Hrun & Hfs).
  exists (set_files fs w). split.
  { unfold unzipAll. erewrite bind_ret; cycle 1.
    { unfold mkdir. by rewrite Hmkdir. }
    erewrite bind_ret; cycle 1.
    { unfold Open_file. erewrite bind_ret by (by apply readFileSync_data).
      by rewrite Hdir. }
    exact Hrun. }
  split; [reflexivity|]. split; [reflexivity|exact Hfs].
Qed.

(** X25.  One entry that fails is fatal to the whole extraction and nothing
    is undone.  When the entries before it can be extracted and the stream
    of an entry that is no directory fails, [unzipAll] throws the error of
    the stream; every path but the place of that entry then holds what the
    entries before it put there, or else what it held before the call: the
    entries before stay extracted and the entries after it are not
    extracted; nothing is printed or called. *)
Theorem unzipAll_stops (zipPath targetDir bytes : string)
    (before after : list Entry) (bad : Entry) (err : Exn) (written : string)
    (w : World) :
  (forall p fs, fs_mkdir disk p fs = None) ->
  files w !! zipPath = Some bytes -> zipPath ∉ denied w ->
  unzipper_directory disk bytes = inr (before ++ bad :: after)%list ->
  Forall (extractable host targetDir w) before ->
  entry_type bad <> "Directory" ->
  entry_stream bad = inl (err, written) ->
  path_join host targetDir (entry_path bad) ∉ denied w ->
  exists w2,
    unzipAll host disk zipPath targetDir w = (Throw err, w2) /\
    console w2 = console w /\ calls w2 = calls w /\
    forall q, q <> path_join host targetDir (entry_path bad) ->
      files w2 !! q = match extracted host targetDir before q with
                      | Some data => Some data
                      | None => files w !! q
                      end.
Proof.
  intros Hmkdir Hzip Hread Hdir Hbefore Htype Hstream Hplace.
  destruct (unzipEntries_files targetDir before w Hmkdir Hbefore) as (fs & Hrun & Hfs).
  exists (set_files (<[path_join host targetDir (entry_path bad) := written]> fs) w).
  split.
  { unfold unzipAll. erewrite bind_ret; cycle 1.
    { unfold mkdir. by rewrite Hmkdir. }
    erewrite bind_ret; cycle 1.
    { unfold Open_file. erewrite bind_ret by (by apply readFileSync_data).
      by rewrite Hdir. }
    rewrite unzipEntries_app. erewrite bind_ret by exact Hrun.
    cbn [unzipEntries]. apply bind_throw. unfold unzipEntry.
    apply String.eqb_neq in Htype. rewrite Htype.
    erewrite bind_ret; cycle 1.
    { unfold mkdir. by rewrite Hmkdir. }
    unfold pipeline_to_file. cbn [denied files set_files].
    rewrite bool_decide_eq_false_2 by done. by rewrite Hstream. }
  split; [reflexivity|]. split; [reflexivity|].
  intros q Hq. cbn [files set_files]. rewrite lookup_insert_ne by done. apply Hfs.
Qed.

End UnzipProperties.

(** ** The main function *)

Section CallProperties.

Context {A B : Type}.

Lemma always_bind (plan : list Call) (m : M A) (k : A -> M B) :
  always_calls plan m -> (forall x, always_calls [] (k x)) ->
  always_calls plan (x <- m ;; k x).
Proof.
  intros Hm Hk w. specialize (Hm w). unfold bind.
  destruct (m w) as [[x|e|c|] w1]; cbn [snd] in *; try exact Hm.
  rewrite Hk, Hm. by rewrite app_nil_r.
Qed.

Lemma always_bind_after (plan : list Call) (m : M A) (k : A -> M B) (a : A) :
  (forall w, exists w', m w = (Ret a, w') /\ calls w' = calls w) ->
  always_calls plan (k a) ->
  always_calls plan (x <- m ;; k x).
Proof.
  intros Hm Hk w. destruct (Hm w) as (w' & Hrun & Hc).
  erewrite bind_ret by exact Hrun. by rewrite Hk, Hc.
Qed.

Lemma always_try_catch (plan : list Call) (m : M A) (handler : Exn -> M A) :
  always_calls plan m -> (forall e, always_calls [] (handler e)) ->
  always_calls plan (try_catch m handler).
Proof.
  intros Hm Hh w. specialize (Hm w). unfold try_catch.
  destruct (m w) as [[x|e|c|] w1]; cbn [snd] in *; try exact Hm.
  rewrite Hh, Hm. by rewrite app_nil_r.
Qed.

Lemma always_follows (plan : list Call) (m : M A) :
  always_calls plan m -> follows_plan plan m.
Proof. intros Hm w. exists plan. by split; [apply Hm|]. Qed.

Lemma follows_bind (plan1 plan2 : list Call) (m : M A) (k : A -> M B) :
  follows_plan plan1 m -> (forall x, follows_plan plan2 (k x)) ->
  follows_plan (plan1 ++ plan2) (x <- m ;; k x).
Proof.
  intros Hm Hk w. destruct (Hm w) as (added1 & Hc1 & Hp1 & Hr1). unfold bind.
  destruct (m w) as [[x|e|c|] w1]; cbn [fst snd] in *.
  - rewrite (Hr1 x eq_refl) in Hc1.
    destruct (Hk x w1) as (added2 & Hc2 & Hp2 & Hr2).
    exists (plan1 ++ added2)%list. split; [by rewrite Hc2, Hc1, app_assoc|].
    split; [by apply prefix_app|]. intros y Hy. by rewrite (Hr2 y Hy).
  - exists added1. split; [exact Hc1|]. split; [by apply prefix_app_r|done].
  - exists added1. split; [exact Hc1|]. split; [by apply prefix_app_r|done].
  - exists added1. split; [exact Hc1|]. split; [by apply prefix_app_r|done].
Qed.

Lemma follows_bind_quiet (plan : list Call) (m : M A) (k : A -> M B) :
  always_calls [] m -> (forall x, follows_plan plan (k x)) ->
  follows_plan plan (x <- m ;; k x).
Proof.
  intros Hm Hk. apply (follows_bind [] plan); [by apply always_follows|exact Hk].
Qed.

End CallProperties.

Section MainProperties.

Context (host : Host) (disk : Disk).

Lemma log_quiet (msg : string) : always_calls [] (log host msg).
Proof. intros w. unfold log. rewrite writeLog_logged. cbn. by rewrite app_nil_r. Qed.

Lemma ret_quiet {A : Type} (a : A) : always_calls [] (ret a).
Proof. intros w. cbn. by rewrite app_nil_r. Qed.

Lemma throw_quiet {A : Type} (e : Exn) : always_calls [] (@throw A e).
Proof. intros w. cbn. by rewrite app_nil_r. Qed.

Lemma checkJava_calls : always_calls [CallExec "java -version"] (checkJava host).
Proof.
  unfold checkJava. apply always_bind.
  - apply always_try_catch; [|intros e; apply throw_quiet].
    intros w. by rewrite execAsync_world.
  - intros out. destruct (version_match out) as [digits|]; [|apply throw_quiet].
    destruct (_ <? _)%N; [apply throw_quiet|apply log_quiet].
Qed.

Lemma mkdir_quiet (p : string) : always_calls [] (mkdir disk p).
Proof.
  intros w. unfold mkdir. rewrite app_nil_r. by destruct (fs_mkdir disk p (files w)).
Qed.

Lemma readFileSync_quiet (p : string) : always_calls [] (readFileSync p).
Proof.
  intros w. unfold readFileSync. rewrite app_nil_r.
  case_bool_decide; [reflexivity|]. by destruct (files w !! p).
Qed.

Lemma writeFileSync_quiet (p data : string) : always_calls [] (writeFileSync p data).
Proof.
  intros w. unfold writeFileSync. rewrite app_nil_r. by case_bool_decide.
Qed.

Lemma unlink_quiet (p : string) : always_calls [] (unlink p).
Proof.
  intros w. unfold unlink. rewrite app_nil_r.
  case_bool_decide; [reflexivity|]. by destruct (files w !! p).
Qed.

Lemma chmod_quiet (p : string) : always_calls [] (chmod p).
Proof.
  intros w. unfold chmod. rewrite app_nil_r.
  case_bool_decide; [reflexivity|]. by destruct (files w !! p).
Qed.

Lemma unzipAll_quiet (zipPath targetDir : string) :
  always_calls [] (unzipAll host disk zipPath targetDir).
Proof.
  unfold unzipAll. apply always_bind; [apply mkdir_quiet|]. intros _.
  apply always_bind.
  { unfold Open_file. apply always_bind; [apply readFileSync_quiet|]. intros bytes.
    destruct (unzipper_directory disk bytes); [apply throw_quiet|apply ret_quiet]. }
  intros entries. induction entries as [|file rest IH]; [apply ret_quiet|].
  cbn [unzipEntries]. apply always_bind; [|intros _; exact IH].
  unfold unzipEntry. destruct (String.eqb _ _); [apply mkdir_quiet|].
  apply always_bind; [apply mkdir_quiet|]. intros _ w.
  unfold pipeline_to_file. rewrite app_nil_r. case_bool_decide; [reflexivity|].
  by destruct (entry_stream file) as [[err written]|data].
Qed.

Lemma findNewestZip_quiet (dir : string) : always_calls [] (findNewestZip host dir).
Proof.
  unfold findNewestZip. apply always_bind; [apply log_quiet|]. intros _.
  apply always_bind.
  { intros w. unfold readdirSync. rewrite app_nil_r.
    by destruct (fs_readdirSync host dir (files w)). }
  intros names. apply always_bind.
  { intros w. by rewrite stat_all_world, app_nil_r. }
  intros stats. destruct (sort newest_first stats); [apply throw_quiet|].
  apply always_bind; [apply log_quiet|]. intros _. apply ret_quiet.
Qed.

Lemma copyFile_quiet (src dest : string) : always_calls [] (copyFile src dest).
Proof.
  intros w. unfold copyFile. rewrite app_nil_r.
  case_bool_decide; [reflexivity|].
  destruct (files w !! src); [|reflexivity]. by case_bool_decide.
Qed.

Lemma moveItem_quiet (depth : nat) (srcDir destDir : string) (item : string * bool) :
  (forall src dest, always_calls [] (moveAll host disk depth src dest)) ->
  always_calls []
    (if item.2 then
       mkdir disk (path_join host destDir item.1) ;;
       moveAll host disk depth (path_join host srcDir item.1)
         (path_join host destDir item.1)
     else
       copyFile (path_join host srcDir item.1) (path_join host destDir item.1) ;;
       try_catch (unlink (path_join host srcDir item.1)) (fun _ => ret tt)).
Proof.
  intros IH. destruct item.2.
  - apply always_bind; [apply mkdir_quiet|]. intros _. apply IH.
  - apply always_bind; [apply copyFile_quiet|].
    intros _. apply always_try_catch; [apply unlink_quiet|]. intros e. apply ret_quiet.
Qed.

Lemma moveAll_quiet (depth : nat) (srcDir destDir : string) :
  always_calls [] (moveAll host disk depth srcDir destDir).
Proof.
  revert srcDir destDir. induction depth as [|depth IH]; intros srcDir destDir.
  - intros w. cbn. by rewrite app_nil_r.
  - cbn [moveAll]. apply always_bind.
    { intros w. unfold readdir_withFileTypes. rewrite app_nil_r.
      by destruct (fs_readdir_withFileTypes disk srcDir (files w)). }
    intros items. induction items as [|item rest IHitems]; [apply ret_quiet|].
    apply always_bind; [by apply moveItem_quiet|]. intros _. exact IHitems.
Qed.

Lemma deleteFiles_calls (paths : list string) : always_calls [] (deleteFiles paths).
Proof.
  intros w. destruct (deleteFiles_files paths w) as (fs & -> & _).
  cbn. by rewrite app_nil_r.
Qed.

Lemma deleteDirs_removals (dirs : list (option string)) :
  always_calls (removals host dirs) (deleteDirs host dirs).
Proof.
  intros w. destruct (deleteDirs_calls host dirs w) as (w' & Hrun & Hc).
  rewrite Hrun. exact Hc.
Qed.

Lemma startServer_calls (config : JSObject) :
  always_calls (server_calls host config) (startServer host config).
Proof.
  unfold startServer, server_calls. destruct (negb _).
  - intros w. rewrite app_nil_r. erewrite bind_exit; cycle 1.
    { unfold log. by erewrite bind_ret by apply writeLog_logged. }
    reflexivity.
  - apply (always_bind_after _ _ _ tt); [by intros w; exists w|].
    destruct (split_of "config.javaArgs" _) as [err|args]; [apply throw_quiet|].
    destruct (split_of "config.hytaleArgs" _) as [err|hytaleArgs]; [apply throw_quiet|].
    apply (always_bind_after _ _ _ tt).
    { intros w. eexists. split; [apply writeLog_logged|reflexivity]. }
    apply (always_bind_after _ _ _ tt).
    { intros w. eexists. split; [apply writeLog_logged|reflexivity]. }
    by intros w.
Qed.

Lemma steps_calls (depth : nat) (config : JSObject) (exe : string) :
  follows_plan (call_plan host config exe) (steps host disk depth config exe).
Proof.
  unfold steps, call_plan.
  apply follows_bind_quiet; [apply log_quiet|]. intros _.
  apply (follows_bind [CallExec "java -version"]);
    [apply always_follows, checkJava_calls|]. intros _.
  apply follows_bind_quiet; [apply log_quiet|]. intros _.
  apply (follows_bind [CallHttpsGet DOWNLOAD_URL]);
    [apply always_follows; intros w; apply downloadFile_calls|].
  intros _.
  apply follows_bind_quiet; [apply log_quiet|]. intros _.
  apply follows_bind_quiet; [apply unzipAll_quiet|]. intros _.
  apply follows_bind_quiet.
  { destruct (String.eqb _ _); [|apply ret_quiet].
    apply always_bind; [apply chmod_quiet|]. intros _. apply log_quiet. }
  intros _.
  apply follows_bind_quiet; [apply log_quiet|]. intros _.
  unfold runDownloader.
  destruct (split_of "config.downloaderArgs" _) as [err|args].
  { intros w. exists []. by rewrite app_nil_r. }
  apply (follows_bind
           [CallSpawn (path_resolve host (EXTRACT_DIR host) exe) args (RUNTIME_DIR host)]).
  { apply always_follows. intros w. erewrite bind_ret by reflexivity.
    by rewrite downloader_settles_world. }
  intros _.
  apply follows_bind_quiet; [apply log_quiet|]. intros _.
  apply follows_bind_quiet; [apply findNewestZip_quiet|]. intros downloadedZip.
  apply follows_bind_quiet; [apply log_quiet|]. intros _.
  apply follows_bind_quiet; [apply unzipAll_quiet|]. intros _.
  apply follows_bind_quiet; [apply log_quiet|]. intros _.
  apply follows_bind_quiet; [apply moveAll_quiet|]. intros _.
  apply follows_bind.
  { destruct (truthy _); [|apply always_follows, log_quiet].
    apply follows_bind_quiet; [apply log_quiet|]. intros _.
    apply follows_bind_quiet; [apply deleteFiles_calls|]. intros _.
    apply always_follows, deleteDirs_removals. }
  intros _.
  apply follows_bind_quiet; [apply log_quiet|]. intros _.
  apply always_follows, startServer_calls.
Qed.

(** X26.  The order of what a run of the installer calls.  Whatever the
    machine, the configuration and the way the run ends, the main function
    adds to the calls made so far a beginning of this list and nothing
    else: [java -version], the one request for the downloader, the
    downloader, the removals of the two directories of the clean up, the
    server.  So nothing is requested before Java was asked for, nothing is
    spawned before the request, nothing is removed and no server is started
    before the downloader was spawned, none at all when its arguments are
    no string, no directory is removed when [cleanUp] is off, and the only
    directories ever removed are the extraction directory and [Server],
    unless the guard of [deleteDirs] skips them.  A run that returns made
    all the calls of the list. *)
Theorem main_calls (depth : nat) (config : JSObject) (exe : string) :
  follows_plan (call_plan host config exe) (main host disk depth config exe).
Proof.
  intros w. destruct (steps_calls depth config exe w) as (added & Hc & Hp & Hr).
  exists added. unfold main, try_catch.
  destruct (steps host disk depth config exe w) as [[x|e|c|] w1]; cbn [fst snd] in *;
    try (by split; [|split]).
  unfold error. erewrite bind_ret by apply writeLog_logged. cbn [exit fst snd].
  by split; [|split].
Qed.

(** X27.  The main function never throws.  A step that throws stops the
    run there: the steps after it are not taken, the error is logged as
    fatal, with its stack, so its name and message and then the frames, on
    the standard error stream and in the log file, and the process ends
    with status 1.  A run whose steps
    leave the process, as when the server is not to be started, leaves it
    with their status, and a run that returns or never settles does so as
    its steps do. *)
Theorem main_fatal (depth : nat) (config : JSObject) (exe : string) (w : World) :
  (forall e, fst (main host disk depth config exe w) <> Throw e) /\
  (forall e w1,
     steps host disk depth config exe w = (Throw e, w1) ->
     main host disk depth config exe w =
     (Exit 1, logged host "ERROR"
                ("FATAL ERROR: " +:+ exn_name e +:+ ": " +:+ message e +:+
                 stack_frames host e) w1)) /\
  (forall r w1,
     steps host disk depth config exe w = (r, w1) ->
     (forall e, r <> Throw e) ->
     main host disk depth config exe w = (r, w1)).
Proof.
  unfold main, try_catch.
  destruct (steps host disk depth config exe w) as [[x|e|c|] w1].
  - split; [done|]. split; [done|]. by intros r w2 [= <- <-].
  - unfold error, stack. erewrite bind_ret by apply writeLog_logged. cbn [exit].
    split; [done|]. split; [by intros e' w2 [= <- <-]|].
    intros r w2 [= <- <-] Hr. by destruct (Hr e).
  - split; [done|]. split; [done|]. by intros r w2 [= <- <-].
  - split; [done|]. split; [done|]. by intros r w2 [= <- <-].
Qed.

End MainProperties.

Section MainOutcomes.

Context (host : Host) (disk : Disk).

(** X28.  Without Java nothing is installed.  When [java -version] cannot
    be run, the main function prints its banner, runs that one command,
    logs the fatal error with its stack and leaves with status 1: nothing
    is requested, downloaded, extracted, spawned or removed. *)
Theorem main_without_java (depth : nat) (config : JSObject) (exe : string) (w : World) :
  exec_rejected (child_process_exec host "java -version") ->
  main host disk depth config exe w =
  (Exit 1,
   logged host "ERROR"
     ("FATAL ERROR: Error: Java not installed or not accessible" +:+
      stack_frames host (Error "Java not installed or not accessible"))
     (with_call (CallExec "java -version")
        (logged host "INFO"
           "=== HYTALE SERVER INSTALLER | by SkyKing_PX | Version 1.0.0 ===" w))).
Proof.
  intros [[err Herr] Hstderr]. unfold main.
  erewrite try_catch_throw; cycle 1.
  { unfold steps. erewrite bind_ret by apply writeLog_logged.
    apply bind_throw. unfold checkJava. apply bind_throw.
    erewrite try_catch_throw; [reflexivity|].
    unfold execAsync. erewrite bind_ret by reflexivity.
    rewrite Herr, Hstderr. reflexivity. }
  unfold error. by erewrite bind_ret by apply writeLog_logged.
Qed.

End MainOutcomes.

(** ** Moving the assets *)

Section MoveProperties.

Context (host : Host) (disk : Disk).








End MoveProperties.

(** ** The further properties at work *)

(** X2 at work: an entry and an error after it reach the console in that
    order. *)
Lemma writeLog_in_order_two :
  exists w',
    (writeLog Demo.linux "INFO" "Downloading Hytale downloader..." ;;
     writeLog Demo.linux "ERROR" "FATAL ERROR: Error: Download failed: 404") installed
      = (Ret tt, w') /\
    map text (console w') =
      ["Downloading Hytale downloader..."; "FATAL ERROR: Error: Download failed: 404"].
Proof.
  destruct (writeLog_in_order Demo.linux
              "INFO" "Downloading Hytale downloader..."
              "ERROR" "FATAL ERROR: Error: Download failed: 404" installed)
    as (w' & Hrun & _ & Hconsole).
  - apply not_elem_of_empty.
  - exists w'. split; [exact Hrun|exact Hconsole].
Defined.

(** X3 at work: the first run writes the configuration file and says so. *)
Lemma loadConfig_missing_file_first_run :
  exists w',
    loadConfig Demo.linux installed = (Ret DEFAULT_CONFIG, w') /\
    files w' !! CONFIG_FILE Demo.linux = Some (Demo.stringify DEFAULT_CONFIG) /\
    last (console w') = Some (mkLine Stdout "Created default installer-config.json" None).
Proof.
  destruct (loadConfig_missing_file Demo.linux installed) as [Hcreated _].
  - reflexivity.
  - destruct Hcreated as (w' & Hrun & _ & Hfile & Hlast & _).
    + apply not_elem_of_empty.
    + exists w'. split; [exact Hrun|]. split; [by apply Hfile|exact Hlast].
Defined.

(** X4 at work: the file that switches the start off is read and left as
    it is. *)
Lemma loadConfig_keeps_file_start_off :
  files (snd (loadConfig Demo.linux configured)) !! CONFIG_FILE Demo.linux =
    Some start_off_json /\
  calls (snd (loadConfig Demo.linux configured)) = [].
Proof.
  apply (loadConfig_keeps_file Demo.linux configured start_off_json).
  - reflexivity.
  - done.
Defined.

(** X5 at work: the second run reads what the first run wrote. *)
Lemma loadConfig_round_trip_linux :
  exists w',
    loadConfig Demo.linux installed = (Ret DEFAULT_CONFIG, w') /\
    files w' !! CONFIG_FILE Demo.linux = Some (Demo.stringify DEFAULT_CONFIG) /\
    loadConfig Demo.linux w' = (Ret DEFAULT_CONFIG, w').
Proof.
  apply (loadConfig_round_trip Demo.linux installed
           (JObj [("startServer", JBool true); ("cleanUp", JBool true);
                  ("downloaderArgs", JStr "");
                  ("javaArgs", JStr "-Xms2G -Xmx4G -XX:AOTCache=HytaleServer.aot");
                  ("hytaleArgs", JStr "--assets Assets.zip --bind 5520")])).
  - reflexivity.
  - apply not_elem_of_empty.
  - done.
  - reflexivity.
  - intros k. cbn [own_props binding]. unfold DEFAULT_CONFIG.
    destruct (String.eqb_spec k "hytaleArgs") as [->|H1]; [reflexivity|].
    destruct (String.eqb_spec k "javaArgs") as [->|H2]; [reflexivity|].
    destruct (String.eqb_spec k "downloaderArgs") as [->|H3]; [reflexivity|].
    destruct (String.eqb_spec k "cleanUp") as [->|H4]; [reflexivity|].
    destruct (String.eqb_spec k "startServer") as [->|H5]; [reflexivity|].
    by rewrite !lookup_insert_ne, lookup_empty.
Defined.

(** X6 at work: a configuration file that holds [null] gives the defaults
    and changes nothing. *)
Lemma loadConfig_not_an_object_null :
  loadConfig Demo.linux nulled = (Ret DEFAULT_CONFIG, nulled).
Proof.
  destruct (loadConfig_not_an_object Demo.linux nulled "null" JNull)
    as (config & Hrun & _ & _ & Hprimitive).
  - split; [reflexivity|apply not_elem_of_empty].
  - reflexivity.
  - exact I.
  - rewrite Hrun. by rewrite Hprimitive.
Defined.

(** X9 at work: the command line of the default configuration. *)
Lemma startServer_command_line_default :
  exists w',
    startServer Demo.linux DEFAULT_CONFIG installed = (Ret tt, w') /\
    last (console w') =
      Some (mkLine Stdout
              ("java -Xms2G -Xmx4G -XX:AOTCache=HytaleServer.aot" +:+
               " -jar HytaleServer.jar --assets Assets.zip --bind 5520") None).
Proof.
  destruct (startServer_command_line Demo.linux DEFAULT_CONFIG
              "-Xms2G -Xmx4G -XX:AOTCache=HytaleServer.aot"
              "--assets Assets.zip --bind 5520" installed)
    as (w' & Hrun & Hlast & _); [reflexivity..|].
  exists w'. split; [exact Hrun|exact Hlast].
Defined.

(** X15 at work: the answer 404 leaves the archive of an earlier run
    empty. *)
Lemma downloadFile_refused_empties_404 :
  files (snd (downloadFile not_found DOWNLOAD_URL (DOWNLOADER_ZIP not_found) stale))
    !! DOWNLOADER_ZIP not_found = Some "".
Proof.
  destruct (downloadFile_refused_empties not_found DOWNLOAD_URL
              (DOWNLOADER_ZIP not_found) stale) as (_ & Hfile & _).
  - apply not_elem_of_empty.
  - left. exists 404, "Not Found", [Finish]. split; [reflexivity|lia].
  - exact Hfile.
Defined.

(** X16 at work: an answer that never ends is waited for for ever. *)
Lemma downloadFile_no_timeout_stalled :
  fst (downloadFile stalled DOWNLOAD_URL (DOWNLOADER_ZIP stalled) installed) = Hang.
Proof.
  apply (downloadFile_no_timeout stalled DOWNLOAD_URL (DOWNLOADER_ZIP stalled)
           installed [Finish] [Response 200 "PK"]).
  - apply not_elem_of_empty.
  - reflexivity.
  - by repeat constructor.
  - repeat constructor. by exists "PK".
Defined.

(** X17 at work: of two archives modified at the same time the one listed
    first is found. *)
Lemma findNewestZip_tie :
  fst (findNewestZip with_ties "/srv/hytale" downloads) =
  Ret "/srv/hytale/2026.01.12-b.zip".
Proof.
  apply (findNewestZip_first_of_newest with_ties "/srv/hytale" downloads listing
           tied_at ["2026.01.13-c.zip"] ["2026.01.10-a.zip"] "2026.01.12-b.zip").
  - reflexivity.
  - reflexivity.
  - intros g Hg.
    repeat (apply elem_of_cons in Hg as [-> | Hg]);
      first [reflexivity | by apply elem_of_nil in Hg].
  - intros g Hg.
    apply elem_of_cons in Hg as [-> | Hg]; [reflexivity|by apply elem_of_nil in Hg].
  - intros g Hg.
    apply elem_of_cons in Hg as [-> | Hg]; [|by apply elem_of_nil in Hg].
    vm_compute. discriminate.
Defined.

(** X22 at work: a directory that is busy is warned about and the cleanup
    returns. *)
Lemma deleteDirs_warns_busy :
  fst (deleteDirs busy [Some "/srv/hytale/Server"] installed) = Ret tt /\
  last (console (snd (deleteDirs busy [Some "/srv/hytale/Server"] installed))) =
    Some (mkLine Stdout
            ("Failed to delete /srv/hytale/Server: " +:+
             "EBUSY: resource busy or locked, rm '/srv/hytale/Server'") None).
Proof.
  destruct (deleteDirs_warns busy "/srv/hytale/Server" []
              (fs_error "EBUSY: resource busy or locked" "rm" "/srv/hytale/Server")
              (files installed) installed) as [Hrun Hlast]; [reflexivity..|].
  rewrite Hrun. split; [reflexivity|exact Hlast].
Defined.

(** X23 at work: the log file of an earlier run is gone once the script is
    ready. *)
Lemma startup_fresh_log_after_a_run :
  exists config w',
    startup Demo.linux after_a_run =
      (Ret ("hytale-downloader-linux-amd64", config), w') /\
    (files w' !! LOG_FILE Demo.linux = Some "" \/
     exists level msg,
       files w' !! LOG_FILE Demo.linux =
       Some ("[" +:+ Date_toISOString Demo.linux (clock_reads after_a_run) +:+ "] ["
                 +:+ level +:+ "] " +:+ msg +:+ JS.LF)).
Proof.
  apply (startup_fresh_log Demo.linux "hytale-downloader-linux-amd64" after_a_run).
  - reflexivity.
  - apply not_elem_of_empty.
  - done.
Defined.

(** X24 at work: the archive of the downloader extracted. *)
Lemma unzipAll_extracts_downloader :
  exists w',
    unzipAll Demo.linux (flat downloader_entries)
      "/srv/hytale/hytale-downloader.zip" "/srv/hytale/hytale-downloader" downloaded
      = (Ret tt, w') /\
    files w' !! "/srv/hytale/hytale-downloader/hytale-downloader-linux-amd64" =
      Some "ELF" /\
    files w' !! "/srv/hytale/hytale-downloader/docs/" = None.
Proof.
  destruct (unzipAll_extracts Demo.linux (flat downloader_entries)
              "/srv/hytale/hytale-downloader.zip" "/srv/hytale/hytale-downloader"
              "PK" downloader_entries downloaded)
    as (w' & Hrun & _ & _ & Hfiles).
  - reflexivity.
  - reflexivity.
  - apply not_elem_of_empty.
  - reflexivity.
  - repeat (constructor;
              [first [ by left
                     | right; split; [by eexists|apply not_elem_of_empty] ]|]).
    constructor.
  - exists w'. split; [exact Hrun|]. by rewrite !Hfiles.
Defined.

(** X25 at work: an entry that cannot be inflated ends the extraction, the
    entry before it stays extracted and the entry after it is not. *)
Lemma unzipAll_stops_damaged :
  exists w',
    unzipAll Demo.linux (flat damaged_entries)
      "/srv/hytale/hytale-downloader.zip" "/srv/hytale/hytale-downloader" downloaded
      = (Throw (Error "invalid stored block lengths"), w') /\
    files w' !! "/srv/hytale/hytale-downloader/hytale-downloader-linux-amd64" =
      Some "ELF" /\
    files w' !! "/srv/hytale/hytale-downloader/hytale-downloader-windows-amd64.exe" =
      None.
Proof.
  destruct (unzipAll_stops Demo.linux (flat damaged_entries)
              "/srv/hytale/hytale-downloader.zip" "/srv/hytale/hytale-downloader" "PK"
              [mkEntry "hytale-downloader-linux-amd64" "File" (inr "ELF")]
              [mkEntry "hytale-downloader-windows-amd64.exe" "File" (inr "MZ")]
              (mkEntry "QUICKSTART.md" "File"
                 (inl (Error "invalid stored block lengths", "# Qu")))
              (Error "invalid stored block lengths") "# Qu" downloaded)
    as (w2 & Hrun & _ & _ & Hfiles).
  - reflexivity.
  - reflexivity.
  - apply not_elem_of_empty.
  - reflexivity.
  - constructor; [|constructor].
    right. split; [by eexists|apply not_elem_of_empty].
  - discriminate.
  - reflexivity.
  - apply not_elem_of_empty.
  - exists w2. split; [exact Hrun|].
    split; (rewrite Hfiles; [reflexivity|intros Hq; vm_compute in Hq; discriminate Hq]).
Defined.

(** X28 at work: on a machine without a shell the installer leaves with
    status 1 after the one command. *)
Lemma main_without_java_no_shell :
  fst (main no_shell (flat []) 1 DEFAULT_CONFIG "hytale-downloader-linux-amd64"
         installed) = Exit 1 /\
  calls (snd (main no_shell (flat []) 1 DEFAULT_CONFIG "hytale-downloader-linux-amd64"
                installed)) = [CallExec "java -version"].
Proof.
  rewrite (main_without_java no_shell (flat []) 1 DEFAULT_CONFIG
             "hytale-downloader-linux-amd64" installed).
  - split; reflexivity.
  - split; [by eexists|reflexivity].
Defined.


